(** * Send-side bandwidth estimation (loss-based controller)

    A shallow embedding of
    [webrtc/modules/bitrate_controller/send_side_bandwidth_estimation.cc]
    and the properties of its control loop: capping, the receiver-block
    ingest, the sliding-window minimum and the three branches of
    [UpdateEstimate].

    Conventions of the embedding.
    - [uint32_t] and [uint8_t] values are [Z] with the wrap-around of every
      conversion and arithmetic operation written out ([to_uint32],
      [to_uint8]).  The [int] arithmetic on the packet counts of a receiver
      block, which come from the remote end, is written with the
      two's-complement wrap-around of the compiled code ([to_int]).  Other
      [int] and [int64_t] values (times, kbps values) are unbounded [Z]:
      the model covers the executions in which they do not overflow.
    - [float] and [double] values are IEEE-754 binary32 / binary64 numbers
      of [SpecFloat], with round-to-nearest-even operations.
    - The object is a record; every method is a function from state to
      state.  What the object sends to its collaborators (event log,
      histograms, warnings) is appended to the field [sink_].
    - [RTC_DCHECK]s are debug-only assertions and are not part of the
      behaviour; they appear as preconditions in comments. *)

From Stdlib Require Import ZArith List Bool Lia String Sorted SpecFloat.
Import ListNotations.

#[local] Open Scope Z_scope.

(** ** Machine integers *)

Definition to_uint32 (z : Z) : Z := z mod 2 ^ 32.
Definition to_uint8 (z : Z) : Z := z mod 2 ^ 8.
(** Conversion to [int] (two's complement, as every supported target
    does). *)
Definition to_int (z : Z) : Z := (z + 2 ^ 31) mod 2 ^ 32 - 2 ^ 31.

Definition INT_MAX : Z := 2 ^ 31 - 1.

(** ** Floating point *)

Definition float32 := spec_float.
Definition float64 := spec_float.

(** Truncation toward zero of a finite float; used by the conversions of a
    floating value to an integer type. *)
Definition SFtrunc (f : spec_float) : Z :=
  match f with
  | S754_finite s m e => cond_Zopp s (Z.shiftl (Zpos m) e)
  | _ => 0
  end.

Module F32.
Definition prec : Z := 24.
Definition emax : Z := 128.
Definition of_Z (z : Z) : float32 := binary_normalize prec emax z 0 false.
Definition div : float32 -> float32 -> float32 := SFdiv prec emax.
Definition leb : float32 -> float32 -> bool := SFleb.
Definition ltb : float32 -> float32 -> bool := SFltb.
(** A decimal literal [n/d] is the binary32 number nearest to it, which is
    what the correctly rounded quotient of the two integers gives. *)
Definition literal (n d : Z) : float32 := div (of_Z n) (of_Z d).
End F32.

Module F64.
Definition prec : Z := 53.
Definition emax : Z := 1024.
Definition of_Z (z : Z) : float64 := binary_normalize prec emax z 0 false.
Definition mul : float64 -> float64 -> float64 := SFmul prec emax.
Definition add : float64 -> float64 -> float64 := SFadd prec emax.
Definition div : float64 -> float64 -> float64 := SFdiv prec emax.
Definition ltb : float64 -> float64 -> bool := SFltb.
Definition literal (n d : Z) : float64 := div (of_Z n) (of_Z d).
(** [static_cast<uint32_t>(x)]: truncation toward zero.  A value outside
    the range of [uint32_t] is undefined behaviour in C++; the model
    wraps it. *)
Definition to_uint32 (x : float64) : Z := to_uint32 (SFtrunc x).
End F64.

(** ** Constants (anonymous namespace, lines 27-42) *)

Definition kBweIncreaseIntervalMs : Z := 1000.
Definition kBweDecreaseIntervalMs : Z := 300.
Definition kStartPhaseMs : Z := 2000.
Definition kBweConverganceTimeMs : Z := 20000.
Definition kLimitNumPackets : Z := 20.
Definition kDefaultMaxBitrateBps : Z := 1000000000.
Definition kLowBitrateLogPeriodMs : Z := 10000.
Definition kRtcEventLogPeriodMs : Z := 5000.
Definition kFeedbackIntervalMs : Z := 1500.
Definition kFeedbackTimeoutIntervals : Z := 3.
Definition kTimeoutIntervalMs : Z := 1000.

Definition kDefaultLowLossThreshold : float32 := F32.literal 2 100.   (* 0.02f *)
Definition kDefaultHighLossThreshold : float32 := F32.literal 1 10.   (* 0.1f *)
Definition kDefaultBitrateThresholdKbps : Z := 0.

(** [kUmaRampupMetrics], lines 49-52. *)
Definition kUmaRampupMetrics : list (string * Z) :=
  [ ("WebRTC.BWE.RampUpTimeTo500kbpsInMs"%string, 500);
    ("WebRTC.BWE.RampUpTimeTo1000kbpsInMs"%string, 1000);
    ("WebRTC.BWE.RampUpTimeTo2000kbpsInMs"%string, 2000) ].
Definition kNumUmaRampupMetrics : nat := List.length kUmaRampupMetrics.

(** ** State *)

Inductive UmaState := kNoUpdate | kFirstDone | kDone.

(** What the estimator hands to its collaborators. *)
Inductive Event :=
| LogLossBasedBweUpdate (bitrate_bps fraction_loss total_packets : Z)
    (* event_log_->LogLossBasedBweUpdate, line 362 *)
| Histogram (name : string) (sample : Z)
    (* RTC_HISTOGRAM_COUNTS / RTC_HISTOGRAMS_COUNTS_100000 *)
| LowBitrateWarning (bitrate_kbps min_kbps : Z)          (* LOG, line 409 *)
| FeedbackTimeoutWarning (time_since_feedback_ms : Z)    (* LOG, line 347 *)
| EnterUpdateUmaStats (now_ms rtt lost_packets : Z).
    (* instrumentation: one entry per invocation of UpdateUmaStats, with its
       arguments *)

(** Modelled from the spec: the member declarations of the class live in
    send_side_bandwidth_estimation.h, which is not part of the sources at
    hand.  The members are those the constructor initialises (lines
    105-132), in that order, with the types the specification's data model
    gives them. *)

Record SendSideBandwidthEstimation : Type := mkSBE {
  lost_packets_since_last_loss_update_Q8_ : Z;  (* int *)
  expected_packets_since_last_loss_update_ : Z;  (* int *)
  bitrate_ : Z;  (* uint32_t *)
  min_bitrate_configured_ : Z;  (* uint32_t *)
  max_bitrate_configured_ : Z;  (* uint32_t *)
  last_low_bitrate_log_ms_ : Z;  (* int64_t *)
  has_decreased_since_last_fraction_loss_ : bool;  (* bool *)
  last_feedback_ms_ : Z;  (* int64_t *)
  last_packet_report_ms_ : Z;  (* int64_t *)
  last_timeout_ms_ : Z;  (* int64_t *)
  last_fraction_loss_ : Z;  (* uint8_t *)
  last_logged_fraction_loss_ : Z;  (* uint8_t *)
  last_round_trip_time_ms_ : Z;  (* int64_t *)
  bwe_incoming_ : Z;  (* uint32_t *)
  delay_based_bitrate_bps_ : Z;  (* uint32_t *)
  time_last_decrease_ms_ : Z;  (* int64_t *)
  first_report_time_ms_ : Z;  (* int64_t *)
  initially_lost_packets_ : Z;  (* int *)
  bitrate_at_2_seconds_kbps_ : Z;  (* int *)
  uma_update_state_ : UmaState;  (* enum UmaState *)
  rampup_uma_stats_updated_ : list bool;  (* std::vector<bool> *)
  last_rtc_event_log_ms_ : Z;  (* int64_t *)
  in_timeout_experiment_ : bool;  (* bool *)
  low_loss_threshold_ : float32;  (* float *)
  high_loss_threshold_ : float32;  (* float *)
  bitrate_threshold_bps_ : Z;  (* uint32_t *)
  min_bitrate_history_ : list (Z * Z);  (* std::deque<std::pair<int64_t, uint32_t>>, front first *)
  sink_ : list Event  (* what event_log_, the histogram macros and LOG received, oldest first *)
}.

Definition set_lost_packets_since_last_loss_update_Q8_ (v : Z) (s : SendSideBandwidthEstimation) :=
  let '(mkSBE _ ex br mn mx ll hd fb pr to fl lg rt bi db td fr il b2 us ru
       re te lo hi bt mh sk) := s in
  mkSBE v ex br mn mx ll hd fb pr to fl lg rt bi db td fr il b2 us ru re te
    lo hi bt mh sk.

Definition set_expected_packets_since_last_loss_update_ (v : Z) (s : SendSideBandwidthEstimation) :=
  let '(mkSBE lq _ br mn mx ll hd fb pr to fl lg rt bi db td fr il b2 us ru
       re te lo hi bt mh sk) := s in
  mkSBE lq v br mn mx ll hd fb pr to fl lg rt bi db td fr il b2 us ru re te
    lo hi bt mh sk.

Definition set_bitrate_ (v : Z) (s : SendSideBandwidthEstimation) :=
  let '(mkSBE lq ex _ mn mx ll hd fb pr to fl lg rt bi db td fr il b2 us ru
       re te lo hi bt mh sk) := s in
  mkSBE lq ex v mn mx ll hd fb pr to fl lg rt bi db td fr il b2 us ru re te
    lo hi bt mh sk.

Definition set_min_bitrate_configured_ (v : Z) (s : SendSideBandwidthEstimation) :=
  let '(mkSBE lq ex br _ mx ll hd fb pr to fl lg rt bi db td fr il b2 us ru
       re te lo hi bt mh sk) := s in
  mkSBE lq ex br v mx ll hd fb pr to fl lg rt bi db td fr il b2 us ru re te
    lo hi bt mh sk.

Definition set_max_bitrate_configured_ (v : Z) (s : SendSideBandwidthEstimation) :=
  let '(mkSBE lq ex br mn _ ll hd fb pr to fl lg rt bi db td fr il b2 us ru
       re te lo hi bt mh sk) := s in
  mkSBE lq ex br mn v ll hd fb pr to fl lg rt bi db td fr il b2 us ru re te
    lo hi bt mh sk.

Definition set_last_low_bitrate_log_ms_ (v : Z) (s : SendSideBandwidthEstimation) :=
  let '(mkSBE lq ex br mn mx _ hd fb pr to fl lg rt bi db td fr il b2 us ru
       re te lo hi bt mh sk) := s in
  mkSBE lq ex br mn mx v hd fb pr to fl lg rt bi db td fr il b2 us ru re te
    lo hi bt mh sk.

Definition set_has_decreased_since_last_fraction_loss_ (v : bool) (s : SendSideBandwidthEstimation) :=
  let '(mkSBE lq ex br mn mx ll _ fb pr to fl lg rt bi db td fr il b2 us ru
       re te lo hi bt mh sk) := s in
  mkSBE lq ex br mn mx ll v fb pr to fl lg rt bi db td fr il b2 us ru re te
    lo hi bt mh sk.

Definition set_last_feedback_ms_ (v : Z) (s : SendSideBandwidthEstimation) :=
  let '(mkSBE lq ex br mn mx ll hd _ pr to fl lg rt bi db td fr il b2 us ru
       re te lo hi bt mh sk) := s in
  mkSBE lq ex br mn mx ll hd v pr to fl lg rt bi db td fr il b2 us ru re te
    lo hi bt mh sk.

Definition set_last_packet_report_ms_ (v : Z) (s : SendSideBandwidthEstimation) :=
  let '(mkSBE lq ex br mn mx ll hd fb _ to fl lg rt bi db td fr il b2 us ru
       re te lo hi bt mh sk) := s in
  mkSBE lq ex br mn mx ll hd fb v to fl lg rt bi db td fr il b2 us ru re te
    lo hi bt mh sk.

Definition set_last_timeout_ms_ (v : Z) (s : SendSideBandwidthEstimation) :=
  let '(mkSBE lq ex br mn mx ll hd fb pr _ fl lg rt bi db td fr il b2 us ru
       re te lo hi bt mh sk) := s in
  mkSBE lq ex br mn mx ll hd fb pr v fl lg rt bi db td fr il b2 us ru re te
    lo hi bt mh sk.

Definition set_last_fraction_loss_ (v : Z) (s : SendSideBandwidthEstimation) :=
  let '(mkSBE lq ex br mn mx ll hd fb pr to _ lg rt bi db td fr il b2 us ru
       re te lo hi bt mh sk) := s in
  mkSBE lq ex br mn mx ll hd fb pr to v lg rt bi db td fr il b2 us ru re te
    lo hi bt mh sk.

Definition set_last_logged_fraction_loss_ (v : Z) (s : SendSideBandwidthEstimation) :=
  let '(mkSBE lq ex br mn mx ll hd fb pr to fl _ rt bi db td fr il b2 us ru
       re te lo hi bt mh sk) := s in
  mkSBE lq ex br mn mx ll hd fb pr to fl v rt bi db td fr il b2 us ru re te
    lo hi bt mh sk.

Definition set_last_round_trip_time_ms_ (v : Z) (s : SendSideBandwidthEstimation) :=
  let '(mkSBE lq ex br mn mx ll hd fb pr to fl lg _ bi db td fr il b2 us ru
       re te lo hi bt mh sk) := s in
  mkSBE lq ex br mn mx ll hd fb pr to fl lg v bi db td fr il b2 us ru re te
    lo hi bt mh sk.

Definition set_bwe_incoming_ (v : Z) (s : SendSideBandwidthEstimation) :=
  let '(mkSBE lq ex br mn mx ll hd fb pr to fl lg rt _ db td fr il b2 us ru
       re te lo hi bt mh sk) := s in
  mkSBE lq ex br mn mx ll hd fb pr to fl lg rt v db td fr il b2 us ru re te
    lo hi bt mh sk.

Definition set_delay_based_bitrate_bps_ (v : Z) (s : SendSideBandwidthEstimation) :=
  let '(mkSBE lq ex br mn mx ll hd fb pr to fl lg rt bi _ td fr il b2 us ru
       re te lo hi bt mh sk) := s in
  mkSBE lq ex br mn mx ll hd fb pr to fl lg rt bi v td fr il b2 us ru re te
    lo hi bt mh sk.

Definition set_time_last_decrease_ms_ (v : Z) (s : SendSideBandwidthEstimation) :=
  let '(mkSBE lq ex br mn mx ll hd fb pr to fl lg rt bi db _ fr il b2 us ru
       re te lo hi bt mh sk) := s in
  mkSBE lq ex br mn mx ll hd fb pr to fl lg rt bi db v fr il b2 us ru re te
    lo hi bt mh sk.

Definition set_first_report_time_ms_ (v : Z) (s : SendSideBandwidthEstimation) :=
  let '(mkSBE lq ex br mn mx ll hd fb pr to fl lg rt bi db td _ il b2 us ru
       re te lo hi bt mh sk) := s in
  mkSBE lq ex br mn mx ll hd fb pr to fl lg rt bi db td v il b2 us ru re te
    lo hi bt mh sk.

Definition set_initially_lost_packets_ (v : Z) (s : SendSideBandwidthEstimation) :=
  let '(mkSBE lq ex br mn mx ll hd fb pr to fl lg rt bi db td fr _ b2 us ru
       re te lo hi bt mh sk) := s in
  mkSBE lq ex br mn mx ll hd fb pr to fl lg rt bi db td fr v b2 us ru re te
    lo hi bt mh sk.

Definition set_bitrate_at_2_seconds_kbps_ (v : Z) (s : SendSideBandwidthEstimation) :=
  let '(mkSBE lq ex br mn mx ll hd fb pr to fl lg rt bi db td fr il _ us ru
       re te lo hi bt mh sk) := s in
  mkSBE lq ex br mn mx ll hd fb pr to fl lg rt bi db td fr il v us ru re te
    lo hi bt mh sk.

Definition set_uma_update_state_ (v : UmaState) (s : SendSideBandwidthEstimation) :=
  let '(mkSBE lq ex br mn mx ll hd fb pr to fl lg rt bi db td fr il b2 _ ru
       re te lo hi bt mh sk) := s in
  mkSBE lq ex br mn mx ll hd fb pr to fl lg rt bi db td fr il b2 v ru re te
    lo hi bt mh sk.

Definition set_rampup_uma_stats_updated_ (v : list bool) (s : SendSideBandwidthEstimation) :=
  let '(mkSBE lq ex br mn mx ll hd fb pr to fl lg rt bi db td fr il b2 us _
       re te lo hi bt mh sk) := s in
  mkSBE lq ex br mn mx ll hd fb pr to fl lg rt bi db td fr il b2 us v re te
    lo hi bt mh sk.

Definition set_last_rtc_event_log_ms_ (v : Z) (s : SendSideBandwidthEstimation) :=
  let '(mkSBE lq ex br mn mx ll hd fb pr to fl lg rt bi db td fr il b2 us ru
       _ te lo hi bt mh sk) := s in
  mkSBE lq ex br mn mx ll hd fb pr to fl lg rt bi db td fr il b2 us ru v te
    lo hi bt mh sk.

Definition set_min_bitrate_history_ (v : list (Z * Z)) (s : SendSideBandwidthEstimation) :=
  let '(mkSBE lq ex br mn mx ll hd fb pr to fl lg rt bi db td fr il b2 us ru
       re te lo hi bt _ sk) := s in
  mkSBE lq ex br mn mx ll hd fb pr to fl lg rt bi db td fr il b2 us ru re te
    lo hi bt v sk.

Definition set_sink_ (v : list Event) (s : SendSideBandwidthEstimation) :=
  let '(mkSBE lq ex br mn mx ll hd fb pr to fl lg rt bi db td fr il b2 us ru
       re te lo hi bt mh _) := s in
  mkSBE lq ex br mn mx ll hd fb pr to fl lg rt bi db td fr il b2 us ru re te
    lo hi bt mh v.

Definition emit (e : Event) (s : SendSideBandwidthEstimation) :=
  set_sink_ (sink_ s ++ [e]) s.

(** ** Field trials and construction (lines 58-145)

    Modelled from the spec: [congestion_controller::GetMinBitrateBps] and
    the field-trial registry [webrtc::field_trial] are declared outside the
    sources at hand; they are process-wide configuration, taken here as an
    injected record.  [BweLossExperiment] is [Some (low, high, kbps)] when
    the trial string begins with "Enabled" and [sscanf] parsed the three
    values, [None] otherwise. *)
Record FieldTrials := {
  GetMinBitrateBps : Z;
  FeedbackTimeout_IsEnabled : bool;
  BweLossExperiment : option (float32 * float32 * Z)
}.

Definition f32_zero : float32 := F32.of_Z 0.
Definition f32_one : float32 := F32.of_Z 1.

(** The [RTC_CHECK]s of [ReadBweLossExperimentParameters], lines 77-92. *)
Definition BweLossExperimentParametersOk (low high : float32) (kbps : Z) : bool :=
  F32.ltb f32_zero low && F32.leb low f32_one &&
  F32.ltb f32_zero high && F32.leb high f32_one &&
  F32.leb low high &&
  (0 <=? kbps) && (kbps <? INT_MAX / 1000).

Definition InitialState (ft : FieldTrials) (low high : float32) (threshold_bps : Z) :=
  {| lost_packets_since_last_loss_update_Q8_ := 0;
     expected_packets_since_last_loss_update_ := 0;
     bitrate_ := 0;
     min_bitrate_configured_ := to_uint32 (GetMinBitrateBps ft);
     max_bitrate_configured_ := kDefaultMaxBitrateBps;
     last_low_bitrate_log_ms_ := -1;
     has_decreased_since_last_fraction_loss_ := false;
     last_feedback_ms_ := -1;
     last_packet_report_ms_ := -1;
     last_timeout_ms_ := -1;
     last_fraction_loss_ := 0;
     last_logged_fraction_loss_ := 0;
     last_round_trip_time_ms_ := 0;
     bwe_incoming_ := 0;
     delay_based_bitrate_bps_ := 0;
     time_last_decrease_ms_ := 0;
     first_report_time_ms_ := -1;
     initially_lost_packets_ := 0;
     bitrate_at_2_seconds_kbps_ := 0;
     uma_update_state_ := kNoUpdate;
     rampup_uma_stats_updated_ := repeat false kNumUmaRampupMetrics;
     last_rtc_event_log_ms_ := -1;
     in_timeout_experiment_ := FeedbackTimeout_IsEnabled ft;
     low_loss_threshold_ := low;
     high_loss_threshold_ := high;
     bitrate_threshold_bps_ := threshold_bps;
     min_bitrate_history_ := [];
     sink_ := [] |}.

(** The constructor.  A failed [RTC_CHECK] aborts the process: [None]. *)
Definition NewSendSideBandwidthEstimation (ft : FieldTrials)
  : option SendSideBandwidthEstimation :=
  match BweLossExperiment ft with
  | None =>
      Some (InitialState ft kDefaultLowLossThreshold kDefaultHighLossThreshold
              (to_uint32 (1000 * kDefaultBitrateThresholdKbps)))
  | Some (low, high, kbps) =>
      if BweLossExperimentParametersOk low high kbps
      then Some (InitialState ft low high (to_uint32 (kbps * 1000)))
      else None
  end.

(** ** Capping (lines 395-417) *)

Definition CapBitrateToThresholds (now_ms bitrate : Z)
  (s : SendSideBandwidthEstimation) : Z * SendSideBandwidthEstimation :=
  let bitrate :=
    if (bwe_incoming_ s >? 0) && (bitrate >? bwe_incoming_ s)
    then bwe_incoming_ s else bitrate in
  let bitrate :=
    if (delay_based_bitrate_bps_ s >? 0) && (bitrate >? delay_based_bitrate_bps_ s)
    then delay_based_bitrate_bps_ s else bitrate in
  let bitrate :=
    if bitrate >? max_bitrate_configured_ s
    then max_bitrate_configured_ s else bitrate in
  if bitrate <? min_bitrate_configured_ s then
    let s :=
      if (last_low_bitrate_log_ms_ s =? -1) ||
         (now_ms - last_low_bitrate_log_ms_ s >? kLowBitrateLogPeriodMs)
      then set_last_low_bitrate_log_ms_ now_ms
             (emit (LowBitrateWarning (bitrate / 1000)
                                      (min_bitrate_configured_ s / 1000)) s)
      else s in
    (min_bitrate_configured_ s, s)
  else (bitrate, s).

(** ** Configuration and queries (lines 149-202) *)

(** Precondition ([RTC_DCHECK_GT]): [bitrate > 0]. *)
Definition SetSendBitrate (bitrate : Z) (s : SendSideBandwidthEstimation) :=
  let s := set_bitrate_ (to_uint32 bitrate) s in
  set_min_bitrate_history_ [] s.

(** Precondition ([RTC_DCHECK_GE]): [min_bitrate >= 0]. *)
Definition SetMinMaxBitrate (ft : FieldTrials) (min_bitrate max_bitrate : Z)
  (s : SendSideBandwidthEstimation) :=
  let s := set_min_bitrate_configured_
             (to_uint32 (Z.max min_bitrate (GetMinBitrateBps ft))) s in
  if max_bitrate >? 0 then
    set_max_bitrate_configured_
      (Z.max (min_bitrate_configured_ s) (to_uint32 max_bitrate)) s
  else
    set_max_bitrate_configured_ kDefaultMaxBitrateBps s.

Definition SetBitrates (ft : FieldTrials) (send_bitrate min_bitrate max_bitrate : Z)
  (s : SendSideBandwidthEstimation) :=
  let s := if send_bitrate >? 0 then SetSendBitrate send_bitrate s else s in
  SetMinMaxBitrate ft min_bitrate max_bitrate s.

Definition GetMinBitrate (s : SendSideBandwidthEstimation) : Z :=
  to_int (min_bitrate_configured_ s).

(** The three out-parameters [( *bitrate, *loss, *rtt )]. *)
Definition CurrentEstimate (s : SendSideBandwidthEstimation) : Z * Z * Z :=
  (to_int (bitrate_ s), last_fraction_loss_ s, last_round_trip_time_ms_ s).

Definition UpdateReceiverEstimate (now_ms bandwidth : Z)
  (s : SendSideBandwidthEstimation) :=
  let s := set_bwe_incoming_ bandwidth s in
  let '(b, s) := CapBitrateToThresholds now_ms (bitrate_ s) s in
  set_bitrate_ b s.

Definition UpdateDelayBasedEstimate (now_ms bitrate_bps : Z)
  (s : SendSideBandwidthEstimation) :=
  let s := set_delay_based_bitrate_bps_ bitrate_bps s in
  let '(b, s) := CapBitrateToThresholds now_ms (bitrate_ s) s in
  set_bitrate_ b s.

Definition IsInStartPhase (now_ms : Z) (s : SendSideBandwidthEstimation) : bool :=
  (first_report_time_ms_ s =? -1) ||
  (now_ms - first_report_time_ms_ s <? kStartPhaseMs).


(** ** Sliding-window minimum (lines 375-393) *)

(** [while (!d.empty() && p(d.front())) d.pop_front();] *)
Fixpoint pop_front_while (p : Z * Z -> bool) (d : list (Z * Z)) : list (Z * Z) :=
  match d with
  | [] => []
  | x :: d' => if p x then pop_front_while p d' else d
  end.

(** [while (!d.empty() && p(d.back())) d.pop_back();] *)
Definition pop_back_while (p : Z * Z -> bool) (d : list (Z * Z)) : list (Z * Z) :=
  rev (pop_front_while p (rev d)).

(** The body of [UpdateMinHistory] on the deque alone. *)
Definition min_history_push (now_ms bitrate : Z) (d : list (Z * Z)) : list (Z * Z) :=
  let d := pop_front_while
             (fun x => now_ms - fst x + 1 >? kBweIncreaseIntervalMs) d in
  let d := pop_back_while (fun x => bitrate <=? snd x) d in
  d ++ [(now_ms, bitrate)].

Definition UpdateMinHistory (now_ms : Z) (s : SendSideBandwidthEstimation) :=
  set_min_bitrate_history_
    (min_history_push now_ms (bitrate_ s) (min_bitrate_history_ s)) s.

(** ** Metrics (lines 240-271) *)

Fixpoint set_nth {A} (i : nat) (v : A) (l : list A) : list A :=
  match l, i with
  | [], _ => []
  | _ :: t, O => v :: t
  | x :: t, S i' => x :: set_nth i' v t
  end.

(** One iteration of the loop over [kUmaRampupMetrics], lines 245-250. *)
Definition RampupStep (now_ms bitrate_kbps : Z)
  (s : SendSideBandwidthEstimation) (im : nat * (string * Z)) :=
  let '(i, (metric_name, metric_kbps)) := im in
  if negb (nth i (rampup_uma_stats_updated_ s) false) &&
     (bitrate_kbps >=? metric_kbps)
  then
    let s := emit (Histogram metric_name (now_ms - first_report_time_ms_ s)) s in
    set_rampup_uma_stats_updated_ (set_nth i true (rampup_uma_stats_updated_ s)) s
  else s.

Definition UpdateUmaStats (now_ms rtt lost_packets : Z)
  (s : SendSideBandwidthEstimation) :=
  let s := emit (EnterUpdateUmaStats now_ms rtt lost_packets) s in
  let bitrate_kbps := to_int (to_uint32 (bitrate_ s + 500) / 1000) in
  let s := fold_left (RampupStep now_ms bitrate_kbps)
             (combine (seq 0 kNumUmaRampupMetrics) kUmaRampupMetrics) s in
  if IsInStartPhase now_ms s then
    set_initially_lost_packets_ (initially_lost_packets_ s + lost_packets) s
  else
    match uma_update_state_ s with
    | kNoUpdate =>
        let s := set_uma_update_state_ kFirstDone s in
        let s := set_bitrate_at_2_seconds_kbps_ bitrate_kbps s in
        let s := emit (Histogram "WebRTC.BWE.InitiallyLostPackets"
                         (initially_lost_packets_ s)) s in
        let s := emit (Histogram "WebRTC.BWE.InitialRtt" (to_int rtt)) s in
        emit (Histogram "WebRTC.BWE.InitialBandwidthEstimate"
                (bitrate_at_2_seconds_kbps_ s)) s
    | kFirstDone =>
        if now_ms - first_report_time_ms_ s >=? kBweConverganceTimeMs then
          let s := set_uma_update_state_ kDone s in
          let bitrate_diff_kbps :=
            Z.max (bitrate_at_2_seconds_kbps_ s - bitrate_kbps) 0 in
          emit (Histogram "WebRTC.BWE.InitialVsConvergedDiff" bitrate_diff_kbps) s
        else s
    | kDone => s
    end.

(** ** The control loop (lines 273-368) *)

(** Floating-point literals of [UpdateEstimate]. *)
Definition d1_2 : float64 := F64.literal 12 10.     (* 1.2 *)
Definition d1_08 : float64 := F64.literal 108 100.  (* 1.08 *)
Definition d0_5 : float64 := F64.literal 1 2.       (* 0.5 *)
Definition d0_8 : float64 := F64.literal 8 10.      (* 0.8 *)
Definition d512 : float64 := F64.of_Z 512.          (* 512.0 *)
Definition f256 : float32 := F32.of_Z 256.          (* 256.0f *)

(** Lines 277-282: adoption of the external estimates during start-up. *)
Definition StartupTrust (now_ms : Z) (s : SendSideBandwidthEstimation) :=
  let s :=
    if bwe_incoming_ s >? bitrate_ s then
      let '(b, s) := CapBitrateToThresholds now_ms (bwe_incoming_ s) s in
      set_bitrate_ b s
    else s in
  if delay_based_bitrate_bps_ s >? bitrate_ s then
    let '(b, s) := CapBitrateToThresholds now_ms (delay_based_bitrate_bps_ s) s in
    set_bitrate_ b s
  else s.

(** [min_bitrate_history_.front().second]; the deque is never empty where
    the source reads it (line 315 follows [UpdateMinHistory]). *)
Definition front_bitrate (d : list (Z * Z)) : Z :=
  match d with
  | x :: _ => snd x
  | [] => 0
  end.

(** [time_since_packet_report_ms < 1.2 * kFeedbackIntervalMs], line 297. *)
Definition FeedbackIsFresh (time_since_packet_report_ms : Z) : bool :=
  F64.ltb (F64.of_Z time_since_packet_report_ms)
          (F64.mul d1_2 (F64.of_Z kFeedbackIntervalMs)).

(** [float loss = last_fraction_loss_ / 256.0f], line 299. *)
Definition LossOf (s : SendSideBandwidthEstimation) : float32 :=
  F32.div (F32.of_Z (last_fraction_loss_ s)) f256.

(** Line 314-320. *)
Definition IncreasedBitrate (front : Z) : Z :=
  let b := F64.to_uint32 (F64.add (F64.mul (F64.of_Z front) d1_08) d0_5) in
  to_uint32 (b + 1000).

(** Lines 335-337. *)
Definition DecreasedBitrate (bitrate fraction_loss : Z) : Z :=
  F64.to_uint32
    (F64.div (F64.mul (F64.of_Z bitrate) (F64.of_Z (512 - fraction_loss))) d512).

(** [bitrate_ *= 0.8], line 349. *)
Definition TimedOutBitrate (bitrate : Z) : Z :=
  F64.to_uint32 (F64.mul (F64.of_Z bitrate) d0_8).

(** Lines 295-356: the loss-based update and the feedback timeout. *)
Definition LossBasedControl (now_ms : Z) (s : SendSideBandwidthEstimation) :=
  let time_since_packet_report_ms := now_ms - last_packet_report_ms_ s in
  let time_since_feedback_ms := now_ms - last_feedback_ms_ s in
  if FeedbackIsFresh time_since_packet_report_ms then
    let loss := LossOf s in
    if (bitrate_ s <? bitrate_threshold_bps_ s) ||
       F32.leb loss (low_loss_threshold_ s)
    then
      set_bitrate_ (IncreasedBitrate (front_bitrate (min_bitrate_history_ s))) s
    else if bitrate_ s >? bitrate_threshold_bps_ s then
      if F32.leb loss (high_loss_threshold_ s) then s
      else
        if negb (has_decreased_since_last_fraction_loss_ s) &&
           (now_ms - time_last_decrease_ms_ s >=?
              kBweDecreaseIntervalMs + last_round_trip_time_ms_ s)
        then
          let s := set_time_last_decrease_ms_ now_ms s in
          let s := set_bitrate_
                     (DecreasedBitrate (bitrate_ s) (last_fraction_loss_ s)) s in
          set_has_decreased_since_last_fraction_loss_ true s
        else s
    else s
  else if (time_since_feedback_ms >?
             kFeedbackTimeoutIntervals * kFeedbackIntervalMs) &&
          ((last_timeout_ms_ s =? -1) ||
           (now_ms - last_timeout_ms_ s >? kTimeoutIntervalMs))
  then
    if in_timeout_experiment_ s then
      let s := emit (FeedbackTimeoutWarning time_since_feedback_ms) s in
      let s := set_bitrate_ (TimedOutBitrate (bitrate_ s)) s in
      let s := set_lost_packets_since_last_loss_update_Q8_ 0 s in
      let s := set_expected_packets_since_last_loss_update_ 0 s in
      set_last_timeout_ms_ now_ms s
    else s
  else s.

(** Lines 357-367: cap, log to the event log, store. *)
Definition CapAndLog (now_ms : Z) (s : SendSideBandwidthEstimation) :=
  let bitrate := bitrate_ s in
  let '(capped_bitrate, s) := CapBitrateToThresholds now_ms bitrate s in
  let s :=
    if negb (capped_bitrate =? bitrate) ||
       negb (last_fraction_loss_ s =? last_logged_fraction_loss_ s) ||
       (last_rtc_event_log_ms_ s =? -1) ||
       (now_ms - last_rtc_event_log_ms_ s >? kRtcEventLogPeriodMs)
    then
      let s := emit (LogLossBasedBweUpdate capped_bitrate (last_fraction_loss_ s)
                       (expected_packets_since_last_loss_update_ s)) s in
      let s := set_last_logged_fraction_loss_ (last_fraction_loss_ s) s in
      set_last_rtc_event_log_ms_ now_ms s
    else s in
  set_bitrate_ capped_bitrate s.

(** Lines 289-368, everything after the start-up block. *)
Definition RegularUpdate (now_ms : Z) (s : SendSideBandwidthEstimation) :=
  let s := UpdateMinHistory now_ms s in
  if last_packet_report_ms_ s =? -1 then
    (* No feedback received. *)
    let '(b, s) := CapBitrateToThresholds now_ms (bitrate_ s) s in
    set_bitrate_ b s
  else
    CapAndLog now_ms (LossBasedControl now_ms s).

Definition UpdateEstimate (now_ms : Z) (s : SendSideBandwidthEstimation) :=
  if (last_fraction_loss_ s =? 0) && IsInStartPhase now_ms s then
    let prev_bitrate := bitrate_ s in
    let s := StartupTrust now_ms s in
    if negb (bitrate_ s =? prev_bitrate) then
      let s := set_min_bitrate_history_ [] s in
      set_min_bitrate_history_
        (min_bitrate_history_ s ++ [(now_ms, bitrate_ s)]) s
    else RegularUpdate now_ms s
  else RegularUpdate now_ms s.

(** ** Receiver blocks (lines 204-238) *)

(** The products and sums on [int] are taken with their wrap-around:
    [number_of_packets] is any [int] the remote end reports. *)
Definition UpdateReceiverBlock (fraction_loss rtt number_of_packets now_ms : Z)
  (s : SendSideBandwidthEstimation) :=
  let s := set_last_feedback_ms_ now_ms s in
  let s := if first_report_time_ms_ s =? -1
           then set_first_report_time_ms_ now_ms s else s in
  let s := set_last_round_trip_time_ms_ rtt s in
  if number_of_packets >? 0 then
    let num_lost_packets_Q8 := to_int (fraction_loss * number_of_packets) in
    let s := set_lost_packets_since_last_loss_update_Q8_
               (to_int (lost_packets_since_last_loss_update_Q8_ s +
                        num_lost_packets_Q8)) s in
    let s := set_expected_packets_since_last_loss_update_
               (to_int (expected_packets_since_last_loss_update_ s +
                        number_of_packets)) s in
    if expected_packets_since_last_loss_update_ s <? kLimitNumPackets then
      s (* return *)
    else
      let s := set_has_decreased_since_last_fraction_loss_ false s in
      let s := set_last_fraction_loss_
                 (to_uint8 (Z.quot (lost_packets_since_last_loss_update_Q8_ s)
                                   (expected_packets_since_last_loss_update_ s))) s in
      let s := set_lost_packets_since_last_loss_update_Q8_ 0 s in
      let s := set_expected_packets_since_last_loss_update_ 0 s in
      let s := set_last_packet_report_ms_ now_ms s in
      let s := UpdateEstimate now_ms s in
      UpdateUmaStats now_ms rtt
        (Z.shiftr (to_int (fraction_loss * number_of_packets)) 8) s
  else
    UpdateUmaStats now_ms rtt
      (Z.shiftr (to_int (fraction_loss * number_of_packets)) 8) s.

(** ** Sequences of calls *)

Inductive Call :=
| CallSetBitrates (send_bitrate min_bitrate max_bitrate : Z)
| CallSetSendBitrate (bitrate : Z)
| CallSetMinMaxBitrate (min_bitrate max_bitrate : Z)
| CallUpdateReceiverEstimate (now_ms bandwidth : Z)
| CallUpdateDelayBasedEstimate (now_ms bitrate_bps : Z)
| CallUpdateReceiverBlock (fraction_loss rtt number_of_packets now_ms : Z)
| CallUpdateEstimate (now_ms : Z).

Definition step (ft : FieldTrials) (c : Call) (s : SendSideBandwidthEstimation) :=
  match c with
  | CallSetBitrates b mn mx => SetBitrates ft b mn mx s
  | CallSetSendBitrate b => SetSendBitrate b s
  | CallSetMinMaxBitrate mn mx => SetMinMaxBitrate ft mn mx s
  | CallUpdateReceiverEstimate now bw => UpdateReceiverEstimate now bw s
  | CallUpdateDelayBasedEstimate now b => UpdateDelayBasedEstimate now b s
  | CallUpdateReceiverBlock fl rtt n now => UpdateReceiverBlock fl rtt n now s
  | CallUpdateEstimate now => UpdateEstimate now s
  end.

Definition run (ft : FieldTrials) (cs : list Call) (s : SendSideBandwidthEstimation) :=
  fold_left (fun s c => step ft c s) cs s.

(** The default configuration: no field trial set; the system-wide minimum
    is 10 kbps. *)
Definition default_trials : FieldTrials :=
  {| GetMinBitrateBps := 10000;
     FeedbackTimeout_IsEnabled := false;
     BweLossExperiment := None |}.

Definition timeout_trials : FieldTrials :=
  {| GetMinBitrateBps := 10000;
     FeedbackTimeout_IsEnabled := true;
     BweLossExperiment := None |}.

Definition default_state : SendSideBandwidthEstimation :=
  InitialState default_trials kDefaultLowLossThreshold kDefaultHighLossThreshold 0.


(** * RTP sources (webrtc/api/rtpreceiverinterface.h)

    The class [RtpSource], lines 34-62: a value with a time stamp that can
    be advanced, and an identifier and a kind that are fixed at
    construction. *)

Module RtpSource.

Inductive RtpSourceType := SSRC | CSRC.

Record t : Type := mk {
  timestamp_ms_ : Z;               (* int64_t *)
  source_id_ : Z;                  (* uint32_t *)
  source_type_ : RtpSourceType
}.

(** The constructor of line 37; [source_id] is a [uint32_t]. *)
Definition new (timestamp_ms source_id : Z) (source_type : RtpSourceType) : t :=
  mk timestamp_ms (to_uint32 source_id) source_type.

Definition timestamp_ms (r : t) : Z := timestamp_ms_ r.

(** Precondition ([RTC_DCHECK_LE]): [timestamp_ms_ <= timestamp_ms]. *)
Definition update_timestamp_ms (timestamp_ms : Z) (r : t) : t :=
  mk timestamp_ms (source_id_ r) (source_type_ r).

Definition source_id (r : t) : Z := source_id_ r.

Definition source_type (r : t) : RtpSourceType := source_type_ r.

(** "This isn't implemented yet and will always return an empty
    Optional." *)
Definition audio_level (r : t) : option Z := None.

(** The default implementation of [RtpReceiverInterface::GetSources],
    lines 103-105. *)
Definition GetSources : list t := [].

End RtpSource.

(** * Properties *)

(** ** Tactics *)

(** Case analysis on the integer comparisons of the goal, innermost first,
    so that the facts produced mention no conditional. *)
Ltac no_cond t :=
  lazymatch t with
  | context [if _ then _ else _] => fail
  | _ => idtac
  end.

Ltac zcase :=
  match goal with
  | |- context [?a >? ?b] => no_cond a; no_cond b; destruct (Z.gtb_spec a b)
  | |- context [?a >=? ?b] => no_cond a; no_cond b; destruct (Z.geb_spec a b)
  | |- context [?a <? ?b] => no_cond a; no_cond b; destruct (Z.ltb_spec a b)
  | |- context [?a <=? ?b] => no_cond a; no_cond b; destruct (Z.leb_spec a b)
  | |- context [?a =? ?b] => no_cond a; no_cond b; destruct (Z.eqb_spec a b)
  end.

Ltac zcases := repeat (zcase; cbn [andb orb negb fst snd]).

(** Reduction of field accesses over field updates, and nothing else. *)
Ltac sbe_simpl :=
  cbn [lost_packets_since_last_loss_update_Q8_
       expected_packets_since_last_loss_update_ bitrate_
       min_bitrate_configured_ max_bitrate_configured_
       last_low_bitrate_log_ms_ has_decreased_since_last_fraction_loss_
       last_feedback_ms_ last_packet_report_ms_ last_timeout_ms_
       last_fraction_loss_ last_logged_fraction_loss_
       last_round_trip_time_ms_ bwe_incoming_ delay_based_bitrate_bps_
       time_last_decrease_ms_ first_report_time_ms_ initially_lost_packets_
       bitrate_at_2_seconds_kbps_ uma_update_state_ rampup_uma_stats_updated_
       last_rtc_event_log_ms_ in_timeout_experiment_ low_loss_threshold_
       high_loss_threshold_ bitrate_threshold_bps_ min_bitrate_history_ sink_
       set_lost_packets_since_last_loss_update_Q8_
       set_expected_packets_since_last_loss_update_ set_bitrate_
       set_min_bitrate_configured_ set_max_bitrate_configured_
       set_last_low_bitrate_log_ms_
       set_has_decreased_since_last_fraction_loss_ set_last_feedback_ms_
       set_last_packet_report_ms_ set_last_timeout_ms_
       set_last_fraction_loss_ set_last_logged_fraction_loss_
       set_last_round_trip_time_ms_ set_bwe_incoming_
       set_delay_based_bitrate_bps_ set_time_last_decrease_ms_
       set_first_report_time_ms_ set_initially_lost_packets_
       set_bitrate_at_2_seconds_kbps_ set_uma_update_state_
       set_rampup_uma_stats_updated_ set_last_rtc_event_log_ms_
       set_min_bitrate_history_ set_sink_ emit fst snd].

Ltac sbe_simpl_all :=
  cbn [lost_packets_since_last_loss_update_Q8_
       expected_packets_since_last_loss_update_ bitrate_
       min_bitrate_configured_ max_bitrate_configured_
       last_low_bitrate_log_ms_ has_decreased_since_last_fraction_loss_
       last_feedback_ms_ last_packet_report_ms_ last_timeout_ms_
       last_fraction_loss_ last_logged_fraction_loss_
       last_round_trip_time_ms_ bwe_incoming_ delay_based_bitrate_bps_
       time_last_decrease_ms_ first_report_time_ms_ initially_lost_packets_
       bitrate_at_2_seconds_kbps_ uma_update_state_ rampup_uma_stats_updated_
       last_rtc_event_log_ms_ in_timeout_experiment_ low_loss_threshold_
       high_loss_threshold_ bitrate_threshold_bps_ min_bitrate_history_ sink_
       set_lost_packets_since_last_loss_update_Q8_
       set_expected_packets_since_last_loss_update_ set_bitrate_
       set_min_bitrate_configured_ set_max_bitrate_configured_
       set_last_low_bitrate_log_ms_
       set_has_decreased_since_last_fraction_loss_ set_last_feedback_ms_
       set_last_packet_report_ms_ set_last_timeout_ms_
       set_last_fraction_loss_ set_last_logged_fraction_loss_
       set_last_round_trip_time_ms_ set_bwe_incoming_
       set_delay_based_bitrate_bps_ set_time_last_decrease_ms_
       set_first_report_time_ms_ set_initially_lost_packets_
       set_bitrate_at_2_seconds_kbps_ set_uma_update_state_
       set_rampup_uma_stats_updated_ set_last_rtc_event_log_ms_
       set_min_bitrate_history_ set_sink_ emit fst snd] in *.

(** ** Capping *)

(** A ceiling that is ignored while it is zero (lines 397 and 400). *)
Definition ceiling (c b : Z) : Z := if c >? 0 then Z.min b c else b.

(** The value [CapBitrateToThresholds] returns, as a formula: REMB ceiling,
    delay-based ceiling, configured maximum, configured minimum, in that
    order. *)
Definition cap_value (s : SendSideBandwidthEstimation) (b : Z) : Z :=
  Z.max (min_bitrate_configured_ s)
    (Z.min (ceiling (delay_based_bitrate_bps_ s) (ceiling (bwe_incoming_ s) b))
           (max_bitrate_configured_ s)).

(** Two states that agree on what capping reads. *)
Definition same_thresholds (s s' : SendSideBandwidthEstimation) : Prop :=
  bwe_incoming_ s' = bwe_incoming_ s /\
  delay_based_bitrate_bps_ s' = delay_based_bitrate_bps_ s /\
  max_bitrate_configured_ s' = max_bitrate_configured_ s /\
  min_bitrate_configured_ s' = min_bitrate_configured_ s.

Lemma cap_value_same_thresholds s s' b :
  same_thresholds s s' -> cap_value s' b = cap_value s b.
Proof.
  intros (Hb & Hd & Hx & Hn). unfold cap_value. now rewrite Hb, Hd, Hx, Hn.
Qed.

Lemma Cap_fst now b s :
  fst (CapBitrateToThresholds now b s) = cap_value s b.
Proof.
  unfold CapBitrateToThresholds, cap_value, ceiling.
  set (w := (_ =? -1) || _). clearbody w.
  destruct s; sbe_simpl.
  zcases; try destruct w; sbe_simpl; lia.
Qed.

(** Capping writes [last_low_bitrate_log_ms_] and the sink, nothing else. *)
Lemma Cap_snd_cases now b s :
  snd (CapBitrateToThresholds now b s) = s \/
  exists e, snd (CapBitrateToThresholds now b s) =
            set_last_low_bitrate_log_ms_ now (emit e s).
Proof.
  unfold CapBitrateToThresholds.
  destruct (_ <? min_bitrate_configured_ s); [|now left].
  destruct (_ || _); sbe_simpl; [right; eauto | now left].
Qed.

Lemma Cap_same_thresholds now b s :
  same_thresholds s (snd (CapBitrateToThresholds now b s)).
Proof.
  destruct (Cap_snd_cases now b s) as [-> | [e ->]];
    destruct s; repeat split.
Qed.

Lemma cap_value_bounds s b :
  min_bitrate_configured_ s <= max_bitrate_configured_ s ->
  min_bitrate_configured_ s <= cap_value s b <= max_bitrate_configured_ s.
Proof. unfold cap_value. lia. Qed.

Lemma cap_value_mono s a b : a <= b -> cap_value s a <= cap_value s b.
Proof. unfold cap_value, ceiling. intros. zcases; lia. Qed.

Lemma cap_value_idem s b : cap_value s (cap_value s b) = cap_value s b.
Proof. unfold cap_value, ceiling. zcases; lia. Qed.

(** C7. Capping is idempotent on the bitrate: capping the value a first call
    returned, in the state that call left and at any later time, returns it
    unchanged; and the value is the one obtained by applying the REMB
    ceiling, the delay-based ceiling, the configured maximum and the
    configured minimum in this order. *)
Theorem CapBitrateToThresholds_idempotent :
  forall (now now' b : Z) (s : SendSideBandwidthEstimation),
    let r := CapBitrateToThresholds now b s in
    fst (CapBitrateToThresholds now' (fst r) (snd r)) = fst r /\
    fst r = Z.max (min_bitrate_configured_ s)
              (Z.min (ceiling (delay_based_bitrate_bps_ s)
                        (ceiling (bwe_incoming_ s) b))
                     (max_bitrate_configured_ s)).
Proof.
  intros now now' b s r. subst r.
  rewrite !Cap_fst.
  rewrite (cap_value_same_thresholds s _ _ (Cap_same_thresholds now b s)).
  split; [apply cap_value_idem | reflexivity].
Qed.

(** Scenario "cap ordering" of the specification. *)
Example cap_ordering_scenario :
  let s := set_min_bitrate_configured_ 100000
             (set_max_bitrate_configured_ 800000
                (set_delay_based_bitrate_bps_ 400000
                   (set_bwe_incoming_ 600000 default_state))) in
  fst (CapBitrateToThresholds 0 900000 s) = 400000.
Proof. reflexivity. Qed.

(** ** Configured bounds *)

(** With a positive [max_bitrate] the bounds are ordered. *)
Lemma SetMinMaxBitrate_ordered_pos ft mn mx s :
  0 < mx ->
  min_bitrate_configured_ (SetMinMaxBitrate ft mn mx s) <=
  max_bitrate_configured_ (SetMinMaxBitrate ft mn mx s).
Proof.
  intros H. unfold SetMinMaxBitrate.
  destruct (Z.gtb_spec mx 0); [|lia]. destruct s; sbe_simpl. lia.
Qed.

(** C3. [SetMinMaxBitrate 2000000000 0]: the branch [max_bitrate <= 0]
    stores the default maximum without comparing it with the minimum just
    stored, and leaves [min_bitrate_configured_] above
    [max_bitrate_configured_]. *)
Theorem SetMinMaxBitrate_default_max_below_min :
  let s := SetMinMaxBitrate default_trials 2000000000 0 default_state in
  min_bitrate_configured_ s = 2000000000 /\
  max_bitrate_configured_ s = 1000000000 /\
  ~ min_bitrate_configured_ s <= max_bitrate_configured_ s.
Proof.
  cbv zeta. split; [reflexivity | split; [reflexivity |]].
  intros H. vm_compute in H. now apply H.
Qed.


(** ** Receiver blocks and metrics *)

(** Case analysis on every remaining conditional of the goal. *)
Ltac split_ifs :=
  repeat match goal with
  | |- context [if ?c then _ else _] => destruct c
  | |- context [match ?c with kNoUpdate => _ | kFirstDone => _ | kDone => _ end] =>
      destruct c
  end.

(** The invocations of [UpdateUmaStats] recorded in a sink, oldest first. *)
Definition uma_calls (l : list Event) : list (Z * Z * Z) :=
  flat_map (fun e => match e with
                     | EnterUpdateUmaStats now rtt lost => [(now, rtt, lost)]
                     | _ => []
                     end) l.

Definition is_metric_event (e : Event) : bool :=
  match e with
  | Histogram _ _ | EnterUpdateUmaStats _ _ _ => true
  | _ => false
  end.

Lemma uma_calls_app l l' : uma_calls (l ++ l') = uma_calls l ++ uma_calls l'.
Proof. apply flat_map_app. Qed.

(** The state with the fields that [UpdateUmaStats] owns blanked. *)
Definition without_metrics (s : SendSideBandwidthEstimation) :=
  set_initially_lost_packets_ 0
    (set_bitrate_at_2_seconds_kbps_ 0
       (set_uma_update_state_ kNoUpdate
          (set_rampup_uma_stats_updated_ [] (set_sink_ [] s)))).

Lemma RampupStep_frame now kbps s im :
  without_metrics (RampupStep now kbps s im) = without_metrics s /\
  exists evs, sink_ (RampupStep now kbps s im) = sink_ s ++ evs /\
              forallb is_metric_event evs = true /\ uma_calls evs = [].
Proof.
  unfold RampupStep. destruct im as [i [name k]].
  destruct (_ && _).
  - destruct s; split; [reflexivity | eexists; repeat split].
  - split; [reflexivity | exists []; rewrite app_nil_r; repeat split].
Qed.

Lemma RampupLoop_frame now kbps l s :
  without_metrics (fold_left (RampupStep now kbps) l s) = without_metrics s /\
  exists evs, sink_ (fold_left (RampupStep now kbps) l s) = sink_ s ++ evs /\
              forallb is_metric_event evs = true /\ uma_calls evs = [].
Proof.
  revert s. induction l as [|im l IH]; intros s; cbn [fold_left].
  - split; [reflexivity | exists []; rewrite app_nil_r; repeat split].
  - destruct (IH (RampupStep now kbps s im)) as (F & evs & Hs & Hm & Hc).
    destruct (RampupStep_frame now kbps s im) as (F' & evs' & Hs' & Hm' & Hc').
    split; [congruence |].
    exists (evs' ++ evs). rewrite Hs, Hs', app_assoc, forallb_app, uma_calls_app.
    rewrite Hm, Hm', Hc, Hc'. repeat split.
Qed.

(** [UpdateUmaStats] writes the metrics fields only, records its invocation
    and emits histogram samples only. *)
Lemma UpdateUmaStats_frame now rtt lost s :
  without_metrics (UpdateUmaStats now rtt lost s) = without_metrics s /\
  exists evs,
    sink_ (UpdateUmaStats now rtt lost s) =
      sink_ s ++ EnterUpdateUmaStats now rtt lost :: evs /\
    forallb is_metric_event evs = true /\ uma_calls evs = [].
Proof.
  unfold UpdateUmaStats.
  set (s0 := emit (EnterUpdateUmaStats now rtt lost) s).
  set (kbps := to_int _).
  destruct (RampupLoop_frame now kbps
              (combine (seq 0 kNumUmaRampupMetrics) kUmaRampupMetrics) s0)
    as (F & evs & Hs & Hm & Hc).
  set (s1 := fold_left _ _ s0) in *. clearbody s1.
  assert (F0 : without_metrics s0 = without_metrics s) by (destruct s; reflexivity).
  assert (H0 : sink_ s0 = sink_ s ++ [EnterUpdateUmaStats now rtt lost])
    by (destruct s; reflexivity).
  rewrite F0 in F. rewrite H0, <- app_assoc in Hs. cbn [app] in Hs.
  clearbody kbps. clear F0 H0 s0.
  destruct (IsInStartPhase now s1); [| destruct (uma_update_state_ s1) eqn:U;
    [| destruct (_ >=? _) |]].
  - split; [rewrite <- F; destruct s1; reflexivity |].
    exists evs. split; [| now split]. rewrite <- Hs. destruct s1; reflexivity.
  - split; [rewrite <- F; destruct s1; reflexivity |].
    exists (evs ++ [Histogram "WebRTC.BWE.InitiallyLostPackets"
                               (initially_lost_packets_ s1);
                    Histogram "WebRTC.BWE.InitialRtt" (to_int rtt);
                    Histogram "WebRTC.BWE.InitialBandwidthEstimate" kbps]).
    split; [rewrite app_comm_cons, app_assoc, <- Hs; destruct s1; sbe_simpl;
            rewrite <- ?app_assoc; reflexivity |].
    rewrite forallb_app, uma_calls_app, Hm, Hc. split; reflexivity.
  - split; [rewrite <- F; destruct s1; reflexivity |].
    exists (evs ++ [Histogram "WebRTC.BWE.InitialVsConvergedDiff"
                      (Z.max (bitrate_at_2_seconds_kbps_ s1 - kbps) 0)]).
    split; [rewrite app_comm_cons, app_assoc, <- Hs; destruct s1; sbe_simpl;
            rewrite <- ?app_assoc; reflexivity |].
    rewrite forallb_app, uma_calls_app, Hm, Hc. split; reflexivity.
  - split; [exact F |]. exists evs. now repeat split.
  - split; [exact F |]. exists evs. now repeat split.
Qed.

Lemma UpdateUmaStats_calls now rtt lost s :
  uma_calls (sink_ (UpdateUmaStats now rtt lost s)) =
  uma_calls (sink_ s) ++ [(now, rtt, lost)].
Proof.
  destruct (UpdateUmaStats_frame now rtt lost s) as (_ & evs & -> & _ & E).
  rewrite uma_calls_app.
  replace (uma_calls (EnterUpdateUmaStats now rtt lost :: evs))
    with ((now, rtt, lost) :: uma_calls evs) by reflexivity.
  now rewrite E.
Qed.

(** What [UpdateReceiverBlock] does before it looks at the packet count
    (lines 208-213). *)
Definition ReceiverBlockHeader (rtt now_ms : Z) (s : SendSideBandwidthEstimation) :=
  let s := set_last_feedback_ms_ now_ms s in
  let s := if first_report_time_ms_ s =? -1
           then set_first_report_time_ms_ now_ms s else s in
  set_last_round_trip_time_ms_ rtt s.

Lemma UpdateReceiverBlock_no_packets fl rtt n now s :
  n <= 0 ->
  UpdateReceiverBlock fl rtt n now s =
  UpdateUmaStats now rtt (Z.shiftr (to_int (fl * n)) 8)
    (ReceiverBlockHeader rtt now s).
Proof.
  intros H. unfold UpdateReceiverBlock, ReceiverBlockHeader.
  destruct (Z.gtb_spec n 0); [lia | reflexivity].
Qed.

(** The header writes three fields. *)
Lemma ReceiverBlockHeader_eq rtt now s :
  ReceiverBlockHeader rtt now s =
  set_last_feedback_ms_ now
    (set_last_round_trip_time_ms_ rtt
       (set_first_report_time_ms_
          (if first_report_time_ms_ s =? -1 then now else first_report_time_ms_ s)
          s)).
Proof.
  unfold ReceiverBlockHeader. destruct s; sbe_simpl.
  destruct (_ =? -1); reflexivity.
Qed.

(** C10. A receiver block with [number_of_packets <= 0] leaves the bitrate,
    the loss fraction, the decrease latch, the time of the last packet
    report and both loss accumulators as they were.  Apart from the metrics
    state, the whole effect is that of writing [last_feedback_ms_],
    [last_round_trip_time_ms_] and, only when it was -1,
    [first_report_time_ms_]; the sink receives metrics events only. *)
Theorem UpdateReceiverBlock_no_packets_frame :
  forall (fraction_loss rtt number_of_packets now_ms : Z)
         (s : SendSideBandwidthEstimation),
    number_of_packets <= 0 ->
    let s' := UpdateReceiverBlock fraction_loss rtt number_of_packets now_ms s in
    (bitrate_ s' = bitrate_ s /\
     last_fraction_loss_ s' = last_fraction_loss_ s /\
     has_decreased_since_last_fraction_loss_ s' =
       has_decreased_since_last_fraction_loss_ s /\
     last_packet_report_ms_ s' = last_packet_report_ms_ s /\
     lost_packets_since_last_loss_update_Q8_ s' =
       lost_packets_since_last_loss_update_Q8_ s /\
     expected_packets_since_last_loss_update_ s' =
       expected_packets_since_last_loss_update_ s) /\
    without_metrics s' =
      without_metrics
        (set_last_feedback_ms_ now_ms
           (set_last_round_trip_time_ms_ rtt
              (set_first_report_time_ms_
                 (if first_report_time_ms_ s =? -1 then now_ms
                  else first_report_time_ms_ s) s))) /\
    exists evs, sink_ s' = sink_ s ++ evs /\ forallb is_metric_event evs = true.
Proof.
  intros fl rtt n now s Hn s'. subst s'.
  rewrite (UpdateReceiverBlock_no_packets _ _ _ _ _ Hn).
  destruct (UpdateUmaStats_frame now rtt (Z.shiftr (to_int (fl * n)) 8)
              (ReceiverBlockHeader rtt now s)) as (F & evs & Hs & Hm & _).
  rewrite ReceiverBlockHeader_eq in *.
  set (s' := UpdateUmaStats _ _ _ _) in *. clearbody s'.
  set (fr := if _ =? -1 then _ else _) in *. clearbody fr.
  split; [| split].
  - destruct s, s'. unfold without_metrics in F. cbn in F.
    injection F; intros; subst; repeat split; reflexivity.
  - exact F.
  - exists (EnterUpdateUmaStats now rtt (Z.shiftr (to_int (fl * n)) 8) :: evs).
    split; [rewrite Hs; destruct s; reflexivity | exact Hm].
Qed.

Lemma UpdateReceiverBlock_no_packets_frame_witness :
  let s' := UpdateReceiverBlock 7 40 0 100 default_state in
  0 <= 0 /\ bitrate_ s' = bitrate_ default_state /\
  last_fraction_loss_ s' = last_fraction_loss_ default_state.
Proof.
  pose proof (UpdateReceiverBlock_no_packets_frame 7 40 0 100 default_state
                ltac:(lia)) as ((Hb & Hl & _) & _).
  cbv zeta. rewrite Hb, Hl. repeat split. lia.
Defined.


(** ** What [UpdateEstimate] reads and what it writes *)

(** The state with the fields that [UpdateEstimate] writes blanked: what is
    left is what the control loop only reads. *)
Definition control_inputs (s : SendSideBandwidthEstimation) :=
  set_bitrate_ 0
    (set_min_bitrate_history_ []
       (set_last_low_bitrate_log_ms_ 0
          (set_sink_ []
             (set_last_logged_fraction_loss_ 0
                (set_last_rtc_event_log_ms_ 0
                   (set_has_decreased_since_last_fraction_loss_ false
                      (set_time_last_decrease_ms_ 0
                         (set_lost_packets_since_last_loss_update_Q8_ 0
                            (set_expected_packets_since_last_loss_update_ 0
                               (set_last_timeout_ms_ 0 s)))))))))).

(** Two states with the same inputs, and the same record of metrics calls. *)
Definition same_inputs (s s' : SendSideBandwidthEstimation) : Prop :=
  control_inputs s' = control_inputs s /\
  uma_calls (sink_ s') = uma_calls (sink_ s).

Lemma same_inputs_refl s : same_inputs s s.
Proof. split; reflexivity. Qed.

Lemma same_inputs_trans s1 s2 s3 :
  same_inputs s1 s2 -> same_inputs s2 s3 -> same_inputs s1 s3.
Proof. intros [A B] [C D]. split; congruence. Qed.

Lemma same_inputs_fields s s' :
  same_inputs s s' ->
  same_thresholds s s' /\
  last_fraction_loss_ s' = last_fraction_loss_ s /\
  last_packet_report_ms_ s' = last_packet_report_ms_ s /\
  last_feedback_ms_ s' = last_feedback_ms_ s /\
  first_report_time_ms_ s' = first_report_time_ms_ s /\
  last_round_trip_time_ms_ s' = last_round_trip_time_ms_ s /\
  low_loss_threshold_ s' = low_loss_threshold_ s /\
  high_loss_threshold_ s' = high_loss_threshold_ s /\
  bitrate_threshold_bps_ s' = bitrate_threshold_bps_ s /\
  in_timeout_experiment_ s' = in_timeout_experiment_ s.
Proof.
  intros [H _]. destruct s, s'. unfold control_inputs in H. cbn in H.
  injection H; intros; subst. unfold same_thresholds. repeat split; reflexivity.
Qed.

(** Closes [same_inputs s (f s)] when [f s] is built from field updates that
    the inputs do not see. *)
Ltac same_inputs_by_computation :=
  split; [ reflexivity | cbn; rewrite ?uma_calls_app, ?app_nil_r; reflexivity ].

Lemma Cap_same_inputs now b s :
  same_inputs s (snd (CapBitrateToThresholds now b s)).
Proof.
  unfold CapBitrateToThresholds.
  destruct (_ <? min_bitrate_configured_ s); [| apply same_inputs_refl].
  destruct (_ || _); cbn [snd]; [| apply same_inputs_refl].
  destruct s. same_inputs_by_computation.
Qed.

Lemma set_bitrate_same_inputs b s : same_inputs s (set_bitrate_ b s).
Proof. destruct s. same_inputs_by_computation. Qed.

Lemma Cap_then_store_same_inputs now b s :
  same_inputs s (let '(b', s') := CapBitrateToThresholds now b s in
                 set_bitrate_ b' s').
Proof.
  pose proof (Cap_same_inputs now b s) as H.
  destruct (CapBitrateToThresholds now b s) as [b' s']. cbn [snd] in H.
  eapply same_inputs_trans; [exact H | apply set_bitrate_same_inputs].
Qed.

Lemma StartupTrust_same_inputs now s : same_inputs s (StartupTrust now s).
Proof.
  unfold StartupTrust.
  set (s1 := if bwe_incoming_ s >? bitrate_ s then _ else s).
  assert (H1 : same_inputs s s1).
  { subst s1. destruct (_ >? _);
      [apply Cap_then_store_same_inputs | apply same_inputs_refl]. }
  clearbody s1.
  eapply same_inputs_trans; [exact H1 |].
  destruct (_ >? _); [apply Cap_then_store_same_inputs | apply same_inputs_refl].
Qed.

Lemma UpdateMinHistory_same_inputs now s : same_inputs s (UpdateMinHistory now s).
Proof. unfold UpdateMinHistory. destruct s. same_inputs_by_computation. Qed.

Lemma LossBasedControl_same_inputs now s : same_inputs s (LossBasedControl now s).
Proof.
  unfold LossBasedControl.
  split_ifs; try apply same_inputs_refl; destruct s; same_inputs_by_computation.
Qed.

Lemma CapAndLog_same_inputs now s : same_inputs s (CapAndLog now s).
Proof.
  unfold CapAndLog.
  pose proof (Cap_same_inputs now (bitrate_ s) s) as H.
  destruct (CapBitrateToThresholds now (bitrate_ s) s) as [b' s']. cbn [snd] in H.
  eapply same_inputs_trans; [exact H |].
  destruct (_ || _); destruct s'; same_inputs_by_computation.
Qed.

Lemma RegularUpdate_same_inputs now s : same_inputs s (RegularUpdate now s).
Proof.
  unfold RegularUpdate.
  eapply same_inputs_trans; [apply (UpdateMinHistory_same_inputs now) |].
  destruct (_ =? -1).
  - apply Cap_then_store_same_inputs.
  - eapply same_inputs_trans;
      [apply LossBasedControl_same_inputs | apply CapAndLog_same_inputs].
Qed.

Lemma UpdateEstimate_same_inputs now s : same_inputs s (UpdateEstimate now s).
Proof.
  unfold UpdateEstimate.
  destruct (_ && _); [| apply RegularUpdate_same_inputs].
  pose proof (StartupTrust_same_inputs now s) as H.
  eapply same_inputs_trans; [exact H |].
  destruct (negb _); [| apply RegularUpdate_same_inputs].
  destruct (StartupTrust now s). same_inputs_by_computation.
Qed.


Lemma to_int_id z : - 2 ^ 31 <= z <= INT_MAX -> to_int z = z.
Proof.
  unfold to_int, INT_MAX. intros H.
  rewrite Z.mod_small; lia.
Qed.

(** C2, as the code has it: a receiver block reaches [UpdateUmaStats] unless
    it takes the early return of line 225, that is unless the block carries
    packets and the accumulated expected count is still below
    [kLimitNumPackets].  On every other path [UpdateUmaStats] is invoked
    exactly once, last, with [(fraction_loss * number_of_packets) >> 8] lost
    packets; on the early return it is not invoked at all and the block only
    writes the header fields and the two accumulators.  The product and the
    accumulated count are those of the source's [int] arithmetic: they are
    the mathematical product and sum whenever these fit an [int], and wrap
    around otherwise. *)
Theorem UpdateReceiverBlock_uma_stats :
  forall (fraction_loss rtt number_of_packets now_ms : Z)
         (s : SendSideBandwidthEstimation),
    let s' := UpdateReceiverBlock fraction_loss rtt number_of_packets now_ms s in
    let lost_packets :=
      Z.shiftr (to_int (fraction_loss * number_of_packets)) 8 in
    let expected :=
      to_int (expected_packets_since_last_loss_update_ s + number_of_packets) in
    let early_return :=
      (number_of_packets >? 0) && (expected <? kLimitNumPackets) in
    uma_calls (sink_ s') =
      uma_calls (sink_ s) ++
      (if early_return then [] else [(now_ms, rtt, lost_packets)]) /\
    (if early_return then
       s' = set_expected_packets_since_last_loss_update_ expected
              (set_lost_packets_since_last_loss_update_Q8_
                 (to_int (lost_packets_since_last_loss_update_Q8_ s +
                          to_int (fraction_loss * number_of_packets)))
                 (ReceiverBlockHeader rtt now_ms s))
     else
       exists s1, s' = UpdateUmaStats now_ms rtt lost_packets s1) /\
    (- 2 ^ 31 <= fraction_loss * number_of_packets <= INT_MAX ->
     lost_packets = Z.shiftr (fraction_loss * number_of_packets) 8) /\
    (- 2 ^ 31 <= expected_packets_since_last_loss_update_ s + number_of_packets
       <= INT_MAX ->
     expected = expected_packets_since_last_loss_update_ s + number_of_packets).
Proof.
  intros fl rtt n now s s' lost expected early. subst s' early lost expected.
  split; [| split; [| split; intros H; now rewrite to_int_id]];
    unfold UpdateReceiverBlock; fold (ReceiverBlockHeader rtt now s);
    assert (Hh : uma_calls (sink_ (ReceiverBlockHeader rtt now s)) =
                 uma_calls (sink_ s))
      by (rewrite ReceiverBlockHeader_eq; destruct s; reflexivity);
    assert (He : expected_packets_since_last_loss_update_
                   (ReceiverBlockHeader rtt now s) =
                 expected_packets_since_last_loss_update_ s)
      by (rewrite ReceiverBlockHeader_eq; destruct s; reflexivity);
    assert (Hl : lost_packets_since_last_loss_update_Q8_
                   (ReceiverBlockHeader rtt now s) =
                 lost_packets_since_last_loss_update_Q8_ s)
      by (rewrite ReceiverBlockHeader_eq; destruct s; reflexivity);
    set (h := ReceiverBlockHeader rtt now s) in *; clearbody h;
    (destruct (n >? 0); cbn [andb];
     [ replace (expected_packets_since_last_loss_update_
                  (set_expected_packets_since_last_loss_update_ _ _))
         with (to_int (expected_packets_since_last_loss_update_ s + n))
         by (rewrite <- He; destruct h; reflexivity);
       destruct (_ <? kLimitNumPackets) | ]).
  - rewrite app_nil_r, <- Hh. destruct h; reflexivity.
  - rewrite UpdateUmaStats_calls. f_equal.
    match goal with
    | |- context [UpdateEstimate now ?x] =>
        destruct (UpdateEstimate_same_inputs now x) as [_ ->]
    end.
    rewrite <- Hh. destruct h; reflexivity.
  - rewrite UpdateUmaStats_calls. now rewrite Hh.
  - rewrite <- He, <- Hl. destruct h; reflexivity.
  - eexists; reflexivity.
  - eexists; reflexivity.
Qed.

(** C2, counterexample to the claim as worded: the first receiver block of a
    session, with 10 packets and loss 255/256, accumulates 10 < 20 expected
    packets and returns at line 225; [UpdateUmaStats] is not invoked (it
    would have added (255 * 10) >> 8 = 9 to [initially_lost_packets_]). *)
Lemma UpdateReceiverBlock_early_return_skips_uma_stats :
  let s' := UpdateReceiverBlock 255 100 10 0 default_state in
  uma_calls (sink_ s') = [] /\
  initially_lost_packets_ s' = 0 /\
  Z.shiftr (255 * 10) 8 = 9 /\
  initially_lost_packets_ (UpdateUmaStats 0 100 9 default_state) = 9.
Proof. vm_compute. repeat split. Qed.


(** ** The estimate and the configured bounds *)

(** The calls that end by storing a capped bitrate. *)
Definition is_capping_call (c : Call) : bool :=
  match c with
  | CallUpdateEstimate _
  | CallUpdateReceiverEstimate _ _
  | CallUpdateDelayBasedEstimate _ _ => true
  | _ => false
  end.

(** [s'] holds a bitrate that capping in [s] returned. *)
Definition holds_capped (s s' : SendSideBandwidthEstimation) : Prop :=
  exists b, bitrate_ s' = cap_value s b.

Lemma holds_capped_same_thresholds s1 s2 s' :
  same_thresholds s1 s2 -> holds_capped s2 s' -> holds_capped s1 s'.
Proof.
  intros T [b H]. exists b. now rewrite <- (cap_value_same_thresholds s1 s2).
Qed.

Lemma Cap_then_store_bitrate now b s :
  bitrate_ (let '(b', s') := CapBitrateToThresholds now b s in
            set_bitrate_ b' s') = cap_value s b.
Proof.
  rewrite <- (Cap_fst now b s).
  destruct (CapBitrateToThresholds now b s) as [b' s']. now destruct s'.
Qed.

Lemma StartupTrust_bitrate now s :
  bitrate_ (StartupTrust now s) = bitrate_ s \/
  holds_capped s (StartupTrust now s).
Proof.
  unfold StartupTrust.
  set (s1 := if bwe_incoming_ s >? bitrate_ s then _ else s).
  assert (H1 : same_inputs s s1 /\
               (bitrate_ s1 = bitrate_ s \/ holds_capped s s1)).
  { subst s1. destruct (_ >? _).
    - split; [apply Cap_then_store_same_inputs |].
      right. eexists. apply Cap_then_store_bitrate.
    - split; [apply same_inputs_refl | now left]. }
  clearbody s1. destruct H1 as [I1 H1].
  destruct (_ >? _); [| exact H1].
  right. apply same_inputs_fields in I1. destruct I1 as [T _].
  apply (holds_capped_same_thresholds s s1); [exact T |].
  eexists. apply Cap_then_store_bitrate.
Qed.

Lemma CapAndLog_bitrate now s :
  bitrate_ (CapAndLog now s) = cap_value s (bitrate_ s).
Proof.
  unfold CapAndLog. rewrite <- (Cap_fst now (bitrate_ s) s).
  destruct (CapBitrateToThresholds now (bitrate_ s) s) as [b' s'].
  destruct (_ || _); now destruct s'.
Qed.

Lemma RegularUpdate_capped now s : holds_capped s (RegularUpdate now s).
Proof.
  unfold RegularUpdate.
  pose proof (UpdateMinHistory_same_inputs now s) as I.
  set (s1 := UpdateMinHistory now s) in *. clearbody s1.
  apply same_inputs_fields in I. destruct I as [T _].
  apply (holds_capped_same_thresholds s s1 _ T).
  destruct (_ =? -1).
  - eexists. apply Cap_then_store_bitrate.
  - pose proof (LossBasedControl_same_inputs now s1) as I.
    apply same_inputs_fields in I. destruct I as [T' _].
    apply (holds_capped_same_thresholds s1 _ _ T').
    eexists. apply CapAndLog_bitrate.
Qed.

Lemma UpdateEstimate_capped now s : holds_capped s (UpdateEstimate now s).
Proof.
  unfold UpdateEstimate.
  destruct (_ && _); [| apply RegularUpdate_capped].
  pose proof (StartupTrust_same_inputs now s) as I.
  apply same_inputs_fields in I. destruct I as [T _].
  destruct (StartupTrust_bitrate now s) as [E | C].
  - rewrite E, Z.eqb_refl. cbn [negb].
    apply (holds_capped_same_thresholds s _ _ T), RegularUpdate_capped.
  - destruct (negb _).
    + destruct C as [b C]. exists b. rewrite <- C.
      now destruct (StartupTrust now s).
    + apply (holds_capped_same_thresholds s _ _ T), RegularUpdate_capped.
Qed.

(** After a capping call the stored bitrate is a capped value, for the
    thresholds of the state the call leaves. *)
Lemma capping_call_capped ft c s :
  is_capping_call c = true -> holds_capped (step ft c s) (step ft c s).
Proof.
  destruct c; try discriminate; intros _; cbn [step].
  - unfold UpdateReceiverEstimate.
    set (s1 := set_bwe_incoming_ bandwidth s).
    pose proof (Cap_then_store_same_inputs now_ms (bitrate_ s1) s1) as I.
    apply same_inputs_fields in I. destruct I as [T _].
    eexists. rewrite (cap_value_same_thresholds _ _ _ T).
    apply Cap_then_store_bitrate.
  - unfold UpdateDelayBasedEstimate.
    set (s1 := set_delay_based_bitrate_bps_ bitrate_bps s).
    pose proof (Cap_then_store_same_inputs now_ms (bitrate_ s1) s1) as I.
    apply same_inputs_fields in I. destruct I as [T _].
    eexists. rewrite (cap_value_same_thresholds _ _ _ T).
    apply Cap_then_store_bitrate.
  - pose proof (UpdateEstimate_same_inputs now_ms s) as I.
    apply same_inputs_fields in I. destruct I as [T _].
    destruct (UpdateEstimate_capped now_ms s) as [b H].
    exists b. now rewrite (cap_value_same_thresholds _ _ _ T).
Qed.

Lemma to_int_small z : 0 <= z <= INT_MAX -> to_int z = z.
Proof.
  unfold to_int, INT_MAX. intros H.
  rewrite Z.mod_small; lia.
Qed.

Lemma to_uint32_small z : 0 <= z < 2 ^ 32 -> to_uint32 z = z.
Proof. intros H. unfold to_uint32. now apply Z.mod_small. Qed.

(** C1, counterexample to the claim as worded: [SetSendBitrate] stores its
    argument uncapped and [CurrentEstimate] returns the stored value, so an
    estimate set above the configured maximum, or below the configured
    minimum, is returned as it is. *)
Lemma CurrentEstimate_outside_bounds_after_SetSendBitrate :
  let above := run default_trials
                 [CallSetMinMaxBitrate 10000 1000000; CallSetSendBitrate 2000000]
                 default_state in
  let below := run default_trials
                 [CallSetMinMaxBitrate 10000 1000000; CallSetSendBitrate 5000]
                 default_state in
  (CurrentEstimate above = (2000000, 0, 0) /\
   max_bitrate_configured_ above = 1000000 /\
   ~ fst (fst (CurrentEstimate above)) <= max_bitrate_configured_ above) /\
  (CurrentEstimate below = (5000, 0, 0) /\
   min_bitrate_configured_ below = 10000 /\
   ~ min_bitrate_configured_ below <= fst (fst (CurrentEstimate below))).
Proof.
  cbv zeta. repeat split; try reflexivity;
    intros H; vm_compute in H; now apply H.
Qed.

(** C1, as the code has it.  After any sequence of calls that ends with a
    capping call ([UpdateEstimate], [UpdateReceiverEstimate] or
    [UpdateDelayBasedEstimate]) the bitrate returned by [CurrentEstimate]
    lies between the configured minimum and maximum, provided these are
    ordered.  After [SetSendBitrate b] the returned bitrate is [b] itself,
    whatever the bounds. *)
Theorem CurrentEstimate_within_bounds_after_capping :
  forall (ft : FieldTrials) (cs : list Call) (c : Call)
         (s : SendSideBandwidthEstimation),
    let s' := run ft (cs ++ [c]) s in
    (is_capping_call c = true ->
     0 <= min_bitrate_configured_ s' <= max_bitrate_configured_ s' ->
     max_bitrate_configured_ s' <= INT_MAX ->
     min_bitrate_configured_ s' <= fst (fst (CurrentEstimate s'))
       <= max_bitrate_configured_ s') /\
    (forall b, c = CallSetSendBitrate b -> 0 < b <= INT_MAX ->
               fst (fst (CurrentEstimate s')) = b).
Proof.
  intros ft cs c s s'. subst s'. unfold run. rewrite fold_left_app.
  cbn [fold_left]. fold (run ft cs s). set (s0 := run ft cs s). clearbody s0.
  split.
  - intros Hc Hb Hm. destruct (capping_call_capped ft c s0 Hc) as [b E].
    pose proof (cap_value_bounds (step ft c s0) b ltac:(lia)) as B.
    unfold CurrentEstimate. cbn [fst]. rewrite to_int_small; lia.
  - intros b -> Hb. cbn [step]. unfold CurrentEstimate, SetSendBitrate.
    cbn [fst]. destruct s0. sbe_simpl.
    rewrite to_uint32_small, to_int_small; unfold INT_MAX in *; lia.
Qed.

Lemma CurrentEstimate_within_bounds_after_capping_witness :
  (let s' := run default_trials
               ([CallSetBitrates 2000000 10000 1000000] ++ [CallUpdateEstimate 0])
               default_state in
   10000 <= fst (fst (CurrentEstimate s')) <= 1000000) /\
  (let s' := run default_trials
               ([CallSetMinMaxBitrate 10000 1000000] ++ [CallSetSendBitrate 2000000])
               default_state in
   fst (fst (CurrentEstimate s')) = 2000000).
Proof.
  split.
  - exact (proj1 (CurrentEstimate_within_bounds_after_capping default_trials
                    [CallSetBitrates 2000000 10000 1000000] (CallUpdateEstimate 0)
                    default_state)
             eq_refl
             ltac:(vm_compute; split; discriminate)
             ltac:(vm_compute; discriminate)).
  - exact (proj2 (CurrentEstimate_within_bounds_after_capping default_trials
                    [CallSetMinMaxBitrate 10000 1000000]
                    (CallSetSendBitrate 2000000) default_state)
             2000000 eq_refl
             ltac:(vm_compute; split; [reflexivity | discriminate])).
Defined.


(** ** Start-up trust *)

(** C8, counterexample to the claim as worded.  REMB says 800 kbps, the
    delay-based estimate 300 kbps, and the owner then sets 500 kbps.  On the
    next tick, still in the start phase and with no loss reported, the REMB
    value exceeds the bitrate and is adopted after capping, and capping
    applies the delay-based ceiling: the bitrate drops from 500 to 300
    kbps. *)
Lemma UpdateEstimate_startup_lowers_bitrate :
  let s := run default_trials
             [CallUpdateReceiverEstimate 0 800000;
              CallUpdateDelayBasedEstimate 0 300000;
              CallSetSendBitrate 500000] default_state in
  last_fraction_loss_ s = 0 /\ IsInStartPhase 0 s = true /\
  bitrate_ s = 500000 /\
  bitrate_ (StartupTrust 0 s) = 300000 /\
  bitrate_ (UpdateEstimate 0 s) = 300000.
Proof. vm_compute. repeat split. Qed.

(** A tick in the start phase that adopts no hint runs the regular update,
    whose increase rule starts from the front of the history: with an old
    entry there it lowers a bitrate that capping had left alone. *)
Example UpdateEstimate_start_phase_regular_update_lowers :
  let s := run default_trials
             [CallSetBitrates 100000 10000 2000000;
              CallUpdateReceiverBlock 0 50 30 0;
              CallSetMinMaxBitrate 500000 2000000;
              CallUpdateReceiverEstimate 5 0;
              CallSetMinMaxBitrate 10000 2000000] default_state in
  last_fraction_loss_ s = 0 /\ IsInStartPhase 10 s = true /\
  bitrate_ s = 500000 /\
  fst (CapBitrateToThresholds 10 (bitrate_ s) s) = bitrate_ s /\
  bitrate_ (StartupTrust 10 s) = bitrate_ s /\
  bitrate_ (UpdateEstimate 10 s) = 109000.
Proof. vm_compute. repeat split. Qed.

(** C8, as the code has it.  In the start phase with no loss reported, when
    the bitrate before the tick is one that capping leaves unchanged, the
    adoption of the external estimates never lowers it; and when the
    adoption changes the bitrate, the tick ends there, with a strictly
    higher bitrate. *)
Theorem StartupTrust_monotone :
  forall (now_ms : Z) (s : SendSideBandwidthEstimation),
    last_fraction_loss_ s = 0 ->
    IsInStartPhase now_ms s = true ->
    fst (CapBitrateToThresholds now_ms (bitrate_ s) s) = bitrate_ s ->
    bitrate_ s <= bitrate_ (StartupTrust now_ms s) /\
    (bitrate_ (StartupTrust now_ms s) <> bitrate_ s ->
     bitrate_ (UpdateEstimate now_ms s) = bitrate_ (StartupTrust now_ms s) /\
     bitrate_ s < bitrate_ (UpdateEstimate now_ms s)).
Proof.
  intros now s Hl Hp Hfix. rewrite Cap_fst in Hfix.
  assert (Hmono : bitrate_ s <= bitrate_ (StartupTrust now s)).
  { unfold StartupTrust.
    set (s1 := if bwe_incoming_ s >? bitrate_ s then _ else s).
    assert (H1 : same_inputs s s1 /\ bitrate_ s <= bitrate_ s1 /\
                 cap_value s (bitrate_ s1) = bitrate_ s1).
    { subst s1. destruct (Z.gtb_spec (bwe_incoming_ s) (bitrate_ s)).
      - split; [apply Cap_then_store_same_inputs |].
        rewrite Cap_then_store_bitrate. split; [| apply cap_value_idem].
        rewrite <- Hfix at 1. apply cap_value_mono. lia.
      - split; [apply same_inputs_refl |]. split; [lia | exact Hfix]. }
    clearbody s1. destruct H1 as (I1 & M1 & F1).
    apply same_inputs_fields in I1. destruct I1 as [T _].
    destruct (Z.gtb_spec (delay_based_bitrate_bps_ s1) (bitrate_ s1)); [| exact M1].
    rewrite Cap_then_store_bitrate, (cap_value_same_thresholds _ _ _ T).
    rewrite <- F1 in M1 at 1. etransitivity; [exact M1 |].
    rewrite F1. rewrite <- F1 at 1. apply cap_value_mono. lia. }
  split; [exact Hmono |].
  intros Hne. unfold UpdateEstimate. rewrite Hl, Hp. cbn [Z.eqb andb].
  destruct (Z.eqb_spec (bitrate_ (StartupTrust now s)) (bitrate_ s)); [easy |].
  cbn [negb]. destruct (StartupTrust now s). sbe_simpl. sbe_simpl_all.
  split; [reflexivity | lia].
Qed.

Lemma StartupTrust_monotone_witness :
  let s := run default_trials
             [CallSetBitrates 100000 10000 2000000;
              CallUpdateDelayBasedEstimate 0 500000] default_state in
  bitrate_ s <= bitrate_ (StartupTrust 0 s) /\
  bitrate_ (UpdateEstimate 0 s) = 500000.
Proof.
  cbv zeta.
  destruct (StartupTrust_monotone 0
              (run default_trials
                 [CallSetBitrates 100000 10000 2000000;
                  CallUpdateDelayBasedEstimate 0 500000] default_state)
              eq_refl eq_refl eq_refl) as [H1 H2].
  split; [exact H1 |].
  destruct (H2 ltac:(vm_compute; discriminate)) as [-> _]. reflexivity.
Defined.


(** ** The sliding-window minimum *)

(** Orders on history entries [(time, bitrate)]. *)
Definition bitrate_lt (a b : Z * Z) : Prop := snd a < snd b.
Definition time_le (a b : Z * Z) : Prop := fst a <= fst b.
Definition time_lt (a b : Z * Z) : Prop := fst a < fst b.

Section Deque.
Variable p : Z * Z -> bool.

Lemma pop_front_while_spec d :
  exists pre, d = pre ++ pop_front_while p d /\
              Forall (fun x => p x = true) pre /\
              (pop_front_while p d = [] \/
               exists y r, pop_front_while p d = y :: r /\ p y = false).
Proof.
  induction d as [|x d IH]; cbn [pop_front_while].
  - exists []. repeat split; [constructor | now left].
  - destruct (p x) eqn:E.
    + destruct IH as (pre & H1 & H2 & H3).
      exists (x :: pre). cbn [app]. rewrite <- H1.
      repeat split; [now constructor | exact H3].
    + exists []. repeat split; [constructor | right; eauto].
Qed.

Lemma pop_back_while_snoc d x :
  pop_back_while p (d ++ [x]) =
  if p x then pop_back_while p d else d ++ [x].
Proof.
  unfold pop_back_while. rewrite rev_app_distr. cbn [rev app pop_front_while].
  destruct (p x); [reflexivity |].
  cbn [rev]. now rewrite rev_involutive.
Qed.

Lemma pop_back_while_spec d :
  exists suf, d = pop_back_while p d ++ suf /\
              Forall (fun x => p x = true) suf /\
              (pop_back_while p d = [] \/
               exists r y, pop_back_while p d = r ++ [y] /\ p y = false).
Proof.
  induction d as [|x d IH] using rev_ind.
  - exists []. repeat split; [constructor | now left].
  - rewrite pop_back_while_snoc. destruct (p x) eqn:E.
    + destruct IH as (suf & H1 & H2 & H3).
      exists (suf ++ [x]). rewrite app_assoc, <- H1.
      repeat split; [| exact H3].
      apply Forall_app. split; [exact H2 | now repeat constructor].
    + exists []. rewrite app_nil_r.
      repeat split; [constructor | right; eauto].
Qed.
End Deque.

Section SortedLists.
Context {A : Type} (R : A -> A -> Prop).

Lemma StronglySorted_app_inv l1 l2 :
  StronglySorted R (l1 ++ l2) ->
  StronglySorted R l1 /\ StronglySorted R l2 /\
  Forall (fun x => Forall (R x) l2) l1.
Proof.
  induction l1 as [|a l1 IH]; cbn [app]; intros H.
  - repeat split; [constructor | exact H | constructor].
  - apply StronglySorted_inv in H. destruct H as [H F].
    apply IH in H. destruct H as (H1 & H2 & H3).
    apply Forall_app in F. destruct F as [F1 F2].
    repeat split; [now constructor | exact H2 | now constructor].
Qed.

Lemma StronglySorted_snoc l x :
  StronglySorted R l -> Forall (fun y => R y x) l ->
  StronglySorted R (l ++ [x]).
Proof.
  induction l as [|a l IH]; cbn [app]; intros H F.
  - repeat constructor.
  - apply StronglySorted_inv in H. destruct H as [H Fa].
    apply Forall_cons_iff in F. destruct F as [Ra F].
    constructor; [now apply IH |].
    apply Forall_app. split; [exact Fa | now repeat constructor].
Qed.

End SortedLists.

Section SortedDeque.
Variable R : Z * Z -> Z * Z -> Prop.

Lemma pop_front_while_sorted p d :
  StronglySorted R d -> StronglySorted R (pop_front_while p d).
Proof.
  intros H. destruct (pop_front_while_spec p d) as (pre & E & _).
  rewrite E in H. now apply StronglySorted_app_inv in H.
Qed.

Lemma pop_back_while_sorted p d :
  StronglySorted R d -> StronglySorted R (pop_back_while p d).
Proof.
  intros H. destruct (pop_back_while_spec p d) as (suf & E & _).
  rewrite E in H. now apply StronglySorted_app_inv in H.
Qed.
End SortedDeque.

Lemma pop_front_while_incl p d x : In x (pop_front_while p d) -> In x d.
Proof.
  destruct (pop_front_while_spec p d) as (pre & E & _).
  intros H. rewrite E. apply in_or_app. now right.
Qed.

Lemma pop_back_while_incl p d x : In x (pop_back_while p d) -> In x d.
Proof.
  destruct (pop_back_while_spec p d) as (suf & E & _).
  intros H. rewrite E. apply in_or_app. now left.
Qed.

(** What is left after the pops lies below the bitrate to be pushed. *)
Lemma pop_back_while_below b d :
  StronglySorted bitrate_lt d ->
  Forall (fun y => bitrate_lt y (0, b))
         (pop_back_while (fun x => b <=? snd x) d).
Proof.
  intros H. apply (pop_back_while_sorted _ (fun x => b <=? snd x)) in H.
  destruct (pop_back_while_spec (fun x => b <=? snd x) d)
    as (_ & _ & _ & [E | (r & y & E & Hy)]); rewrite E in *; [constructor |].
  apply StronglySorted_app_inv in H. destruct H as (_ & _ & F).
  apply Z.leb_gt in Hy.
  apply Forall_app. split; [| repeat constructor; exact Hy].
  eapply Forall_impl; [| exact F]. intros a Ha.
  apply Forall_inv in Ha. unfold bitrate_lt in *. cbn [snd]. lia.
Qed.

(** The bitrates of the history stay strictly increasing, whatever the
    times. *)
Lemma min_history_push_bitrate_sorted now b d :
  StronglySorted bitrate_lt d ->
  StronglySorted bitrate_lt (min_history_push now b d).
Proof.
  intros H. unfold min_history_push.
  apply (pop_front_while_sorted _
           (fun x => now - fst x + 1 >? kBweIncreaseIntervalMs)) in H.
  apply StronglySorted_snoc.
  - now apply pop_back_while_sorted.
  - eapply Forall_impl; [| apply (pop_back_while_below b _ H)].
    intros a. unfold bitrate_lt. cbn [snd]. lia.
Qed.

(** The times stay nondecreasing when the entries are not younger than the
    time of the push. *)
Lemma min_history_push_time_sorted now b d :
  StronglySorted time_le d -> Forall (fun x => fst x <= now) d ->
  StronglySorted time_le (min_history_push now b d) /\
  Forall (fun x => fst x <= now) (min_history_push now b d).
Proof.
  intros H F. unfold min_history_push.
  set (d1 := pop_front_while _ d).
  set (d2 := pop_back_while _ d1).
  assert (F2 : Forall (fun x => fst x <= now) d2).
  { apply Forall_forall. intros x Hx.
    apply pop_back_while_incl, pop_front_while_incl in Hx.
    revert x Hx. now apply Forall_forall. }
  split.
  - apply StronglySorted_snoc; [| exact F2].
    now apply pop_back_while_sorted, pop_front_while_sorted.
  - apply Forall_app. split; [exact F2 | repeat constructor; cbn; lia].
Qed.


(** *** The history along a sequence of calls *)

Lemma Cap_then_store_history now b s :
  min_bitrate_history_ (let '(b', s') := CapBitrateToThresholds now b s in
                        set_bitrate_ b' s') = min_bitrate_history_ s.
Proof.
  pose proof (Cap_snd_cases now b s) as H.
  destruct (CapBitrateToThresholds now b s) as [b' s']. cbn [snd] in H.
  destruct H as [-> | [e ->]]; now destruct s.
Qed.

Lemma StartupTrust_history now s :
  min_bitrate_history_ (StartupTrust now s) = min_bitrate_history_ s.
Proof.
  unfold StartupTrust.
  set (s1 := if bwe_incoming_ s >? bitrate_ s then _ else s).
  assert (H1 : min_bitrate_history_ s1 = min_bitrate_history_ s).
  { subst s1. destruct (_ >? _); [apply Cap_then_store_history | reflexivity]. }
  clearbody s1. rewrite <- H1.
  destruct (_ >? _); [apply Cap_then_store_history | reflexivity].
Qed.

Lemma LossBasedControl_history now s :
  min_bitrate_history_ (LossBasedControl now s) = min_bitrate_history_ s.
Proof. unfold LossBasedControl. split_ifs; now destruct s. Qed.

Lemma CapAndLog_history now s :
  min_bitrate_history_ (CapAndLog now s) = min_bitrate_history_ s.
Proof.
  unfold CapAndLog.
  pose proof (Cap_snd_cases now (bitrate_ s) s) as H.
  destruct (CapBitrateToThresholds now (bitrate_ s) s) as [b' s']. cbn [snd] in H.
  destruct (_ || _); destruct H as [-> | [e ->]]; now destruct s.
Qed.

Lemma RegularUpdate_history now s :
  min_bitrate_history_ (RegularUpdate now s) =
  min_history_push now (bitrate_ s) (min_bitrate_history_ s).
Proof.
  unfold RegularUpdate.
  assert (H : min_bitrate_history_ (UpdateMinHistory now s) =
              min_history_push now (bitrate_ s) (min_bitrate_history_ s))
    by now destruct s.
  rewrite <- H. destruct (_ =? -1).
  - apply Cap_then_store_history.
  - now rewrite CapAndLog_history, LossBasedControl_history.
Qed.

(** A tick pushes the bitrate at its own time, onto the history it found or,
    after an adoption at start-up, onto an empty one. *)
Lemma UpdateEstimate_history now s :
  exists b d, (d = [] \/ d = min_bitrate_history_ s) /\
              min_bitrate_history_ (UpdateEstimate now s) =
              min_history_push now b d.
Proof.
  unfold UpdateEstimate.
  destruct (_ && _).
  - destruct (negb _).
    + exists (bitrate_ (StartupTrust now s)), []. split; [now left |].
      now destruct (StartupTrust now s).
    + exists (bitrate_ (StartupTrust now s)), (min_bitrate_history_ s).
      split; [now right |]. now rewrite RegularUpdate_history, StartupTrust_history.
  - exists (bitrate_ s), (min_bitrate_history_ s).
    split; [now right | apply RegularUpdate_history].
Qed.

Lemma UpdateUmaStats_history now rtt lost s :
  min_bitrate_history_ (UpdateUmaStats now rtt lost s) = min_bitrate_history_ s.
Proof.
  destruct (UpdateUmaStats_frame now rtt lost s) as [F _].
  apply (f_equal min_bitrate_history_) in F.
  set (s' := UpdateUmaStats now rtt lost s) in *. clearbody s'.
  now destruct s, s'.
Qed.

(** The time a call carries, if any. *)
Definition call_time (c : Call) : option Z :=
  match c with
  | CallUpdateReceiverEstimate now _
  | CallUpdateDelayBasedEstimate now _
  | CallUpdateReceiverBlock _ _ _ now
  | CallUpdateEstimate now => Some now
  | _ => None
  end.

(** The times of the calls of a sequence never decrease, and none is below
    [t]. *)
Fixpoint times_nondecreasing (t : Z) (cs : list Call) : Prop :=
  match cs with
  | [] => True
  | c :: cs' =>
      match call_time c with
      | Some now => t <= now /\ times_nondecreasing now cs'
      | None => times_nondecreasing t cs'
      end
  end.

(** What one call does to the history: nothing, a clear, or a push at the
    time of the call onto the history it found or onto an empty one. *)
Lemma step_history ft c s :
  min_bitrate_history_ (step ft c s) = min_bitrate_history_ s \/
  min_bitrate_history_ (step ft c s) = [] \/
  exists now b d, call_time c = Some now /\
                  (d = [] \/ d = min_bitrate_history_ s) /\
                  min_bitrate_history_ (step ft c s) = min_history_push now b d.
Proof.
  destruct c; cbn [step call_time].
  - unfold SetBitrates, SetMinMaxBitrate, SetSendBitrate.
    destruct (send_bitrate >? 0); destruct (max_bitrate >? 0); destruct s;
      (now left) || (now right; left).
  - right; left. unfold SetSendBitrate. now destruct s.
  - left. unfold SetMinMaxBitrate. destruct (max_bitrate >? 0); now destruct s.
  - left. unfold UpdateReceiverEstimate.
    rewrite Cap_then_store_history. now destruct s.
  - left. unfold UpdateDelayBasedEstimate.
    rewrite Cap_then_store_history. now destruct s.
  - unfold UpdateReceiverBlock. fold (ReceiverBlockHeader rtt now_ms s).
    assert (Hh : min_bitrate_history_ (ReceiverBlockHeader rtt now_ms s) =
                 min_bitrate_history_ s)
      by (rewrite ReceiverBlockHeader_eq; now destruct s).
    set (h := ReceiverBlockHeader rtt now_ms s) in *. clearbody h.
    destruct (number_of_packets >? 0).
    + destruct (_ <? kLimitNumPackets).
      * left. rewrite <- Hh. now destruct h.
      * right; right. rewrite UpdateUmaStats_history.
        match goal with
        | |- context [UpdateEstimate now_ms ?x] =>
            destruct (UpdateEstimate_history now_ms x) as (b & d & Hd & E);
            assert (Hx : min_bitrate_history_ x = min_bitrate_history_ s)
              by (rewrite <- Hh; now destruct h)
        end.
        exists now_ms, b, d. rewrite <- Hx. now repeat split.
    + left. now rewrite UpdateUmaStats_history.
  - right; right.
    destruct (UpdateEstimate_history now_ms s) as (b & d & Hd & E).
    exists now_ms, b, d. now repeat split.
Qed.

Lemma run_bitrate_sorted ft cs s :
  StronglySorted bitrate_lt (min_bitrate_history_ s) ->
  StronglySorted bitrate_lt (min_bitrate_history_ (run ft cs s)).
Proof.
  revert s. induction cs as [|c cs IH]; intros s H; [exact H |].
  cbn [run fold_left]. apply IH.
  destruct (step_history ft c s) as [-> | [-> | (now & b & d & _ & Hd & ->)]];
    [exact H | constructor |].
  apply min_history_push_bitrate_sorted.
  destruct Hd as [-> | ->]; [constructor | exact H].
Qed.

Lemma run_time_sorted ft cs : forall s t,
  times_nondecreasing t cs ->
  StronglySorted time_le (min_bitrate_history_ s) ->
  Forall (fun x => fst x <= t) (min_bitrate_history_ s) ->
  StronglySorted time_le (min_bitrate_history_ (run ft cs s)).
Proof.
  induction cs as [|c cs IH]; intros s t Ht H F; [exact H |].
  cbn [run fold_left]. cbn [times_nondecreasing] in Ht.
  destruct (step_history ft c s) as [E | [E | (now & b & d & Hc & Hd & E)]].
  - destruct (call_time c) as [now|].
    + destruct Ht as [Hle Ht]. apply (IH _ now Ht); rewrite E; [exact H |].
      eapply Forall_impl; [| exact F]. cbn beta. intros; lia.
    + apply (IH _ t Ht); rewrite E; assumption.
  - destruct (call_time c) as [now|].
    + destruct Ht as [Hle Ht]. apply (IH _ now Ht); rewrite E; constructor.
    + apply (IH _ t Ht); rewrite E; constructor.
  - rewrite Hc in Ht. destruct Ht as [Hle Ht].
    assert (Hd' : StronglySorted time_le d /\ Forall (fun x => fst x <= now) d).
    { destruct Hd as [-> | ->]; [split; constructor |].
      split; [exact H |]. eapply Forall_impl; [| exact F]. cbn beta. intros; lia. }
    destruct (min_history_push_time_sorted now b d) as [S' F']; try apply Hd'.
    apply (IH _ now Ht); rewrite E; assumption.
Qed.


(** *** The front of the history is the minimum over the window *)

(** The history obtained from [d] by a sequence of pushes [(time, bitrate)],
    oldest first. *)
Definition replay (pushes : list (Z * Z)) (d : list (Z * Z)) : list (Z * Z) :=
  fold_left (fun d x => min_history_push (fst x) (snd x) d) pushes d.

(** A push is in the window at [now] when it has not expired by the test of
    line 380. *)
Definition in_window (now : Z) (x : Z * Z) : Prop :=
  now - fst x + 1 <= kBweIncreaseIntervalMs.

(** Every push still in the window is dominated by an entry of the history
    that is not older. *)
Definition covers (now : Z) (pushes d : list (Z * Z)) : Prop :=
  forall x, In x pushes -> in_window now x ->
            exists e, In e d /\ snd e <= snd x /\ fst x <= fst e.

Lemma covers_later now now' pushes d :
  now <= now' -> covers now pushes d -> covers now' pushes d.
Proof.
  intros Hle C x Hx Hw. apply C; [exact Hx |]. unfold in_window in *. lia.
Qed.

Lemma min_history_push_covers now b pushes d :
  Forall (fun x => fst x <= now) pushes ->
  covers now pushes d ->
  covers now (pushes ++ [(now, b)]) (min_history_push now b d).
Proof.
  intros Ft C x Hx Hw. unfold min_history_push.
  set (expired := fun x : Z * Z => now - fst x + 1 >? kBweIncreaseIntervalMs).
  set (above := fun x : Z * Z => b <=? snd x).
  apply in_app_or in Hx. destruct Hx as [Hx | [<- | []]].
  2:{ exists (now, b). split; [apply in_or_app; right; now left | cbn; lia]. }
  destruct (C x Hx Hw) as (e & He & Hb & Hte).
  destruct (pop_front_while_spec expired d) as (pre & E1 & P1 & _).
  destruct (pop_back_while_spec above (pop_front_while expired d))
    as (suf & E2 & P2 & _).
  set (d1 := pop_front_while expired d) in *.
  set (d2 := pop_back_while above d1) in *.
  rewrite E1 in He. apply in_app_or in He. destruct He as [He | He].
  { (* an expired entry cannot dominate a push of the window *)
    exfalso. rewrite Forall_forall in P1. apply P1 in He.
    unfold expired, in_window in *. apply Z.gtb_lt in He. lia. }
  rewrite E2 in He. apply in_app_or in He. destruct He as [He | He].
  - exists e. split; [apply in_or_app; now left | split; assumption].
  - rewrite Forall_forall in P2. apply P2 in He.
    unfold above in He. apply Z.leb_le in He.
    exists (now, b). split; [apply in_or_app; right; now left |].
    rewrite Forall_forall in Ft. apply Ft in Hx. cbn [fst snd]. lia.
Qed.

(** After a push the history is not empty; its front is in the window and is
    the entry just pushed or an older entry. *)
Lemma min_history_push_front now b d :
  exists f r, min_history_push now b d = f :: r /\ in_window now f /\
              (In f d \/ f = (now, b)).
Proof.
  unfold min_history_push.
  set (expired := fun x : Z * Z => now - fst x + 1 >? kBweIncreaseIntervalMs).
  set (above := fun x : Z * Z => b <=? snd x).
  destruct (pop_front_while_spec expired d) as (pre & E1 & _ & H1).
  destruct (pop_back_while_spec above (pop_front_while expired d))
    as (suf & E2 & _ & _).
  set (d1 := pop_front_while expired d) in *.
  set (d2 := pop_back_while above d1) in *.
  destruct d2 as [|f r2] eqn:D2.
  - exists (now, b), []. repeat split; [| now right].
    unfold in_window, kBweIncreaseIntervalMs. cbn [fst]. lia.
  - exists f, (r2 ++ [(now, b)]). split; [reflexivity |].
    destruct H1 as [H1 | (y & r1 & H1 & Hy)]; rewrite H1 in E2; [discriminate |].
    injection E2 as <- _. split.
    + unfold expired in Hy. unfold in_window.
      rewrite Z.gtb_ltb in Hy. apply Z.ltb_ge in Hy. exact Hy.
    + left. rewrite E1, H1. apply in_or_app. right. now left.
Qed.

Lemma replay_snoc pushes x d :
  replay (pushes ++ [x]) d = min_history_push (fst x) (snd x) (replay pushes d).
Proof. unfold replay. now rewrite fold_left_app. Qed.

Lemma replay_bitrate_sorted pushes :
  StronglySorted bitrate_lt (replay pushes []).
Proof.
  induction pushes as [|x pushes IH] using rev_ind; [constructor |].
  rewrite replay_snoc. now apply min_history_push_bitrate_sorted.
Qed.

Lemma replay_entries pushes :
  Forall (fun e => In e pushes) (replay pushes []).
Proof.
  induction pushes as [|[t b] pushes IH] using rev_ind; [constructor |].
  rewrite replay_snoc. cbn [fst snd]. unfold min_history_push.
  apply Forall_app. split.
  - apply Forall_forall. intros e He.
    apply pop_back_while_incl, pop_front_while_incl in He.
    rewrite Forall_forall in IH. apply in_or_app. left. now apply IH.
  - repeat constructor. apply in_or_app. right. now left.
Qed.

Lemma sorted_times_snoc (pushes : list (Z * Z)) (x : Z * Z) :
  StronglySorted Z.le (map fst (pushes ++ [x])) ->
  StronglySorted Z.le (map fst pushes) /\
  Forall (fun y => fst y <= fst x) pushes.
Proof.
  rewrite map_app. intros H.
  apply StronglySorted_app_inv in H. destruct H as (H1 & _ & H3).
  split; [exact H1 |].
  rewrite Forall_map in H3. eapply Forall_impl; [| exact H3].
  intros a Ha. now apply Forall_inv in Ha.
Qed.

Lemma replay_covers (pushes : list (Z * Z)) :
  StronglySorted Z.le (map fst pushes) ->
  forall now, Forall (fun x => fst x <= now) pushes ->
              covers now pushes (replay pushes []).
Proof.
  induction pushes as [|[t b] pushes IH] using rev_ind; intros S now F.
  - intros x [].
  - apply sorted_times_snoc in S. destruct S as [S Ft]. cbn [fst] in Ft.
    apply Forall_app in F. destruct F as [_ F]. apply Forall_inv in F.
    cbn [fst] in F.
    apply (covers_later t now); [exact F |].
    rewrite replay_snoc. cbn [fst snd].
    apply min_history_push_covers; [exact Ft | now apply IH].
Qed.

(** The sliding-window minimum: after a sequence of pushes at nondecreasing
    times the front of the history is one of the pushes of the window of the
    last push, and no push of that window has a smaller bitrate. *)
Lemma replay_front_is_window_minimum pushes now b :
  StronglySorted Z.le (map fst (pushes ++ [(now, b)])) ->
  exists f r,
    replay (pushes ++ [(now, b)]) [] = f :: r /\
    In f (pushes ++ [(now, b)]) /\ in_window now f /\
    forall x, In x (pushes ++ [(now, b)]) -> in_window now x -> snd f <= snd x.
Proof.
  intros S.
  pose proof (replay_covers _ S now) as C.
  pose proof (replay_bitrate_sorted (pushes ++ [(now, b)])) as B.
  pose proof (replay_entries (pushes ++ [(now, b)])) as E.
  destruct (sorted_times_snoc _ _ S) as [_ Ft]. cbn [fst] in Ft.
  assert (F : Forall (fun x => fst x <= now) (pushes ++ [(now, b)])).
  { apply Forall_app. split; [exact Ft | repeat constructor; cbn; lia]. }
  specialize (C F).
  rewrite replay_snoc in *. cbn [fst snd] in *.
  destruct (min_history_push_front now b (replay pushes []))
    as (f & r & Ef & W & _).
  rewrite Ef in *.
  exists f, r. split; [reflexivity |].
  split; [now apply Forall_inv in E |]. split; [exact W |].
  intros x Hx Hw. destruct (C x Hx Hw) as (e & He & Hb & _).
  apply StronglySorted_inv in B. destruct B as [_ B].
  destruct He as [<- | He]; [exact Hb |].
  rewrite Forall_forall in B. apply B in He. unfold bitrate_lt in He. lia.
Qed.


(** C9, counterexample to the claim as worded: a receiver block and a tick
    that carry the same time leave two entries with equal timestamps, so the
    history is not strictly increasing in time. *)
Lemma min_bitrate_history_equal_timestamps :
  let s := run default_trials
             [CallSetBitrates 100000 10000 2000000;
              CallUpdateReceiverBlock 2 100 30 3000;
              CallUpdateEstimate 3000] default_state in
  min_bitrate_history_ s = [(3000, 100000); (3000, 109000)] /\
  ~ StronglySorted time_lt (min_bitrate_history_ s).
Proof.
  cbv zeta.
  assert (E : min_bitrate_history_
                (run default_trials
                   [CallSetBitrates 100000 10000 2000000;
                    CallUpdateReceiverBlock 2 100 30 3000;
                    CallUpdateEstimate 3000] default_state) =
              [(3000, 100000); (3000, 109000)]) by (vm_compute; reflexivity).
  rewrite E. split; [reflexivity |].
  intros H. apply StronglySorted_inv in H. destruct H as [_ H].
  apply Forall_inv in H. unfold time_lt in H. cbn [fst] in H. lia.
Qed.

(** ** Binary64 arithmetic of [SpecFloat] on positive numbers *)

Lemma digits2_pos_bounds (p : positive) :
  2 ^ (Zpos (digits2_pos p) - 1) <= Zpos p < 2 ^ Zpos (digits2_pos p).
Proof.
  induction p as [p IH | p IH |]; cbn [digits2_pos].
  - rewrite Pos2Z.inj_succ.
    revert IH. generalize (digits2_pos p). intros D IH.
    replace (Z.succ (Zpos D) - 1) with (Z.succ (Zpos D - 1)) by lia.
    rewrite !Z.pow_succ_r by lia. lia.
  - rewrite Pos2Z.inj_succ.
    revert IH. generalize (digits2_pos p). intros D IH.
    replace (Z.succ (Zpos D) - 1) with (Z.succ (Zpos D - 1)) by lia.
    rewrite !Z.pow_succ_r by lia. lia.
  - cbn. lia.
Qed.

(** [d] is the number of binary digits of [m]. *)
Definition has_digits (m d : Z) : Prop := 2 ^ (d - 1) <= m < 2 ^ d.

Lemma Zdigits2_has_digits (p : positive) : has_digits (Zpos p) (Zdigits2 (Zpos p)).
Proof. apply digits2_pos_bounds. Qed.

Lemma has_digits_unique m d d' :
  0 < d -> 0 < d' -> has_digits m d -> has_digits m d' -> d = d'.
Proof.
  unfold has_digits. intros Hd Hd' [A B] [A' B'].
  destruct (Z.lt_trichotomy d d') as [L | [E | L]]; [exfalso | exact E | exfalso].
  - assert (2 ^ d <= 2 ^ (d' - 1)) by (apply Z.pow_le_mono_r; lia). lia.
  - assert (2 ^ d' <= 2 ^ (d - 1)) by (apply Z.pow_le_mono_r; lia). lia.
Qed.

(** *** Shifting right with a rounding record *)

(** The record obtained from [M >= 0] after [k] shifts: the quotient, the
    last bit shifted out, and whether anything was shifted out before. *)
Definition shifted (M k : Z) (mrs : shr_record) : Prop :=
  shr_m mrs = M / 2 ^ k /\
  shr_r mrs = negb (2 * (M mod 2 ^ k) <? 2 ^ k) /\
  shr_s mrs = negb ((M mod 2 ^ k =? 0) || (2 * (M mod 2 ^ k) =? 2 ^ k)).

Lemma shifted_0 M : shifted M 0 (Build_shr_record M false false).
Proof.
  unfold shifted. cbn [shr_m shr_r shr_s]. change (2 ^ 0) with 1.
  rewrite Z.div_1_r, Z.mod_1_r. repeat split.
Qed.

Lemma shr_1_m mrs :
  0 <= shr_m mrs -> shr_m (shr_1 mrs) = shr_m mrs / 2.
Proof.
  destruct mrs as [m r s]. cbn [shr_m]. intros H.
  destruct m as [|[p|p|]|p]; cbn [shr_1 shr_m]; try lia; try reflexivity.
  - apply (Z.div_unique _ 2 _ 1); lia.
  - apply (Z.div_unique _ 2 _ 0); lia.
Qed.

Lemma shr_1_r mrs :
  0 <= shr_m mrs -> shr_r (shr_1 mrs) = Z.odd (shr_m mrs).
Proof.
  destruct mrs as [m r s]. cbn [shr_m]. intros H.
  destruct m as [|[p|p|]|p]; cbn [shr_1 shr_r]; try lia; reflexivity.
Qed.

Lemma shr_1_s mrs : shr_s (shr_1 mrs) = shr_r mrs || shr_s mrs.
Proof. destruct mrs as [m r s]. destruct m as [|[p|p|]|[p|p|]]; reflexivity. Qed.

Lemma shifted_step M k mrs :
  0 <= M -> 0 <= k -> shifted M k mrs -> shifted M (k + 1) (shr_1 mrs).
Proof.
  intros HM Hk (Hm & Hr & Hs).
  assert (P : 0 < 2 ^ k) by (apply Z.pow_pos_nonneg; lia).
  assert (E : 2 ^ (k + 1) = 2 * 2 ^ k) by (rewrite Z.pow_add_r by lia; change (2 ^ 1) with 2; lia).
  assert (N : 0 <= shr_m mrs) by (rewrite Hm; apply Z.div_pos; lia).
  pose proof (Z.div_mod M (2 ^ k) ltac:(lia)) as D.
  pose proof (Z.mod_pos_bound M (2 ^ k) P) as B.
  set (q := M / 2 ^ k) in *. set (r := M mod 2 ^ k) in *.
  pose proof (Z.div_mod q 2 ltac:(lia)) as D2.
  pose proof (Z.mod_pos_bound q 2 ltac:(lia)) as B2.
  assert (Q' : M / 2 ^ (k + 1) = q / 2).
  { rewrite E. symmetry. apply (Z.div_unique _ _ _ (r + 2 ^ k * (q mod 2))); nia. }
  assert (R' : M mod 2 ^ (k + 1) = r + 2 ^ k * (q mod 2)).
  { rewrite E. symmetry. apply (Z.mod_unique _ _ (q / 2)); nia. }
  unfold shifted. rewrite shr_1_m, shr_1_r, shr_1_s by exact N.
  rewrite Hm, Hr, Hs, Q', R', E. fold q r.
  rewrite Zodd_mod.
  assert (C : q mod 2 = 0 \/ q mod 2 = 1) by lia.
  repeat split.
  - destruct C as [C | C]; rewrite C.
    + destruct (Z.ltb_spec (2 * (r + 2 ^ k * 0)) (2 * 2 ^ k)); [reflexivity | lia].
    + destruct (Z.ltb_spec (2 * (r + 2 ^ k * 1)) (2 * 2 ^ k)); [lia | reflexivity].
  - destruct C as [C | C]; rewrite C.
    + replace (r + 2 ^ k * 0) with r by lia.
      destruct (Z.ltb_spec (2 * r) (2 ^ k)), (Z.eqb_spec r 0),
        (Z.eqb_spec (2 * r) (2 ^ k)), (Z.eqb_spec (2 * r) (2 * 2 ^ k));
        cbn; try reflexivity; lia.
    + replace (r + 2 ^ k * 1) with (r + 2 ^ k) by lia.
      destruct (Z.ltb_spec (2 * r) (2 ^ k)), (Z.eqb_spec r 0),
        (Z.eqb_spec (2 * r) (2 ^ k)), (Z.eqb_spec (r + 2 ^ k) 0),
        (Z.eqb_spec (2 * (r + 2 ^ k)) (2 * 2 ^ k));
        cbn; try reflexivity; lia.
Qed.

Lemma shifted_iter M (p : positive) : forall k mrs,
  0 <= M -> 0 <= k -> shifted M k mrs ->
  shifted M (k + Zpos p) (iter_pos shr_1 p mrs).
Proof.
  induction p as [p IH | p IH |]; intros k mrs HM Hk H; cbn [iter_pos].
  - replace (k + Zpos p~1) with (k + 1 + Zpos p + Zpos p) by lia.
    apply IH; [lia | lia |]. apply IH; [lia | lia |]. now apply shifted_step.
  - replace (k + Zpos p~0) with (k + Zpos p + Zpos p) by lia.
    apply IH; [lia | lia |]. now apply IH.
  - now apply shifted_step.
Qed.

(** Rounding to nearest-even after [k] shifts gives one of the two
    neighbours of [M / 2^k], and [M / 2^k] itself when nothing nonzero was
    shifted out. *)
Lemma round_shifted M k mrs :
  0 <= M -> 0 <= k -> shifted M k mrs ->
  let q := round_nearest_even (shr_m mrs) (loc_of_shr_record mrs) in
  (q = M / 2 ^ k \/ q = M / 2 ^ k + 1) /\
  (M mod 2 ^ k = 0 -> q = M / 2 ^ k).
Proof.
  intros HM Hk (Hm & Hr & Hs). destruct mrs as [m r s].
  cbn [shr_m shr_r shr_s] in *. subst m.
  assert (P : 0 < 2 ^ k) by (apply Z.pow_pos_nonneg; lia).
  cbv zeta. split.
  - destruct r, s; cbn [loc_of_shr_record round_nearest_even];
      try destruct (Z.even _); auto.
  - intros Z0. rewrite Z0 in Hr, Hs. cbn in Hs. subst s.
    destruct (Z.ltb_spec (2 * 0) (2 ^ k)); [| lia]. cbn in Hr. subst r.
    reflexivity.
Qed.


Lemma Zdigits2_eq m d : 0 < d -> has_digits m d -> Zdigits2 m = d.
Proof.
  intros Hd H. assert (0 < m).
  { destruct H as [H _]. pose proof (Z.pow_pos_nonneg 2 (d - 1)). lia. }
  destruct m as [|p|p]; try lia.
  apply (has_digits_unique (Zpos p)); [cbn; lia | exact Hd | | exact H].
  apply Zdigits2_has_digits.
Qed.

Lemma has_digits_div M d n :
  0 <= n < d -> has_digits M d -> has_digits (M / 2 ^ n) (d - n).
Proof.
  intros Hn [A B]. unfold has_digits.
  assert (P : 0 < 2 ^ n) by (apply Z.pow_pos_nonneg; lia).
  assert (E1 : 2 ^ (d - 1) = 2 ^ (d - n - 1) * 2 ^ n)
    by (rewrite <- Z.pow_add_r by lia; f_equal; lia).
  assert (E2 : 2 ^ d = 2 ^ (d - n) * 2 ^ n)
    by (rewrite <- Z.pow_add_r by lia; f_equal; lia).
  split.
  - apply Z.div_le_lower_bound; lia.
  - apply Z.div_lt_upper_bound; lia.
Qed.

(** *** [binary_round_aux] on a positive mantissa, binary64 *)

Lemma shr_fexp_64 (M ex : Z) :
  0 < M ->
  let d := Zdigits2 M in
  -1074 <= d + ex - 53 ->
  let n := Z.max 0 (d - 53) in
  exists mrs, shr_fexp 53 1024 M ex loc_Exact = (mrs, ex + n) /\ shifted M n mrs.
Proof.
  intros HM d Hlo n. unfold shr_fexp, fexp, emin. cbn [shr_record_of_loc].
  fold d. replace (Z.max (d + ex - 53) (3 - 1024 - 53) - ex) with (d - 53) by lia.
  subst n. destruct (d - 53) as [|p|p] eqn:E; cbn [shr Z.max Z.compare].
  - eexists. split; [f_equal; lia | apply shifted_0].
  - eexists. split; [reflexivity |].
    apply (shifted_iter M p 0); [lia | lia | apply shifted_0].
  - eexists. split; [f_equal; lia | apply shifted_0].
Qed.

(** The outcome of rounding the exact value [M * 2^ex] to binary64, away
    from the subnormal range.  [n] digits do not fit; the value of the
    result, in units of [2^ex], is [2^n] times one of the two neighbours of
    [M / 2^n]; beyond the largest exponent the result is an infinity. *)
Definition rounds_to (M ex : Z) (sx : bool) (f : spec_float) : Prop :=
  let d := Zdigits2 M in
  let n := Z.max 0 (d - 53) in
  exists q e,
    f = (if e <=? 971 then S754_finite sx q e else S754_infinity sx) /\
    ex + n <= e <= ex + n + 1 /\
    (Zpos q * 2 ^ (e - ex) = 2 ^ n * (M / 2 ^ n) \/
     Zpos q * 2 ^ (e - ex) = 2 ^ n * (M / 2 ^ n + 1)) /\
    (M mod 2 ^ n = 0 -> Zpos q * 2 ^ (e - ex) = M) /\
    (53 <= d -> Zdigits2 (Zpos q) = 53) /\
    (d <= 53 -> Zpos q = M /\ e = ex).

Lemma binary_round_aux_64 sx (M : positive) ex :
  let d := Zdigits2 (Zpos M) in
  -1074 <= d + ex - 53 ->
  rounds_to (Zpos M) ex sx (binary_round_aux 53 1024 sx (Zpos M) ex loc_Exact).
Proof.
  intros d Hlo. unfold rounds_to. fold d.
  pose proof (Zdigits2_has_digits M) as HD. fold d in HD.
  assert (Hd : 0 < d) by (subst d; cbn; lia).
  set (n := Z.max 0 (d - 53)).
  assert (Hn : 0 <= n) by lia.
  assert (Pn : 0 < 2 ^ n) by (apply Z.pow_pos_nonneg; lia).
  unfold binary_round_aux.
  destruct (shr_fexp_64 (Zpos M) ex ltac:(lia) Hlo) as (mrs & -> & S).
  fold d n in S |- *.
  destruct (round_shifted (Zpos M) n mrs ltac:(lia) Hn S) as [RQ RE].
  cbv zeta in RQ, RE.
  set (Q := round_nearest_even _ _) in *. clearbody Q. clear S mrs.
  (* the digits of the rounded mantissa *)
  assert (HQ : has_digits (Zpos M / 2 ^ n) (d - n)).
  { apply has_digits_div; [lia | exact HD]. }
  assert (HQpos : 0 < Q).
  { destruct HQ as [A _]. pose proof (Z.pow_pos_nonneg 2 (d - n - 1)). lia. }
  assert (Hcases : (d <= 53 /\ n = 0 /\ Q = Zpos M) \/
                   (53 < d /\ n = d - 53 /\ 2 ^ 52 <= Q <= 2 ^ 53)).
  { destruct (Z.le_gt_cases d 53) as [L | G].
    - left. assert (n = 0) by lia. repeat split; try lia.
      replace n with 0 in *. change (2 ^ 0) with 1 in *.
      rewrite Z.div_1_r, Z.mod_1_r in *. now apply RE.
    - right. assert (n = d - 53) by lia. repeat split; try lia.
      + replace (d - n) with 53 in HQ by lia. unfold has_digits in HQ.
        change (2 ^ (53 - 1)) with (2 ^ 52) in HQ. lia.
      + replace (d - n) with 53 in HQ by lia. unfold has_digits in HQ. lia. }
  set (d2 := Zdigits2 Q).
  assert (Hd2 : (d <= 53 /\ d2 = d) \/ (53 < d /\ Q < 2 ^ 53 /\ d2 = 53) \/
                (53 < d /\ Q = 2 ^ 53 /\ d2 = 54)).
  { destruct Hcases as [(L & N0 & EQ) | (G & N & B)].
    - left. split; [exact L |]. subst d2. now rewrite EQ.
    - right. destruct (Z.eq_dec Q (2 ^ 53)) as [E | E].
      + right. repeat split; try assumption. subst d2. now rewrite E.
      + left. repeat split; try lia. subst d2.
        apply Zdigits2_eq; [lia |]. unfold has_digits.
        change (2 ^ (53 - 1)) with (2 ^ 52). lia. }
  destruct (shr_fexp_64 Q (ex + n) HQpos ltac:(fold d2; lia)) as (mrs2 & -> & S2).
  fold d2 in S2 |- *.
  set (n2 := Z.max 0 (d2 - 53)) in *.
  destruct S2 as (Sm & _ & _).
  assert (Hq : shr_m mrs2 = Q / 2 ^ n2) by exact Sm.
  assert (Hq2 : 0 < Q / 2 ^ n2 /\ Q = 2 ^ n2 * (Q / 2 ^ n2) /\
                (53 <= d -> Zdigits2 (Q / 2 ^ n2) = 53)).
  { destruct Hd2 as [(L & E) | [(G & B & E) | (G & EQ & E)]].
    - assert (n2 = 0) by lia. replace n2 with 0. change (2 ^ 0) with 1.
      rewrite Z.div_1_r. fold d2. repeat split; lia.
    - assert (n2 = 0) by lia. replace n2 with 0. change (2 ^ 0) with 1.
      rewrite Z.div_1_r. fold d2. repeat split; lia.
    - assert (n2 = 1) by lia. replace n2 with 1. rewrite EQ.
      change (2 ^ 53 / 2 ^ 1) with (2 ^ 52). repeat split; try lia. }
  destruct Hq2 as (Hqpos & Hqv & Hqd).
  rewrite Hq. destruct (Q / 2 ^ n2) as [|q|q] eqn:Eq; try lia.
  change (1024 - 53) with 971.
  exists q, (ex + n + n2). split; [reflexivity |].
  split; [destruct Hd2 as [? | [? | ?]]; lia |].
  replace (ex + n + n2 - ex) with (n + n2) by lia.
  assert (V : Zpos q * 2 ^ (n + n2) = 2 ^ n * Q).
  { rewrite Z.pow_add_r by lia. rewrite Hqv. ring. }
  rewrite V. repeat split.
  - destruct RQ as [-> | ->]; [now left | now right].
  - intros Z0. rewrite (RE Z0).
    pose proof (Z.div_mod (Zpos M) (2 ^ n) ltac:(lia)). lia.
  - exact Hqd.
  - destruct Hcases as [(_ & N0 & EQ) | ?]; [| lia].
    assert (n2 = 0) by lia. replace n2 with 0 in *. change (2 ^ 0) with 1 in Hqv.
    lia.
  - destruct Hcases as [(_ & N0 & EQ) | ?]; lia.
Qed.

Lemma iter_xO (m d : positive) : Zpos (Pos.iter xO m d) = Zpos m * 2 ^ Zpos d.
Proof.
  induction d as [|d IH] using Pos.peano_ind.
  - cbn [Pos.iter]. lia.
  - rewrite Pos.iter_succ, Pos2Z.inj_succ, Z.pow_succ_r by lia.
    change (Zpos (Pos.iter xO m d)~0) with (2 * Zpos (Pos.iter xO m d)). lia.
Qed.

Lemma has_digits_mul_pow2 m d s :
  0 < d -> 0 <= s -> has_digits m d -> has_digits (m * 2 ^ s) (d + s).
Proof.
  intros Hd Hs [A B]. unfold has_digits.
  assert (P : 0 < 2 ^ s) by (apply Z.pow_pos_nonneg; lia).
  replace (d + s - 1) with (d - 1 + s) by lia.
  rewrite !Z.pow_add_r by lia. nia.
Qed.

(** [shl_align] to the exponent of a normal number. *)
Lemma shl_align_64 (m : positive) e :
  let d := Zdigits2 (Zpos m) in
  let s := Z.max 0 (53 - d) in
  -1074 <= d + e - 53 ->
  exists mz, shl_align m e (fexp 53 1024 (d + e)) = (mz, e - s) /\
             Zpos mz = Zpos m * 2 ^ s.
Proof.
  intros d s Hlo. unfold shl_align, fexp, emin.
  replace (Z.max (d + e - 53) (3 - 1024 - 53) - e) with (d - 53) by lia.
  subst s. destruct (d - 53) as [|p|p] eqn:E.
  - exists m. replace (Z.max 0 (53 - d)) with 0 by lia.
    split; [f_equal; lia | change (2 ^ 0) with 1; lia].
  - exists m. replace (Z.max 0 (53 - d)) with 0 by lia.
    split; [f_equal; lia | change (2 ^ 0) with 1; lia].
  - exists (Pos.iter xO m p). replace (Z.max 0 (53 - d)) with (Zpos p) by lia.
    split; [f_equal; lia | apply iter_xO].
Qed.

(** [binary_round], hence [F64.of_Z] and the sum of [SFadd], rounds the
    exact value it is given. *)
Lemma binary_round_64 sx (m : positive) e :
  -1074 <= Zdigits2 (Zpos m) + e - 53 ->
  let s := Z.max 0 (53 - Zdigits2 (Zpos m)) in
  rounds_to (Zpos m * 2 ^ s) (e - s) sx (binary_round 53 1024 sx m e).
Proof.
  intros Hlo s. unfold binary_round.
  change (Zpos (digits2_pos m)) with (Zdigits2 (Zpos m)).
  destruct (shl_align_64 m e Hlo) as (mz & -> & Ez). fold s in Ez |- *.
  rewrite <- Ez. apply binary_round_aux_64.
  pose proof (Zdigits2_has_digits m) as HD.
  assert (Hz : has_digits (Zpos mz) (Zdigits2 (Zpos m) + s)).
  { rewrite Ez. apply has_digits_mul_pow2; [cbn; lia | lia | exact HD]. }
  assert (Hp : 0 < Zdigits2 (Zpos m) + s) by (cbn [Zdigits2]; lia).
  rewrite (Zdigits2_eq _ _ Hp Hz). lia.
Qed.

Lemma binary_normalize_64 (m : positive) e :
  -1074 <= Zdigits2 (Zpos m) + e - 53 ->
  let s := Z.max 0 (53 - Zdigits2 (Zpos m)) in
  rounds_to (Zpos m * 2 ^ s) (e - s) false
            (binary_normalize 53 1024 (Zpos m) e false).
Proof. apply binary_round_64. Qed.


(** The value of a positive finite float in units of [2^ex], an integer when
    its exponent is at least [ex]. *)
Definition scaled (ex : Z) (f : spec_float) : Z :=
  match f with
  | S754_finite false q e => Zpos q * 2 ^ (e - ex)
  | _ => 0
  end.

(** [f] is a positive normal number with value [W * 2^ex], [W] one of the
    two multiples of [2^n] around [M], where [n+53] is the number of digits
    of [M]: [f] is [M * 2^ex] correctly rounded. *)
Definition rounded (M ex : Z) (f : spec_float) : Prop :=
  let n := Zdigits2 M - 53 in
  exists q e,
    f = S754_finite false q e /\ ex + n <= e <= ex + n + 1 /\
    Zdigits2 (Zpos q) = 53 /\
    (scaled ex f = 2 ^ n * (M / 2 ^ n) \/ scaled ex f = 2 ^ n * (M / 2 ^ n + 1)) /\
    (M mod 2 ^ n = 0 -> scaled ex f = M).

Lemma rounds_to_rounded M ex f :
  53 <= Zdigits2 M -> ex + (Zdigits2 M - 53) < 971 ->
  rounds_to M ex false f -> rounded M ex f.
Proof.
  intros Hd Hhi (q & e & Ef & He & Hv & Hx & Hn & _). unfold rounded.
  replace (Z.max 0 (Zdigits2 M - 53)) with (Zdigits2 M - 53) in * by lia.
  destruct (Z.leb_spec e 971); [| lia]. subst f.
  exists q, e. cbn [scaled]. repeat split; try lia; auto.
Qed.

(** The rounding does not depend on how the exact value is split between
    mantissa and exponent. *)
Lemma rounded_unscale M ex s f :
  0 < M -> 0 <= s -> 53 <= Zdigits2 M ->
  rounded (M * 2 ^ s) (ex - s) f -> rounded M ex f.
Proof.
  intros HM Hs Hd (q & e & Ef & He & Hq & Hv & Hx). unfold rounded.
  destruct M as [|m|m]; try lia.
  pose proof (Zdigits2_has_digits m) as HD.
  assert (Hp : 0 < Zdigits2 (Zpos m) + s) by lia.
  assert (Ed : Zdigits2 (Zpos m * 2 ^ s) = Zdigits2 (Zpos m) + s).
  { apply Zdigits2_eq; [exact Hp |]. apply has_digits_mul_pow2; [lia | exact Hs | exact HD]. }
  rewrite Ed in *. set (n := Zdigits2 (Zpos m) - 53) in *.
  replace (Zdigits2 (Zpos m) + s - 53) with (n + s) in * by lia.
  assert (Ps : 0 < 2 ^ s) by (apply Z.pow_pos_nonneg; lia).
  assert (Pn : 0 < 2 ^ n) by (apply Z.pow_pos_nonneg; lia).
  assert (E1 : 2 ^ (n + s) = 2 ^ n * 2 ^ s) by (apply Z.pow_add_r; lia).
  assert (E2 : Zpos m * 2 ^ s / 2 ^ (n + s) = Zpos m / 2 ^ n).
  { rewrite E1. apply Z.div_mul_cancel_r; lia. }
  assert (E3 : (Zpos m * 2 ^ s) mod 2 ^ (n + s) = (Zpos m mod 2 ^ n) * 2 ^ s).
  { rewrite E1. apply Z.mul_mod_distr_r; lia. }
  assert (E4 : scaled (ex - s) f = scaled ex f * 2 ^ s).
  { subst f. cbn [scaled]. replace (e - (ex - s)) with (e - ex + s) by lia.
    rewrite Z.pow_add_r by lia. ring. }
  rewrite E2, E3, E4 in *.
  exists q, e. repeat split; try lia; auto.
  - destruct Hv as [Hv | Hv]; [left | right]; nia.
  - intros Z0. rewrite Z0 in Hx. specialize (Hx eq_refl). nia.
Qed.

(** Truncation of a positive float with a negative base exponent. *)
Lemma SFtrunc_scaled ex f q e :
  f = S754_finite false q e -> ex <= e -> ex <= 0 ->
  SFtrunc f = scaled ex f / 2 ^ (- ex).
Proof.
  intros -> He Hex. cbn [SFtrunc scaled cond_Zopp].
  assert (P : 0 < 2 ^ (e - ex)) by (apply Z.pow_pos_nonneg; lia).
  destruct (Z.le_gt_cases 0 e) as [L | G].
  - rewrite Z.shiftl_mul_pow2 by lia.
    replace (e - ex) with (e + - ex) by lia.
    rewrite Z.pow_add_r by lia. rewrite Z.mul_assoc.
    rewrite Z.div_mul; [reflexivity |].
    pose proof (Z.pow_pos_nonneg 2 (- ex)). lia.
  - assert (E : Z.shiftl (Zpos q) e = Zpos q / 2 ^ (- e)).
    { rewrite <- Z.shiftl_div_pow2 by lia. f_equal; lia. }
    rewrite E. replace (- ex) with (- e + (e - ex)) by lia.
    rewrite Z.pow_add_r by lia.
    rewrite Z.div_mul_cancel_r; [reflexivity | | lia].
    pose proof (Z.pow_pos_nonneg 2 (- e)). lia.
Qed.

(** The integer part of a correctly rounded value, from bounds on the exact
    one. *)
Lemma SFtrunc_rounded M ex f g :
  rounded M ex f -> ex <= 0 -> 0 < M ->
  0 <= Zdigits2 M - 53 <= - ex ->
  g * 2 ^ (- ex) <= M ->
  M + 2 ^ (Zdigits2 M - 53) < (g + 1) * 2 ^ (- ex) ->
  SFtrunc f = g.
Proof.
  intros (q & e & Ef & He & Hq & Hv & _) Hex HM Hn Hlo Hhi.
  set (n := Zdigits2 M - 53) in *.
  rewrite (SFtrunc_scaled ex f q e Ef ltac:(lia) Hex).
  set (W := scaled ex f) in *. clearbody W.
  assert (Pn : 0 < 2 ^ n) by (apply Z.pow_pos_nonneg; lia).
  assert (PK : 0 < 2 ^ (- ex)) by (apply Z.pow_pos_nonneg; lia).
  assert (EK : 2 ^ (- ex) = 2 ^ (- ex - n) * 2 ^ n)
    by (rewrite <- Z.pow_add_r by lia; f_equal; lia).
  pose proof (Z.div_mod M (2 ^ n) ltac:(lia)) as D.
  pose proof (Z.mod_pos_bound M (2 ^ n) Pn) as B.
  assert (L : g * 2 ^ (- ex - n) <= M / 2 ^ n).
  { apply Z.div_le_lower_bound; [lia |]. rewrite EK in Hlo. lia. }
  symmetry. apply (Z.div_unique_pos W (2 ^ (- ex)) g (W - g * 2 ^ (- ex))); [| lia].
  destruct Hv as [-> | ->]; rewrite EK in *; nia.
Qed.


(** *** Conversions and products *)

(** The conversion of a positive integer of at most 53 bits is exact. *)
Lemma F64_of_Z_exact x :
  0 < x -> Zdigits2 x <= 53 ->
  exists q, F64.of_Z x = S754_finite false q (Zdigits2 x - 53) /\
            Zpos q = x * 2 ^ (53 - Zdigits2 x) /\
            Zdigits2 (Zpos q) = 53.
Proof.
  intros Hx Hd. destruct x as [|m|m]; try lia.
  unfold F64.of_Z, F64.prec, F64.emax.
  assert (Hp : 0 < Zdigits2 (Zpos m)) by (cbn; lia).
  destruct (binary_normalize_64 m 0 ltac:(lia))
    as (q & e & Ef & He & _ & _ & Hn & Hq).
  replace (Z.max 0 (53 - Zdigits2 (Zpos m))) with (53 - Zdigits2 (Zpos m)) in * by lia.
  set (s := 53 - Zdigits2 (Zpos m)) in *.
  assert (HM : has_digits (Zpos m * 2 ^ s) (Zdigits2 (Zpos m) + s))
    by (apply has_digits_mul_pow2; [lia | lia | apply Zdigits2_has_digits]).
  replace (Zdigits2 (Zpos m) + s) with 53 in HM by lia.
  rewrite (Zdigits2_eq _ 53 ltac:(lia) HM) in *.
  destruct (Hq ltac:(lia)) as [Eq Ee].
  replace (Z.max 0 (53 - 53)) with 0 in He by lia.
  destruct (Z.leb_spec e 971); [| lia].
  exists q. rewrite Ef. repeat split; [f_equal; lia | exact Eq | now apply Hn].
Qed.

(** The product of two positive floats is the exact product of the
    mantissas, rounded. *)
Lemma F64_mul_rounds m1 e1 m2 e2 :
  -1074 <= Zdigits2 (Zpos (m1 * m2)) + (e1 + e2) - 53 ->
  rounds_to (Zpos m1 * Zpos m2) (e1 + e2) false
            (F64.mul (S754_finite false m1 e1) (S754_finite false m2 e2)).
Proof.
  intros H. unfold F64.mul, F64.prec, F64.emax. cbn [SFmul xorb].
  rewrite <- Pos2Z.inj_mul. now apply binary_round_aux_64.
Qed.

Lemma has_digits_mul a da b db :
  has_digits a da -> has_digits b db -> 0 < da -> 0 < db ->
  has_digits (a * b) (da + db) \/ has_digits (a * b) (da + db - 1).
Proof.
  unfold has_digits. intros [A1 A2] [B1 B2] Ha Hb.
  assert (P1 : 0 < 2 ^ (da - 1)) by (apply Z.pow_pos_nonneg; lia).
  assert (P2 : 0 < 2 ^ (db - 1)) by (apply Z.pow_pos_nonneg; lia).
  assert (E1 : 2 ^ (da + db - 1 - 1) = 2 ^ (da - 1) * 2 ^ (db - 1))
    by (rewrite <- Z.pow_add_r by lia; f_equal; lia).
  assert (E2 : 2 ^ (da + db) = 2 ^ da * 2 ^ db) by (apply Z.pow_add_r; lia).
  destruct (Z.lt_ge_cases (a * b) (2 ^ (da + db - 1))) as [L | G].
  - right. split; [rewrite E1; nia | exact L].
  - left. split; [exact G | rewrite E2; nia].
Qed.

(** The product of a converted integer [0 < x < 2^53] and a normal constant
    [mc * 2^ec] is [x * mc * 2^ec] correctly rounded. *)
Lemma F64_mul_of_Z x mc ec :
  0 < x -> Zdigits2 x <= 53 -> Zdigits2 (Zpos mc) = 53 -> -900 <= ec <= 800 ->
  rounded (x * Zpos mc) ec (F64.mul (F64.of_Z x) (S754_finite false mc ec)).
Proof.
  intros Hx Hd Hc He.
  destruct (F64_of_Z_exact x Hx Hd) as (q & -> & Eq & Hq).
  set (dx := Zdigits2 x) in *.
  assert (Hdx : 0 < dx).
  { subst dx. destruct x; try lia. cbn. lia. }
  assert (HX : has_digits x dx).
  { subst dx. destruct x; try lia. apply Zdigits2_has_digits. }
  pose proof (Zdigits2_has_digits mc) as HC. rewrite Hc in HC.
  pose proof (Zdigits2_has_digits q) as HQ. rewrite Hq in HQ.
  assert (DV : Zdigits2 (x * Zpos mc) = dx + 53 \/
               Zdigits2 (x * Zpos mc) = dx + 53 - 1).
  { destruct (has_digits_mul x dx (Zpos mc) 53 HX HC Hdx ltac:(lia)) as [H | H];
      [left | right]; apply Zdigits2_eq; (lia || exact H). }
  assert (DM : Zdigits2 (Zpos (q * mc)) = 53 + 53 \/
               Zdigits2 (Zpos (q * mc)) = 53 + 53 - 1).
  { rewrite Pos2Z.inj_mul.
    destruct (has_digits_mul (Zpos q) 53 (Zpos mc) 53 HQ HC ltac:(lia) ltac:(lia))
      as [H | H]; [left | right]; apply Zdigits2_eq; (lia || exact H). }
  pose proof (F64_mul_rounds q (dx - 53) mc ec ltac:(lia)) as R.
  apply rounds_to_rounded in R.
  - rewrite Eq in R.
    replace (x * 2 ^ (53 - dx) * Zpos mc) with (x * Zpos mc * 2 ^ (53 - dx)) in R by ring.
    replace (dx - 53 + ec) with (ec - (53 - dx)) in R by lia.
    apply rounded_unscale in R; [exact R | nia | lia | lia].
  - rewrite <- Pos2Z.inj_mul. lia.
  - rewrite <- Pos2Z.inj_mul. lia.
Qed.

(** *** The literals *)

Lemma d0_8_eq : d0_8 = S754_finite false 7205759403792794 (-53).
Proof. vm_compute. reflexivity. Qed.

Lemma d1_08_eq : d1_08 = S754_finite false 4863887597560136 (-52).
Proof. vm_compute. reflexivity. Qed.

Lemma d0_5_eq : d0_5 = S754_finite false 4503599627370496 (-53).
Proof. vm_compute. reflexivity. Qed.

Lemma d512_eq : d512 = S754_finite false 4503599627370496 (-43).
Proof. vm_compute. reflexivity. Qed.

(** [1.2 * kFeedbackIntervalMs] is exactly 1800. *)
Lemma fresh_threshold_eq :
  F64.mul d1_2 (F64.of_Z kFeedbackIntervalMs) = F64.of_Z 1800 /\
  F64.of_Z 1800 = S754_finite false 7916483719987200 (-42).
Proof. split; vm_compute; reflexivity. Qed.

Lemma Zdigits2_le_of_lt x k : 0 < x < 2 ^ k -> 0 <= k -> Zdigits2 x <= k.
Proof.
  intros Hx Hk. destruct x as [|p|p]; try lia.
  pose proof (Zdigits2_has_digits p) as [A _].
  destruct (Z.le_gt_cases (Zdigits2 (Zpos p)) k) as [L | G]; [exact L |].
  assert (2 ^ k <= 2 ^ (Zdigits2 (Zpos p) - 1)) by (apply Z.pow_le_mono_r; lia).
  lia.
Qed.

(** *** [bitrate_ *= 0.8] *)

Lemma TimedOutBitrate_eq b :
  0 <= b < 2 ^ 32 -> TimedOutBitrate b = 4 * b / 5.
Proof.
  intros Hb. unfold TimedOutBitrate, F64.to_uint32.
  destruct (Z.eq_dec b 0) as [-> | Hnz]; [reflexivity |].
  assert (Hd : Zdigits2 b <= 32) by (apply Zdigits2_le_of_lt; lia).
  rewrite d0_8_eq.
  pose proof (F64_mul_of_Z b 7205759403792794 (-53) ltac:(lia) ltac:(lia)
                eq_refl ltac:(lia)) as R.
  remember (b * 7205759403792794) as V eqn:EV.
  assert (HV : 0 < V) by lia.
  assert (DV : 53 <= Zdigits2 V <= 85).
  { split.
    - destruct (Z.le_gt_cases 53 (Zdigits2 V)) as [L | G]; [exact L |].
      destruct V as [|v|v]; try lia.
      pose proof (Zdigits2_has_digits v) as [_ B].
      assert (2 ^ Zdigits2 (Zpos v) <= 2 ^ 52) by (apply Z.pow_le_mono_r; lia).
      change (2 ^ 52) with 4503599627370496 in *. lia.
    - apply Zdigits2_le_of_lt; [| lia].
      change (2 ^ 85) with (2 ^ 32 * 2 ^ 53).
      change (2 ^ 53) with 9007199254740992.
      change (2 ^ 32) with 4294967296 in *. lia. }
  set (g := 4 * b / 5).
  assert (Hg : 5 * g <= 4 * b < 5 * g + 5).
  { subst g. pose proof (Z.div_mod (4 * b) 5 ltac:(lia)).
    pose proof (Z.mod_pos_bound (4 * b) 5 ltac:(lia)). lia. }
  assert (Pn : 2 ^ (Zdigits2 V - 53) <= 2 ^ 32) by (apply Z.pow_le_mono_r; lia).
  rewrite (SFtrunc_rounded V (-53) _ g R); try lia.
  apply to_uint32_small. lia.
Qed.


(** *** Sums *)

(** The sum of two positive floats is the exact sum, aligned on the smaller
    exponent, then rounded. *)
Lemma F64_add_aligned q1 e1 q2 e2 :
  e2 <= e1 ->
  exists m, Zpos m = Zpos q1 * 2 ^ (e1 - e2) + Zpos q2 /\
            F64.add (S754_finite false q1 e1) (S754_finite false q2 e2) =
            binary_normalize 53 1024 (Zpos m) e2 false.
Proof.
  intros He. unfold F64.add, F64.prec, F64.emax. cbn [SFadd cond_Zopp].
  replace (Z.min e1 e2) with e2 by lia.
  unfold shl_align. rewrite Z.sub_diag. cbn [fst].
  destruct (e2 - e1) as [|d|d] eqn:E; try lia; cbn [fst Z.add].
  - exists (q1 + q2)%positive. split; [| reflexivity].
    replace (e1 - e2) with 0 by lia. change (2 ^ 0) with 1. lia.
  - exists (Pos.iter xO q1 d + q2)%positive. split; [| reflexivity].
    rewrite Pos2Z.inj_add, iter_xO. repeat f_equal. lia.
Qed.

(** *** [round(front * 1.08) + 1000] *)

Lemma IncreasedBitrate_eq front :
  0 <= front <= INT_MAX -> IncreasedBitrate front = (54 * front + 25) / 50 + 1000.
Proof.
  unfold INT_MAX. intros Hx. unfold IncreasedBitrate, F64.to_uint32.
  destruct (Z.eq_dec front 0) as [-> | Hnz]; [reflexivity |].
  change (2 ^ 31 - 1) with 2147483647 in Hx.
  assert (Hd : Zdigits2 front <= 31).
  { apply Zdigits2_le_of_lt; [| lia]. change (2 ^ 31) with 2147483648. lia. }
  rewrite d1_08_eq, d0_5_eq.
  (* the product *)
  pose proof (F64_mul_of_Z front 4863887597560136 (-52) ltac:(lia) ltac:(lia)
                eq_refl ltac:(lia)) as R1.
  remember (front * 4863887597560136) as V eqn:EV.
  assert (HV : 0 < V) by lia.
  assert (DV : 53 <= Zdigits2 V <= 84).
  { split.
    - destruct (Z.le_gt_cases 53 (Zdigits2 V)) as [L | G]; [exact L |].
      destruct V as [|v|v]; try lia.
      pose proof (Zdigits2_has_digits v) as [_ B].
      assert (2 ^ Zdigits2 (Zpos v) <= 2 ^ 52) by (apply Z.pow_le_mono_r; lia).
      change (2 ^ 52) with 4503599627370496 in *. lia.
    - apply Zdigits2_le_of_lt; [| lia].
      change (2 ^ 84) with 19342813113834066795298816. lia. }
  destruct R1 as (q1 & e1 & E1 & He1 & Hq1 & Hv1 & _).
  rewrite E1 in *. cbn [scaled] in Hv1.
  set (n1 := Zdigits2 V - 53) in *.
  assert (Pn1 : 0 < 2 ^ n1 <= 2 ^ 31).
  { split; [apply Z.pow_pos_nonneg; lia | apply Z.pow_le_mono_r; lia]. }
  pose proof (Z.div_mod V (2 ^ n1) ltac:(lia)) as D1.
  pose proof (Z.mod_pos_bound V (2 ^ n1) ltac:(lia)) as B1.
  set (W1 := Zpos q1 * 2 ^ (e1 - -52)) in *.
  assert (HW1 : V - 2 ^ n1 < W1 <= V + 2 ^ n1) by (destruct Hv1 as [-> | ->]; lia).
  (* the sum *)
  destruct (F64_add_aligned q1 e1 4503599627370496 (-53) ltac:(lia))
    as (ms & Ems & ->).
  assert (EW : Zpos q1 * 2 ^ (e1 - -53) = 2 * W1).
  { subst W1. replace (e1 - -53) with (e1 - -52 + 1) by lia.
    rewrite Z.pow_add_r by lia. change (2 ^ 1) with 2. ring. }
  rewrite EW in Ems.
  change (2 ^ 31) with 2147483648 in *.
  assert (Dms : 54 <= Zdigits2 (Zpos ms) <= 86).
  { split.
    - destruct (Z.le_gt_cases 54 (Zdigits2 (Zpos ms))) as [L | G]; [exact L |].
      pose proof (Zdigits2_has_digits ms) as [_ B].
      assert (2 ^ Zdigits2 (Zpos ms) <= 2 ^ 53) by (apply Z.pow_le_mono_r; lia).
      change (2 ^ 53) with 9007199254740992 in *. lia.
    - apply Zdigits2_le_of_lt; [| lia].
      change (2 ^ 86) with 77371252455336267181195264. lia. }
  pose proof (binary_normalize_64 ms (-53) ltac:(lia)) as R2.
  cbv zeta in R2.
  replace (Z.max 0 (53 - Zdigits2 (Zpos ms))) with 0 in R2 by lia.
  change (2 ^ 0) with 1 in R2. rewrite Z.mul_1_r, Z.sub_0_r in R2.
  apply rounds_to_rounded in R2; [| lia | lia].
  set (g := (54 * front + 25) / 50).
  assert (Hg : 50 * g + 1 <= 54 * front + 25 <= 50 * g + 49).
  { subst g. pose proof (Z.div_mod (54 * front + 25) 50 ltac:(lia)).
    pose proof (Z.mod_pos_bound (54 * front + 25) 50 ltac:(lia)). lia. }
  assert (Pn : 2 ^ (Zdigits2 (Zpos ms) - 53) <= 2 ^ 33)
    by (apply Z.pow_le_mono_r; lia).
  change (2 ^ 33) with 8589934592 in Pn.
  rewrite (SFtrunc_rounded (Zpos ms) (-53) _ g R2); try lia.
  assert (Hs : 0 <= g < 2 ^ 32 - 1000).
  { change (2 ^ 32 - 1000) with 4294966296. lia. }
  rewrite (to_uint32_small g) by lia. apply to_uint32_small. lia.
Qed.


(** *** Division by 512 *)

Lemma Z_div_eucl_div_mod a b : Z.div_eucl a b = (a / b, a mod b).
Proof. unfold Z.div, Z.modulo. now destruct (Z.div_eucl a b). Qed.

(** Dividing a normal number by [512.0] yields a float with the same digits
    and 512 times less. *)
Lemma F64_div_512 q e :
  Zdigits2 (Zpos q) = 53 -> -1000 <= e <= 900 ->
  exists q' e', F64.div (S754_finite false q e) d512 = S754_finite false q' e' /\
                e - 10 <= e' /\ scaled (e - 10) (S754_finite false q' e') = 2 * Zpos q.
Proof.
  intros Hq He. rewrite d512_eq.
  unfold F64.div, F64.prec, F64.emax. cbn [SFdiv xorb].
  unfold SFdiv_core_binary. rewrite Hq.
  change (Zdigits2 4503599627370496) with 53.
  unfold fexp, emin.
  replace (Z.min (Z.max (53 + e - (53 + -43) - 53) (3 - 1024 - 53)) (e - -43))
    with (e - 10) by lia.
  replace (e - -43 - (e - 10)) with 53 by lia.
  rewrite Z_div_eucl_div_mod.
  rewrite Z.shiftl_mul_pow2 by lia.
  change (2 ^ 53) with (2 * 4503599627370496).
  rewrite Z.mul_assoc, Z.div_mul, Z.mod_mul by lia.
  change (new_location 4503599627370496 0) with loc_Exact.
  pose proof (binary_round_aux_64 false (q~0) (e - 10)) as R.
  assert (D : Zdigits2 (Zpos q~0) = 54).
  { cbn [Zdigits2 digits2_pos]. cbn [Zdigits2] in Hq. lia. }
  rewrite D in R. specialize (R ltac:(lia)).
  destruct R as (q' & e' & Ef & He' & _ & Hx & _).
  rewrite D in *. replace (Z.max 0 (54 - 53)) with 1 in * by lia.
  change (2 ^ 1) with 2 in Hx.
  destruct (Z.leb_spec e' 971); [| lia].
  exists q', e'. replace (Zpos q * 2) with (Zpos q~0) by lia.
  rewrite Ef. split; [reflexivity |]. split; [lia |].
  cbn [scaled]. rewrite Hx; [lia |].
  change (Zpos q~0) with (2 * Zpos q). rewrite Z.mul_comm. apply Z.mod_mul. lia.
Qed.

(** *** [bitrate * (512 - loss) / 512.0] *)

Lemma F64_of_Z_zero : F64.of_Z 0 = S754_zero false.
Proof. reflexivity. Qed.

Lemma DecreasedBitrate_eq bitrate fraction_loss :
  0 <= bitrate < 2 ^ 32 -> 0 <= fraction_loss <= 255 ->
  DecreasedBitrate bitrate fraction_loss = bitrate * (512 - fraction_loss) / 512.
Proof.
  intros Hb Hl. unfold DecreasedBitrate, F64.to_uint32.
  set (k := 512 - fraction_loss). assert (Hk : 257 <= k <= 512) by lia.
  clearbody k.
  assert (Dk : Zdigits2 k <= 10).
  { apply Zdigits2_le_of_lt; [| lia]. change (2 ^ 10) with 1024. lia. }
  destruct (F64_of_Z_exact k ltac:(lia) ltac:(lia)) as (qk & Ek & Eqk & Hqk).
  rewrite Ek.
  destruct (Z.eq_dec bitrate 0) as [-> | Hnz].
  { rewrite d512_eq. reflexivity. }
  assert (Db : Zdigits2 bitrate <= 32) by (apply Zdigits2_le_of_lt; lia).
  assert (Dk' : 9 <= Zdigits2 k).
  { destruct (Z.le_gt_cases 9 (Zdigits2 k)) as [L | G]; [exact L |].
    destruct k as [|p|p]; try lia.
    pose proof (Zdigits2_has_digits p) as [_ B].
    assert (2 ^ Zdigits2 (Zpos p) <= 2 ^ 8) by (apply Z.pow_le_mono_r; lia).
    change (2 ^ 8) with 256 in *. lia. }
  set (dk := Zdigits2 k) in *.
  (* the product is exact *)
  pose proof (F64_mul_of_Z bitrate qk (dk - 53) ltac:(lia) ltac:(lia) Hqk
                ltac:(lia)) as R.
  rewrite Eqk in R.
  remember (bitrate * k) as P eqn:EP.
  assert (HP : 0 < P < 2 ^ 42).
  { change (2 ^ 42) with (2 ^ 32 * 1024). nia. }
  assert (HP' : P <= 512 * (2 ^ 32 - 1)) by nia.
  assert (DP : dk <= Zdigits2 P <= 42).
  { split; [| apply Zdigits2_le_of_lt; lia].
    destruct P as [|p|p]; try lia. destruct k as [|pk|pk]; try lia.
    pose proof (Zdigits2_has_digits p) as [_ B].
    pose proof (Zdigits2_has_digits pk) as [A _]. fold dk in A.
    destruct (Z.le_gt_cases dk (Zdigits2 (Zpos p))) as [L | G]; [exact L |].
    assert (2 ^ Zdigits2 (Zpos p) <= 2 ^ (dk - 1)) by (apply Z.pow_le_mono_r; lia).
    nia. }
  set (s := 53 - dk) in *.
  assert (EV : bitrate * (k * 2 ^ s) = P * 2 ^ s) by (rewrite EP; ring).
  rewrite EV in R.
  assert (Ps : 0 < 2 ^ s) by (apply Z.pow_pos_nonneg; lia).
  assert (DV : Zdigits2 (P * 2 ^ s) = Zdigits2 P + s).
  { apply Zdigits2_eq; [lia |]. apply has_digits_mul_pow2; [lia | lia |].
    destruct P as [|p|p]; try lia. apply Zdigits2_has_digits. }
  destruct R as (q & e & Ef & He & Hq & _ & Hx).
  rewrite DV in *. set (n := Zdigits2 P + s - 53) in *.
  assert (Hn : 0 <= n <= s) by lia.
  assert (Hexact : scaled (dk - 53) (F64.mul (F64.of_Z bitrate)
                                      (S754_finite false qk (dk - 53))) = P * 2 ^ s).
  { apply Hx. replace s with (s - n + n) at 1 by lia.
    rewrite Z.pow_add_r by lia. rewrite Z.mul_assoc. apply Z.mod_mul.
    pose proof (Z.pow_pos_nonneg 2 n). lia. }
  rewrite Ef in *. cbn [scaled] in Hexact.
  (* the quotient *)
  destruct (F64_div_512 q e Hq ltac:(lia)) as (q' & e' & -> & He' & Hs').
  rewrite (SFtrunc_scaled (e - 10) _ q' e' eq_refl He' ltac:(lia)), Hs'.
  (* [q = P * 2^(-e)] *)
  assert (Pe : 0 < 2 ^ (e - (dk - 53))) by (apply Z.pow_pos_nonneg; lia).
  assert (Es : 2 ^ s = 2 ^ (- e) * 2 ^ (e - (dk - 53))).
  { rewrite <- Z.pow_add_r by lia. f_equal. lia. }
  assert (Eq : Zpos q = P * 2 ^ (- e)).
  { rewrite Es in Hexact. nia. }
  rewrite Eq.
  replace (- (e - 10)) with (10 + - e) by lia.
  rewrite Z.pow_add_r by lia. change (2 ^ 10) with (2 * 512).
  assert (Pne : 0 < 2 ^ (- e)) by (apply Z.pow_pos_nonneg; lia).
  replace (2 * (P * 2 ^ (- e))) with (P * (2 * 2 ^ (- e))) by ring.
  replace (2 * 512 * 2 ^ (- e)) with (512 * (2 * 2 ^ (- e))) by ring.
  rewrite Z.div_mul_cancel_r by lia.
  apply to_uint32_small.
  pose proof (Z.div_pos P 512 ltac:(lia) ltac:(lia)).
  pose proof (Z.div_le_upper_bound P 512 (2 ^ 32 - 1) ltac:(lia) HP').
  lia.
Qed.


(** *** [time_since_packet_report_ms < 1.2 * kFeedbackIntervalMs] *)

Lemma FeedbackIsFresh_eq t : FeedbackIsFresh t = (t <? 1800).
Proof.
  unfold FeedbackIsFresh. destruct fresh_threshold_eq as [-> ->].
  destruct t as [|p|p].
  - reflexivity.
  - (* positive *)
    destruct (Z.le_gt_cases (Zdigits2 (Zpos p)) 53) as [L | G].
    + destruct (F64_of_Z_exact (Zpos p) ltac:(lia) L) as (q & -> & Eq & _).
      pose proof (Zdigits2_has_digits p) as [A B].
      set (d := Zdigits2 (Zpos p)) in *.
      assert (Hd : 0 < d) by (subst d; cbn; lia).
      unfold F64.ltb, SFltb, SFcompare.
      destruct (Z.compare_spec (d - 53) (-42)) as [E | E | E].
      * (* eleven digits: the mantissas decide *)
        rewrite Pos.compare_cont_spec. cbn [Pos.switch_Eq].
        rewrite (Pos2Z.inj_compare q 7916483719987200).
        replace d with 11 in * by lia. rewrite Eq.
        change (2 ^ (53 - 11)) with 4398046511104.
        destruct (Z.compare_spec (Zpos p * 4398046511104) 7916483719987200);
          destruct (Z.ltb_spec (Zpos p) 1800); (reflexivity || lia).
      * assert (2 ^ d <= 2 ^ 10) by (apply Z.pow_le_mono_r; lia).
        change (2 ^ 10) with 1024 in *.
        destruct (Z.ltb_spec (Zpos p) 1800); [reflexivity | lia].
      * assert (2 ^ 11 <= 2 ^ (d - 1)) by (apply Z.pow_le_mono_r; lia).
        change (2 ^ 11) with 2048 in *.
        destruct (Z.ltb_spec (Zpos p) 1800); [lia | reflexivity].
    + (* more than 53 bits: rounded, with a positive exponent *)
      unfold F64.of_Z, F64.prec, F64.emax. cbn [binary_normalize].
      destruct (binary_round_64 false p 0 ltac:(lia))
        as (q & e & -> & He & _).
      pose proof (Zdigits2_has_digits p) as [A _].
      assert (2 ^ 53 <= 2 ^ (Zdigits2 (Zpos p) - 1)) by (apply Z.pow_le_mono_r; lia).
      change (2 ^ 53) with 9007199254740992 in *.
      destruct (Z.ltb_spec (Zpos p) 1800); [lia |].
      replace (Z.max 0 (53 - Zdigits2 (Zpos p))) with 0 in He by lia.
      destruct (e <=? 971); [| reflexivity].
      unfold F64.ltb, SFltb, SFcompare.
      destruct (Z.compare_spec e (-42)); [lia | lia | reflexivity].
  - (* negative *)
    unfold F64.of_Z, F64.prec, F64.emax. cbn [binary_normalize].
    destruct (Z.le_gt_cases (-1074) (Zdigits2 (Zpos p) + 0 - 53)) as [L | G];
      [| cbn [Zdigits2] in G; lia].
    destruct (binary_round_64 true p 0 L) as (q & e & -> & _).
    destruct (e <=? 971); reflexivity.
Qed.


(** *** Order of [SpecFloat] comparisons *)

Lemma compare_cont_Eq p q : Pos.compare_cont Eq p q = Z.compare (Zpos p) (Zpos q).
Proof. reflexivity. Qed.

Ltac compare_cases :=
  repeat match goal with
  | H : context [Z.compare ?a ?b] |- _ => destruct (Z.compare_spec a b)
  | |- context [Z.compare ?a ?b] => destruct (Z.compare_spec a b)
  end.

Lemma SFleb_trans x y z : SFleb x y = true -> SFleb y z = true -> SFleb x z = true.
Proof.
  unfold SFleb, SFcompare.
  destruct x as [sx | sx | | sx mx ex], y as [sy | sy | | sy my ey],
           z as [sz | sz | | sz mz ez];
    try destruct sx; try destruct sy; try destruct sz;
    try (intros; discriminate); try reflexivity;
    rewrite ?compare_cont_Eq; intros H1 H2;
    compare_cases; try discriminate; try reflexivity; cbn in *; try discriminate;
    exfalso; lia.
Qed.

Lemma SFltb_not_leb x y : SFltb x y = true -> SFleb y x = false.
Proof.
  unfold SFltb, SFleb, SFcompare.
  destruct x as [sx | sx | | sx mx ex], y as [sy | sy | | sy my ey];
    try destruct sx; try destruct sy;
    try (intros; discriminate); try reflexivity;
    rewrite ?compare_cont_Eq; intros H1;
    compare_cases; try discriminate; try reflexivity; cbn in *; try discriminate;
    exfalso; lia.
Qed.


(** ** The regular update *)

(** The tick ends in the start-up block: a hint was adopted (line 283). *)
Definition StartupAdopts (now_ms : Z) (s : SendSideBandwidthEstimation) : bool :=
  (last_fraction_loss_ s =? 0) && IsInStartPhase now_ms s &&
  negb (bitrate_ (StartupTrust now_ms s) =? bitrate_ s).

Lemma Cap_then_store_shape now b s :
  exists l k, (let '(b', s') := CapBitrateToThresholds now b s in
               set_bitrate_ b' s') =
              set_bitrate_ (cap_value s b)
                (set_last_low_bitrate_log_ms_ l (set_sink_ k s)).
Proof.
  rewrite <- (Cap_fst now b s).
  pose proof (Cap_snd_cases now b s) as H.
  destruct (CapBitrateToThresholds now b s) as [b' s']. cbn [fst snd] in *.
  destruct H as [-> | [e ->]].
  - exists (last_low_bitrate_log_ms_ s), (sink_ s). now destruct s.
  - exists now, (sink_ s ++ [e]). now destruct s.
Qed.

Lemma StartupTrust_shape now s :
  exists l k, StartupTrust now s =
              set_bitrate_ (bitrate_ (StartupTrust now s))
                (set_last_low_bitrate_log_ms_ l (set_sink_ k s)).
Proof.
  unfold StartupTrust.
  set (s1 := if bwe_incoming_ s >? bitrate_ s then _ else s).
  assert (H1 : exists l k, s1 = set_bitrate_ (bitrate_ s1)
                                  (set_last_low_bitrate_log_ms_ l (set_sink_ k s))).
  { subst s1. destruct (_ >? _).
    - destruct (Cap_then_store_shape now (bwe_incoming_ s) s) as (l & k & ->).
      exists l, k. now destruct s.
    - exists (last_low_bitrate_log_ms_ s), (sink_ s). now destruct s. }
  clearbody s1. destruct H1 as (l1 & k1 & E1).
  destruct (_ >? _).
  - destruct (Cap_then_store_shape now (delay_based_bitrate_bps_ s1) s1)
      as (l & k & ->).
    exists l, k. rewrite E1. now destruct s.
  - exists l1, k1. exact E1.
Qed.

(** Without an adoption the tick is the regular update of the state it
    found, up to the low-bitrate warning of a capping that changed
    nothing. *)
Lemma UpdateEstimate_regular now s :
  StartupAdopts now s = false ->
  exists l k, UpdateEstimate now s =
              RegularUpdate now (set_last_low_bitrate_log_ms_ l (set_sink_ k s)).
Proof.
  unfold StartupAdopts, UpdateEstimate. intros H.
  destruct (_ && IsInStartPhase now s); cbn [andb] in H.
  - rewrite H. destruct (StartupTrust_shape now s) as (l & k & ->).
    apply negb_false_iff, Z.eqb_eq in H. rewrite H.
    exists l, k. now destruct s.
  - exists (last_low_bitrate_log_ms_ s), (sink_ s). now destruct s.
Qed.

Lemma CapAndLog_shape now s :
  exists l k g r, CapAndLog now s =
                  set_bitrate_ (cap_value s (bitrate_ s))
                    (set_last_low_bitrate_log_ms_ l
                       (set_sink_ k
                          (set_last_logged_fraction_loss_ g
                             (set_last_rtc_event_log_ms_ r s)))).
Proof.
  unfold CapAndLog. rewrite <- (Cap_fst now (bitrate_ s) s).
  pose proof (Cap_snd_cases now (bitrate_ s) s) as H.
  destruct (CapBitrateToThresholds now (bitrate_ s) s) as [b' s'].
  cbn [fst snd] in *.
  destruct (_ || _); destruct H as [-> | [e ->]]; destruct s; sbe_simpl;
    do 4 eexists; reflexivity.
Qed.


(** ** Receiver blocks, case by case *)

(** The state a receiver block hands to [UpdateEstimate] when it completes
    a sample (lines 227-234). *)
Definition SampleState (fraction_loss rtt number_of_packets now_ms : Z)
  (s : SendSideBandwidthEstimation) :=
  let lost := to_int (lost_packets_since_last_loss_update_Q8_ s +
                      to_int (fraction_loss * number_of_packets)) in
  let expected := to_int (expected_packets_since_last_loss_update_ s +
                          number_of_packets) in
  set_last_packet_report_ms_ now_ms
    (set_expected_packets_since_last_loss_update_ 0
       (set_lost_packets_since_last_loss_update_Q8_ 0
          (set_last_fraction_loss_ (to_uint8 (Z.quot lost expected))
             (set_has_decreased_since_last_fraction_loss_ false
                (ReceiverBlockHeader rtt now_ms s))))).

(** A block that leaves the sample pending (the return of line 225). *)
Lemma UpdateReceiverBlock_pending fl rtt n now s :
  0 < n ->
  to_int (expected_packets_since_last_loss_update_ s + n) < kLimitNumPackets ->
  UpdateReceiverBlock fl rtt n now s =
  set_expected_packets_since_last_loss_update_
    (to_int (expected_packets_since_last_loss_update_ s + n))
    (set_lost_packets_since_last_loss_update_Q8_
       (to_int (lost_packets_since_last_loss_update_Q8_ s + to_int (fl * n)))
       (ReceiverBlockHeader rtt now s)).
Proof.
  intros Hn He. unfold UpdateReceiverBlock.
  fold (ReceiverBlockHeader rtt now s). rewrite ReceiverBlockHeader_eq.
  destruct (Z.gtb_spec n 0); [| lia].
  destruct s; sbe_simpl; sbe_simpl_all.
  match goal with
  | |- context [?a <? kLimitNumPackets] =>
      destruct (Z.ltb_spec a kLimitNumPackets); [reflexivity | lia]
  end.
Qed.

(** A block that completes a sample (lines 227-237). *)
Lemma UpdateReceiverBlock_sample fl rtt n now s :
  0 < n ->
  kLimitNumPackets <= to_int (expected_packets_since_last_loss_update_ s + n) ->
  UpdateReceiverBlock fl rtt n now s =
  UpdateUmaStats now rtt (Z.shiftr (to_int (fl * n)) 8)
    (UpdateEstimate now (SampleState fl rtt n now s)).
Proof.
  intros Hn He. unfold UpdateReceiverBlock, SampleState.
  fold (ReceiverBlockHeader rtt now s). rewrite ReceiverBlockHeader_eq.
  destruct (Z.gtb_spec n 0); [| lia].
  destruct s; sbe_simpl; sbe_simpl_all.
  match goal with
  | |- context [?a <? kLimitNumPackets] =>
      destruct (Z.ltb_spec a kLimitNumPackets); [lia | reflexivity]
  end.
Qed.

(** Packet counts beyond the range of the Q8 arithmetic.  With 8421505
    packets at loss 255 the product 2147483775 exceeds [INT_MAX] and wraps:
    the block stores loss 2, the tick raises the bitrate to 541000 and the
    metrics see -8388608 lost packets.  With 19 packets pending, a block of
    [INT_MAX] packets wraps the count to -2147483630 and takes the return
    of line 225. *)
Example UpdateReceiverBlock_product_wraps :
  let s := set_first_report_time_ms_ 0
             (SetBitrates default_trials 500000 10000 2000000 default_state) in
  let s' := UpdateReceiverBlock 255 100 8421505 5000 s in
  last_fraction_loss_ s' = 2 /\
  bitrate_ s' = 541000 /\
  uma_calls (sink_ s') = [(5000, 100, -8388608)].
Proof. vm_compute. repeat split. Qed.

Example UpdateReceiverBlock_count_wraps :
  let s := UpdateReceiverBlock 0 100 19 0 default_state in
  let s' := UpdateReceiverBlock 0 100 INT_MAX 10 s in
  expected_packets_since_last_loss_update_ s = 19 /\
  expected_packets_since_last_loss_update_ s' = -2147483630 /\
  uma_calls (sink_ s') = [].
Proof. vm_compute. repeat split. Qed.

(** ** The history along a sequence of calls *)

(** What a call does to [min_bitrate_history_]: nothing, a clear
    ([SetSendBitrate], line 163), the push of [UpdateMinHistory], or the
    clear and push of a start-up adoption (lines 284-285). *)
Inductive HistoryEffect :=
| Keeps
| Clears
| Pushes (x : Z * Z)
| Restarts (x : Z * Z).

Definition tick_effect (now_ms : Z) (s : SendSideBandwidthEstimation)
  : HistoryEffect :=
  if StartupAdopts now_ms s
  then Restarts (now_ms, bitrate_ (StartupTrust now_ms s))
  else Pushes (now_ms, bitrate_ s).

Definition history_effect (c : Call) (s : SendSideBandwidthEstimation)
  : HistoryEffect :=
  match c with
  | CallSetBitrates send_bitrate _ _ => if send_bitrate >? 0 then Clears else Keeps
  | CallSetSendBitrate _ => Clears
  | CallSetMinMaxBitrate _ _
  | CallUpdateReceiverEstimate _ _
  | CallUpdateDelayBasedEstimate _ _ => Keeps
  | CallUpdateReceiverBlock fraction_loss rtt number_of_packets now_ms =>
      if (number_of_packets >? 0) &&
         negb (to_int (expected_packets_since_last_loss_update_ s +
                       number_of_packets) <? kLimitNumPackets)
      then tick_effect now_ms
             (SampleState fraction_loss rtt number_of_packets now_ms s)
      else Keeps
  | CallUpdateEstimate now_ms => tick_effect now_ms s
  end.

Definition effect_on_history (e : HistoryEffect) (d : list (Z * Z))
  : list (Z * Z) :=
  match e with
  | Keeps => d
  | Clears => []
  | Pushes x => min_history_push (fst x) (snd x) d
  | Restarts x => [x]
  end.

(** The values pushed since the history was last cleared or restarted. *)
Definition effect_on_pushes (e : HistoryEffect) (p : list (Z * Z))
  : list (Z * Z) :=
  match e with
  | Keeps => p
  | Clears => []
  | Pushes x => p ++ [x]
  | Restarts x => [x]
  end.

Fixpoint pushes_since_clear (ft : FieldTrials) (cs : list Call)
  (s : SendSideBandwidthEstimation) (p : list (Z * Z)) : list (Z * Z) :=
  match cs with
  | [] => p
  | c :: cs' =>
      pushes_since_clear ft cs' (step ft c s)
        (effect_on_pushes (history_effect c s) p)
  end.

Lemma UpdateEstimate_history_effect now s :
  min_bitrate_history_ (UpdateEstimate now s) =
  effect_on_history (tick_effect now s) (min_bitrate_history_ s).
Proof.
  unfold tick_effect, StartupAdopts, UpdateEstimate.
  destruct (_ && IsInStartPhase now s); cbn [andb].
  - destruct (negb _) eqn:Ch; cbn [effect_on_history fst snd].
    + now destruct (StartupTrust now s).
    + apply negb_false_iff, Z.eqb_eq in Ch.
      now rewrite RegularUpdate_history, StartupTrust_history, Ch.
  - apply RegularUpdate_history.
Qed.

Lemma step_history_effect ft c s :
  min_bitrate_history_ (step ft c s) =
  effect_on_history (history_effect c s) (min_bitrate_history_ s).
Proof.
  destruct c as [b mn mx | b | mn mx | now bw | now b | fl rtt n now | now];
    cbn [step history_effect].
  - unfold SetBitrates, SetMinMaxBitrate, SetSendBitrate.
    destruct (b >? 0); destruct (mx >? 0); now destruct s.
  - unfold SetSendBitrate. now destruct s.
  - unfold SetMinMaxBitrate. destruct (mx >? 0); now destruct s.
  - unfold UpdateReceiverEstimate. rewrite Cap_then_store_history. now destruct s.
  - unfold UpdateDelayBasedEstimate. rewrite Cap_then_store_history.
    now destruct s.
  - assert (Hh : min_bitrate_history_ (ReceiverBlockHeader rtt now s) =
                 min_bitrate_history_ s)
      by (rewrite ReceiverBlockHeader_eq; now destruct s).
    destruct (Z.gtb_spec n 0) as [Hn | Hn]; cbn [andb].
    + destruct (Z.ltb_spec
                  (to_int (expected_packets_since_last_loss_update_ s + n))
                  kLimitNumPackets) as [Hp | Hp]; cbn [negb].
      * rewrite UpdateReceiverBlock_pending by lia.
        cbn [effect_on_history]. rewrite <- Hh.
        now destruct (ReceiverBlockHeader rtt now s).
      * rewrite UpdateReceiverBlock_sample by lia.
        rewrite UpdateUmaStats_history, UpdateEstimate_history_effect.
        f_equal. unfold SampleState. rewrite <- Hh.
        now destruct (ReceiverBlockHeader rtt now s).
    + rewrite UpdateReceiverBlock_no_packets by lia.
      cbn [effect_on_history]. now rewrite UpdateUmaStats_history.
  - apply UpdateEstimate_history_effect.
Qed.

(** The history is the replay of the values pushed since it was last
    cleared. *)
Lemma run_history_replay ft cs : forall s p,
  min_bitrate_history_ s = replay p [] ->
  min_bitrate_history_ (run ft cs s) = replay (pushes_since_clear ft cs s p) [].
Proof.
  unfold run. induction cs as [|c cs IH]; intros s p H;
    cbn [fold_left pushes_since_clear]; [exact H |].
  apply IH. rewrite step_history_effect, H.
  destruct (history_effect c s) as [| | x | [t b]];
    cbn [effect_on_history effect_on_pushes]; try reflexivity.
  now rewrite replay_snoc.
Qed.

Lemma history_effect_time c s x :
  history_effect c s = Pushes x \/ history_effect c s = Restarts x ->
  call_time c = Some (fst x).
Proof.
  assert (T : forall now s0,
             tick_effect now s0 = Pushes x \/ tick_effect now s0 = Restarts x ->
             now = fst x).
  { intros now s0. unfold tick_effect.
    destruct (StartupAdopts now s0); intros [H | H];
      try discriminate; now injection H as <-. }
  destruct c as [b mn mx | b | mn mx | now bw | now b | fl rtt n now | now];
    cbn [history_effect call_time]; intros H;
    try (destruct H as [H | H]; discriminate).
  - destruct (b >? 0); destruct H as [H | H]; discriminate.
  - destruct (_ && _); [| destruct H as [H | H]; discriminate].
    f_equal. exact (T _ _ H).
  - f_equal. exact (T _ _ H).
Qed.

(** With calls at nondecreasing times, so are the pushes. *)
Lemma pushes_since_clear_sorted ft cs : forall s p t,
  times_nondecreasing t cs ->
  StronglySorted Z.le (map fst p) ->
  Forall (fun x => fst x <= t) p ->
  StronglySorted Z.le (map fst (pushes_since_clear ft cs s p)).
Proof.
  induction cs as [|c cs IH]; intros s p t Ht Hp Ft;
    cbn [pushes_since_clear]; [exact Hp |].
  cbn [times_nondecreasing] in Ht.
  assert (K : forall t', t <= t' -> Forall (fun x => fst x <= t') p).
  { intros t' Hle. eapply Forall_impl; [| exact Ft]. cbn beta. intros; lia. }
  pose proof (history_effect_time c s) as Hc.
  destruct (history_effect c s) as [| | x | x]; cbn [effect_on_pushes].
  - destruct (call_time c) as [now |].
    + destruct Ht as [Hle Ht]. apply (IH _ _ now Ht Hp). now apply K.
    + now apply (IH _ _ t Ht Hp).
  - destruct (call_time c) as [now |].
    + destruct Ht as [Hle Ht]. apply (IH _ _ now Ht); constructor.
    + apply (IH _ _ t Ht); constructor.
  - rewrite (Hc x (or_introl eq_refl)) in Ht. destruct Ht as [Hle Ht].
    apply (IH _ _ (fst x) Ht).
    + rewrite map_app. apply StronglySorted_snoc; [exact Hp |].
      rewrite Forall_map. now apply K.
    + apply Forall_app. split; [now apply K | repeat constructor; lia].
  - rewrite (Hc x (or_intror eq_refl)) in Ht. destruct Ht as [Hle Ht].
    apply (IH _ _ (fst x) Ht); repeat constructor. lia.
Qed.

(** [SetSendBitrate] empties the history: the tick that follows finds as
    front the bitrate just set, although a smaller one was pushed 10 ms
    before. *)
Example min_bitrate_history_front_after_clear :
  let cs := [CallSetBitrates 100000 10000 2000000;
             CallUpdateReceiverBlock 2 100 30 3000;
             CallSetSendBitrate 500000;
             CallUpdateEstimate 3010] in
  min_bitrate_history_
    (run default_trials (firstn 2 cs) default_state) = [(3000, 100000)] /\
  min_bitrate_history_ (run default_trials cs default_state) = [(3010, 500000)] /\
  pushes_since_clear default_trials cs default_state [] = [(3010, 500000)].
Proof. vm_compute. repeat split. Qed.

(** C9, as the code has it.  Along any sequence of calls the bitrates of
    [min_bitrate_history_] stay strictly increasing from front to back.  Its
    timestamps stay nondecreasing (two entries may carry the same time)
    provided the times of the calls never decrease.  Every call acts on the
    history as [history_effect] says: [SetSendBitrate] clears it and a
    start-up adoption restarts it from the adopted bitrate; every other tick
    pushes through [UpdateMinHistory], which expires from the front the
    entries with [now_ms - time + 1 > kBweIncreaseIntervalMs]; nothing else
    touches it.  So, on an estimator that started with an empty history and
    is called at nondecreasing times, the history is the replay of the
    values pushed since it was last cleared or restarted (it is empty when
    there are none), and its front holds the smallest bitrate among those
    of them that lie in the window of the latest push. *)
Theorem min_bitrate_history_monotone_window_minimum :
  forall (ft : FieldTrials) (cs : list Call) (s : SendSideBandwidthEstimation)
         (t : Z),
    (StronglySorted bitrate_lt (min_bitrate_history_ s) ->
     StronglySorted bitrate_lt (min_bitrate_history_ (run ft cs s))) /\
    (times_nondecreasing t cs ->
     StronglySorted time_le (min_bitrate_history_ s) ->
     Forall (fun x => fst x <= t) (min_bitrate_history_ s) ->
     StronglySorted time_le (min_bitrate_history_ (run ft cs s))) /\
    (forall c s0,
       min_bitrate_history_ (step ft c s0) =
       effect_on_history (history_effect c s0) (min_bitrate_history_ s0)) /\
    (min_bitrate_history_ s = [] ->
     times_nondecreasing t cs ->
     let pushes := pushes_since_clear ft cs s [] in
     min_bitrate_history_ (run ft cs s) = replay pushes [] /\
     (pushes = [] -> min_bitrate_history_ (run ft cs s) = []) /\
     forall earlier now_ms b,
       pushes = earlier ++ [(now_ms, b)] ->
       exists f r,
         min_bitrate_history_ (run ft cs s) = f :: r /\
         In f pushes /\
         now_ms - fst f + 1 <= kBweIncreaseIntervalMs /\
         forall x, In x pushes ->
                   now_ms - fst x + 1 <= kBweIncreaseIntervalMs ->
                   snd f <= snd x).
Proof.
  intros ft cs s t. split; [apply run_bitrate_sorted |].
  split; [apply run_time_sorted |].
  split; [intros c s0; apply step_history_effect |].
  intros He Ht pushes.
  assert (R : min_bitrate_history_ (run ft cs s) = replay pushes [])
    by (apply run_history_replay; exact He).
  assert (S : StronglySorted Z.le (map fst pushes))
    by (apply (pushes_since_clear_sorted ft cs s [] t Ht); constructor).
  split; [exact R |]. split.
  - intros E. rewrite R, E. reflexivity.
  - intros earlier now b E. rewrite R, E. rewrite E in S.
    apply replay_front_is_window_minimum. exact S.
Qed.

Lemma min_bitrate_history_monotone_window_minimum_witness :
  let cs := [CallSetBitrates 100000 10000 2000000;
             CallUpdateReceiverBlock 2 100 30 3000;
             CallUpdateEstimate 3000] in
  StronglySorted bitrate_lt (min_bitrate_history_ (run default_trials cs default_state)) /\
  StronglySorted time_le (min_bitrate_history_ (run default_trials cs default_state)) /\
  pushes_since_clear default_trials cs default_state [] =
    [(3000, 100000); (3000, 109000)] /\
  exists f r,
    min_bitrate_history_ (run default_trials cs default_state) = f :: r /\
    In f [(3000, 100000); (3000, 109000)] /\
    3000 - fst f + 1 <= kBweIncreaseIntervalMs /\
    forall x, In x [(3000, 100000); (3000, 109000)] ->
              3000 - fst x + 1 <= kBweIncreaseIntervalMs -> snd f <= snd x.
Proof.
  cbv zeta.
  destruct (min_bitrate_history_monotone_window_minimum default_trials
              [CallSetBitrates 100000 10000 2000000;
               CallUpdateReceiverBlock 2 100 30 3000;
               CallUpdateEstimate 3000]
              default_state 0)
    as (A & B & _ & C).
  split; [apply A; constructor |].
  split; [apply B; [cbn; lia | constructor | constructor] |].
  assert (P : pushes_since_clear default_trials
                [CallSetBitrates 100000 10000 2000000;
                 CallUpdateReceiverBlock 2 100 30 3000;
                 CallUpdateEstimate 3000] default_state [] =
              [(3000, 100000); (3000, 109000)]) by (vm_compute; reflexivity).
  split; [exact P |].
  destruct (C eq_refl ltac:(cbn; lia)) as (_ & _ & F).
  rewrite P in F. exact (F [(3000, 100000)] 3000 109000 eq_refl).
Defined.


(** ** Feedback timeout *)

(** C4, counterexample to the claim as worded.  The timeout experiment is
    enabled and no receiver block has ever arrived: [last_packet_report_ms_]
    and [last_feedback_ms_] still hold -1, so at [now_ms = 5000] the three
    conditions of the claim hold as written; but the tick returns at line
    293 ("No feedback received") and makes no cut. *)
Lemma UpdateEstimate_no_timeout_cut_without_feedback :
  let s := SetBitrates timeout_trials 1000000 10000 2000000
             (InitialState timeout_trials kDefaultLowLossThreshold
                kDefaultHighLossThreshold 0) in
  in_timeout_experiment_ s = true /\
  5000 - last_packet_report_ms_ s >= 1800 /\
  5000 - last_feedback_ms_ s > 4500 /\
  last_timeout_ms_ s = -1 /\
  bitrate_ s = 1000000 /\
  bitrate_ (UpdateEstimate 5000 s) = 1000000 /\
  last_timeout_ms_ (UpdateEstimate 5000 s) = -1.
Proof. cbv zeta. repeat split; vm_compute; congruence. Qed.

(** C4, as the code has it.  On a tick that is not ended by an adoption at
    start-up and for which a packet report exists
    ([last_packet_report_ms_ <> -1]), with
    [now_ms - last_packet_report_ms_ >= 1800] and
    [now_ms - last_feedback_ms_ > 4500]: when moreover [last_timeout_ms_]
    is -1 or more than 1000 ms old and the timeout experiment is enabled,
    the bitrate is multiplied by 0.8 (the result truncated, then capped),
    both loss accumulators are zeroed and [last_timeout_ms_] becomes
    [now_ms]; when the experiment is disabled, or the last timeout is at
    most 1000 ms old, the bitrate is only capped and the accumulators and
    [last_timeout_ms_] keep their values. *)
Theorem UpdateEstimate_feedback_timeout :
  forall (now_ms : Z) (s : SendSideBandwidthEstimation),
    StartupAdopts now_ms s = false ->
    last_packet_report_ms_ s <> -1 ->
    0 <= bitrate_ s < 2 ^ 32 ->
    now_ms - last_packet_report_ms_ s >= 1800 ->
    now_ms - last_feedback_ms_ s > 4500 ->
    let s' := UpdateEstimate now_ms s in
    let timeout_due :=
      (last_timeout_ms_ s =? -1) || (now_ms - last_timeout_ms_ s >? 1000) in
    if timeout_due && in_timeout_experiment_ s then
      bitrate_ s' = fst (CapBitrateToThresholds now_ms (4 * bitrate_ s / 5) s) /\
      lost_packets_since_last_loss_update_Q8_ s' = 0 /\
      expected_packets_since_last_loss_update_ s' = 0 /\
      last_timeout_ms_ s' = now_ms
    else
      bitrate_ s' = fst (CapBitrateToThresholds now_ms (bitrate_ s) s) /\
      lost_packets_since_last_loss_update_Q8_ s' =
        lost_packets_since_last_loss_update_Q8_ s /\
      expected_packets_since_last_loss_update_ s' =
        expected_packets_since_last_loss_update_ s /\
      last_timeout_ms_ s' = last_timeout_ms_ s.
Proof.
  intros now s Hs Hp Hb Hpkt Hfb s' due. subst s' due.
  destruct (UpdateEstimate_regular now s Hs) as (l & k & ->).
  rewrite !Cap_fst. rewrite <- (TimedOutBitrate_eq _ Hb).
  unfold RegularUpdate, UpdateMinHistory.
  destruct s as [lq ex br mn mx ll hd fb pr tmo fl lg rt bi db td fr il b2 us ru
             re te lo hi bt mh sk]. sbe_simpl. sbe_simpl_all.
  destruct (Z.eqb_spec pr (-1)); [contradiction |].
  unfold LossBasedControl. sbe_simpl.
  rewrite FeedbackIsFresh_eq.
  destruct (Z.ltb_spec (now - pr) 1800); [lia |].
  change (kFeedbackTimeoutIntervals * kFeedbackIntervalMs) with 4500.
  destruct (Z.gtb_spec (now - fb) 4500); [| lia].
  cbn [andb]. change kTimeoutIntervalMs with 1000.
  destruct ((tmo =? -1) || (now - tmo >? 1000));
    destruct te; cbn [andb];
    match goal with
    | |- context [CapAndLog now ?x] =>
        destruct (CapAndLog_shape now x) as (l' & k' & g' & r' & ->)
    end; sbe_simpl; repeat split.
Qed.

Lemma UpdateEstimate_feedback_timeout_witness :
  let s := run timeout_trials
             [CallSetBitrates 1000000 10000 2000000;
              CallUpdateReceiverBlock 0 100 30 0]
             (InitialState timeout_trials kDefaultLowLossThreshold
                kDefaultHighLossThreshold 0) in
  bitrate_ s = 1081000 /\
  bitrate_ (UpdateEstimate 5000 s) = 864800 /\
  lost_packets_since_last_loss_update_Q8_ (UpdateEstimate 5000 s) = 0 /\
  expected_packets_since_last_loss_update_ (UpdateEstimate 5000 s) = 0 /\
  last_timeout_ms_ (UpdateEstimate 5000 s) = 5000.
Proof.
  cbv zeta. split; [reflexivity |].
  exact (UpdateEstimate_feedback_timeout 5000
           (run timeout_trials
              [CallSetBitrates 1000000 10000 2000000;
               CallUpdateReceiverBlock 0 100 30 0]
              (InitialState timeout_trials kDefaultLowLossThreshold
                 kDefaultHighLossThreshold 0))
           eq_refl ltac:(vm_compute; discriminate)
           ltac:(vm_compute; split; [discriminate | reflexivity])
           ltac:(vm_compute; discriminate) ltac:(vm_compute; reflexivity)).
Defined.

(** The feedback-timeout scenario: a cut at t = 5000, and none on the tick
    of t = 5500, within 1000 ms of the cut. *)
Example feedback_timeout_scenario :
  let s := run timeout_trials
             [CallSetBitrates 1000000 10000 2000000;
              CallUpdateReceiverBlock 0 100 30 0]
             (InitialState timeout_trials kDefaultLowLossThreshold
                kDefaultHighLossThreshold 0) in
  let s1 := UpdateEstimate 5000 s in
  let s2 := UpdateEstimate 5500 s1 in
  bitrate_ s = 1081000 /\ bitrate_ s1 = 864800 /\ last_timeout_ms_ s1 = 5000 /\
  bitrate_ s2 = 864800 /\ last_timeout_ms_ s2 = 5000.
Proof. vm_compute. repeat split. Qed.


(** ** Loss-based decrease *)

(** C5.  In the feedback-fresh branch (a tick not ended by an adoption at
    start-up, with a packet report less than 1800 ms old), when the bitrate
    is above [bitrate_threshold_bps_] and the loss [last_fraction_loss_ /
    256] is above [high_loss_threshold_]: the bitrate is decreased to
    [bitrate * (512 - last_fraction_loss_) / 512] (truncated, then capped)
    if and only if the decrease latch is clear and at least [300 +
    last_round_trip_time_ms_] ms have passed since the last decrease.  When
    it fires, [time_last_decrease_ms_] becomes [now_ms] and the latch is
    set; otherwise the bitrate is only capped and both fields keep their
    values.  A set latch rules the decrease out, so a second tick with the
    same loss fraction does not decrease again. *)
Theorem UpdateEstimate_high_loss_decrease :
  forall (now_ms : Z) (s : SendSideBandwidthEstimation),
    StartupAdopts now_ms s = false ->
    last_packet_report_ms_ s <> -1 ->
    now_ms - last_packet_report_ms_ s < 1800 ->
    0 <= bitrate_ s < 2 ^ 32 ->
    0 <= last_fraction_loss_ s <= 255 ->
    F32.leb (low_loss_threshold_ s) (high_loss_threshold_ s) = true ->
    bitrate_ s > bitrate_threshold_bps_ s ->
    F32.ltb (high_loss_threshold_ s) (LossOf s) = true ->
    let s' := UpdateEstimate now_ms s in
    let may_decrease :=
      negb (has_decreased_since_last_fraction_loss_ s) &&
      (now_ms - time_last_decrease_ms_ s >=?
         kBweDecreaseIntervalMs + last_round_trip_time_ms_ s) in
    if may_decrease then
      bitrate_ s' =
        fst (CapBitrateToThresholds now_ms
               (bitrate_ s * (512 - last_fraction_loss_ s) / 512) s) /\
      time_last_decrease_ms_ s' = now_ms /\
      has_decreased_since_last_fraction_loss_ s' = true
    else
      bitrate_ s' = fst (CapBitrateToThresholds now_ms (bitrate_ s) s) /\
      time_last_decrease_ms_ s' = time_last_decrease_ms_ s /\
      has_decreased_since_last_fraction_loss_ s' =
        has_decreased_since_last_fraction_loss_ s.
Proof.
  intros now s Hs Hp Hfresh Hb Hl Hlh Hthr Hhigh s' may_decrease. subst s' may_decrease.
  pose proof (SFltb_not_leb _ _ Hhigh) as Hnh.
  assert (Hnl : F32.leb (LossOf s) (low_loss_threshold_ s) = false).
  { destruct (F32.leb (LossOf s) (low_loss_threshold_ s)) eqn:E; [| reflexivity].
    unfold F32.leb in *. rewrite (SFleb_trans _ _ _ E Hlh) in Hnh. discriminate. }
  destruct (UpdateEstimate_regular now s Hs) as (l & k & ->).
  rewrite !Cap_fst. rewrite <- (DecreasedBitrate_eq _ _ Hb Hl).
  unfold RegularUpdate, UpdateMinHistory. unfold LossOf in *.
  destruct s as [lq ex br mn mx ll hd fb pr tmo fl lg rt bi db td fr il b2 us ru
             re te lo hi bt mh sk]. sbe_simpl. sbe_simpl_all.
  destruct (Z.eqb_spec pr (-1)); [contradiction |].
  unfold LossBasedControl, LossOf. sbe_simpl.
  rewrite FeedbackIsFresh_eq.
  destruct (Z.ltb_spec (now - pr) 1800); [| lia].
  destruct (Z.ltb_spec br bt); [lia |].
  destruct (Z.gtb_spec br bt); [| lia].
  unfold F32.leb in *. rewrite Hnl, Hnh. cbn [orb].
  destruct (negb hd && _);
    match goal with
    | |- context [CapAndLog now ?x] =>
        destruct (CapAndLog_shape now x) as (l' & k' & g' & r' & ->)
    end; sbe_simpl; repeat split.
Qed.

(** A state in the middle of a session: 500 kbps, a loss fraction of 64/256
    computed at t = 5000 from a report with 100 ms round-trip time. *)
Definition high_loss_state : SendSideBandwidthEstimation :=
  set_last_fraction_loss_ 64
    (set_last_packet_report_ms_ 5000
       (set_last_feedback_ms_ 5000
          (set_first_report_time_ms_ 0
             (set_last_round_trip_time_ms_ 100
                (SetBitrates default_trials 500000 10000 2000000 default_state))))).

Lemma UpdateEstimate_high_loss_decrease_witness :
  bitrate_ (UpdateEstimate 5000 high_loss_state) = 437500 /\
  time_last_decrease_ms_ (UpdateEstimate 5000 high_loss_state) = 5000 /\
  has_decreased_since_last_fraction_loss_ (UpdateEstimate 5000 high_loss_state) = true.
Proof.
  exact (UpdateEstimate_high_loss_decrease 5000 high_loss_state
           eq_refl ltac:(vm_compute; discriminate) ltac:(vm_compute; reflexivity)
           ltac:(vm_compute; split; [discriminate | reflexivity])
           ltac:(vm_compute; split; discriminate)
           eq_refl ltac:(vm_compute; reflexivity) eq_refl).
Defined.

(** The loss-based decrease scenario: the block of t = 5000 cuts 500 kbps to
    437.5 kbps and sets the latch; neither a tick nor a second block with
    the same loss at t = 5200 cuts again. *)
Example loss_based_decrease_scenario :
  let s1 := run default_trials
              [CallSetBitrates 500000 10000 2000000;
               CallUpdateReceiverBlock 64 100 40 5000] default_state in
  bitrate_ s1 = 437500 /\
  has_decreased_since_last_fraction_loss_ s1 = true /\
  bitrate_ (UpdateEstimate 5200 s1) = 437500 /\
  bitrate_ (UpdateReceiverBlock 64 100 40 5200 s1) = 437500.
Proof. vm_compute. repeat split. Qed.

(** ** Loss-based increase *)

Lemma IncreasedBitrate_round front :
  0 <= front <= INT_MAX ->
  IncreasedBitrate front = (108 * front + 50) / 100 + 1000.
Proof.
  intros H. rewrite (IncreasedBitrate_eq _ H). f_equal.
  replace (108 * front + 50) with (2 * (54 * front + 25)) by ring.
  change 100 with (2 * 50). now rewrite Z.div_mul_cancel_l by lia.
Qed.

Lemma front_bitrate_push now b d :
  0 <= b <= INT_MAX -> Forall (fun x => 0 <= snd x <= INT_MAX) d ->
  0 <= front_bitrate (min_history_push now b d) <= INT_MAX.
Proof.
  intros Hb Hd.
  destruct (min_history_push_front now b d) as (f & r & -> & _ & [Hf | ->]).
  - cbn [front_bitrate]. rewrite Forall_forall in Hd. now apply Hd.
  - exact Hb.
Qed.

(** C6.  In the feedback-fresh branch, when the bitrate is below
    [bitrate_threshold_bps_] or the loss [last_fraction_loss_ / 256] is at
    most [low_loss_threshold_], the bitrate before capping is
    [round(1.08 * front) + 1000], where [front] is the bitrate at the front
    of [min_bitrate_history_] once [UpdateMinHistory] has run and the
    rounding is to the nearest integer, [floor (1.08 * front + 1/2)]. *)
Theorem UpdateEstimate_low_loss_increase :
  forall (now_ms : Z) (s : SendSideBandwidthEstimation),
    StartupAdopts now_ms s = false ->
    last_packet_report_ms_ s <> -1 ->
    now_ms - last_packet_report_ms_ s < 1800 ->
    0 <= bitrate_ s <= INT_MAX ->
    Forall (fun x => 0 <= snd x <= INT_MAX) (min_bitrate_history_ s) ->
    bitrate_ s < bitrate_threshold_bps_ s \/
      F32.leb (LossOf s) (low_loss_threshold_ s) = true ->
    let front :=
      front_bitrate (min_bitrate_history_ (UpdateMinHistory now_ms s)) in
    bitrate_ (UpdateEstimate now_ms s) =
    fst (CapBitrateToThresholds now_ms ((108 * front + 50) / 100 + 1000) s).
Proof.
  intros now s Hs Hp Hfresh Hb Hh Hlow front. subst front.
  assert (Hf : 0 <= front_bitrate (min_bitrate_history_ (UpdateMinHistory now s))
               <= INT_MAX).
  { replace (min_bitrate_history_ (UpdateMinHistory now s))
      with (min_history_push now (bitrate_ s) (min_bitrate_history_ s))
      by now destruct s.
    now apply front_bitrate_push. }
  rewrite <- (IncreasedBitrate_round _ Hf). clear Hf Hb Hh.
  destruct (UpdateEstimate_regular now s Hs) as (l & k & ->).
  rewrite !Cap_fst.
  unfold RegularUpdate, UpdateMinHistory. unfold LossOf in *.
  destruct s as [lq ex br mn mx ll hd fb pr tmo fl lg rt bi db td fr il b2 us ru
             re te lo hi bt mh sk]. sbe_simpl. sbe_simpl_all.
  destruct (Z.eqb_spec pr (-1)); [contradiction |].
  unfold LossBasedControl, LossOf. sbe_simpl.
  rewrite FeedbackIsFresh_eq.
  destruct (Z.ltb_spec (now - pr) 1800); [| lia].
  assert (C : (br <? bt)
              || F32.leb (F32.div (F32.of_Z fl) f256)
                   lo = true).
  { destruct Hlow as [Hc | Hc]; [apply Z.ltb_lt in Hc | ]; rewrite Hc;
      [reflexivity | apply orb_true_r]. }
  rewrite C.
  match goal with
  | |- context [CapAndLog now ?x] =>
      destruct (CapAndLog_shape now x) as (l' & k' & g' & r' & ->)
  end. reflexivity.
Qed.

(** A steady 100 kbps window, and a loss fraction of 2/256 computed at
    t = 3000, after the start phase. *)
Definition low_loss_state : SendSideBandwidthEstimation :=
  set_last_fraction_loss_ 2
    (set_last_packet_report_ms_ 3000
       (set_last_feedback_ms_ 3000
          (set_first_report_time_ms_ 0
             (set_min_bitrate_history_ [(2500, 100000)]
                (SetBitrates default_trials 100000 10000 2000000 default_state))))).

Lemma UpdateEstimate_low_loss_increase_witness :
  front_bitrate (min_bitrate_history_ (UpdateMinHistory 3000 low_loss_state)) = 100000 /\
  bitrate_ (UpdateEstimate 3000 low_loss_state) = 109000.
Proof.
  split; [reflexivity |].
  exact (UpdateEstimate_low_loss_increase 3000 low_loss_state
           eq_refl ltac:(vm_compute; discriminate) ltac:(vm_compute; reflexivity)
           ltac:(vm_compute; split; discriminate)
           ltac:(repeat constructor; vm_compute; discriminate)
           (or_intror eq_refl)).
Defined.

(** The loss-based increase scenario: 100 kbps, then a block of 30 packets
    with loss 2/256 at t = 3000. *)
Example loss_based_increase_scenario :
  bitrate_ (run default_trials
              [CallSetBitrates 100000 10000 2000000;
               CallUpdateReceiverBlock 2 100 30 3000] default_state) = 109000.
Proof. reflexivity. Qed.


(** * Further properties *)

(** ** Capping: bounds, ceilings and the low-bitrate warning *)

(** X1.  The capped value is never below the configured minimum; it exceeds the
    configured maximum, a positive REMB value, a positive delay-based
    estimate or the bitrate offered only when the configured minimum does,
    and then it is the configured minimum. *)
Theorem CapBitrateToThresholds_bounds :
  forall (now_ms b : Z) (s : SendSideBandwidthEstimation),
    let r := fst (CapBitrateToThresholds now_ms b s) in
    min_bitrate_configured_ s <= r /\
    r <= Z.max (min_bitrate_configured_ s) (max_bitrate_configured_ s) /\
    r <= Z.max (min_bitrate_configured_ s) b /\
    (0 < bwe_incoming_ s ->
     r <= Z.max (min_bitrate_configured_ s) (bwe_incoming_ s)) /\
    (0 < delay_based_bitrate_bps_ s ->
     r <= Z.max (min_bitrate_configured_ s) (delay_based_bitrate_bps_ s)) /\
    (min_bitrate_configured_ s < r ->
     r <= b /\ r <= max_bitrate_configured_ s).
Proof.
  intros now b s r. subst r. rewrite Cap_fst.
  unfold cap_value, ceiling. repeat split; intros; zcases; lia.
Qed.

(** X2.  Capping is monotone in the bitrate offered, and a bitrate between the
    configured bounds and under both ceilings passes unchanged. *)
Theorem CapBitrateToThresholds_monotone :
  forall (now_ms now_ms' b b' : Z) (s : SendSideBandwidthEstimation),
    b <= b' ->
    fst (CapBitrateToThresholds now_ms b s) <=
      fst (CapBitrateToThresholds now_ms' b' s) /\
    (min_bitrate_configured_ s <= b <= max_bitrate_configured_ s ->
     (0 < bwe_incoming_ s -> b <= bwe_incoming_ s) ->
     (0 < delay_based_bitrate_bps_ s -> b <= delay_based_bitrate_bps_ s) ->
     CapBitrateToThresholds now_ms b s = (b, s)).
Proof.
  intros now now' b b' s H. split.
  - rewrite !Cap_fst. now apply cap_value_mono.
  - intros Hb Hr Hd. unfold CapBitrateToThresholds.
    destruct (Z.gtb_spec (bwe_incoming_ s) 0) as [P1 | P1]; cbn [andb].
    + destruct (Z.gtb_spec b (bwe_incoming_ s)); [specialize (Hr ltac:(lia)); lia |].
      destruct (Z.gtb_spec (delay_based_bitrate_bps_ s) 0) as [P2 | P2]; cbn [andb].
      * destruct (Z.gtb_spec b (delay_based_bitrate_bps_ s));
          [specialize (Hd ltac:(lia)); lia |].
        destruct (Z.gtb_spec b (max_bitrate_configured_ s)); [lia |].
        destruct (Z.ltb_spec b (min_bitrate_configured_ s)); [lia | reflexivity].
      * destruct (Z.gtb_spec b (max_bitrate_configured_ s)); [lia |].
        destruct (Z.ltb_spec b (min_bitrate_configured_ s)); [lia | reflexivity].
    + destruct (Z.gtb_spec (delay_based_bitrate_bps_ s) 0) as [P2 | P2]; cbn [andb].
      * destruct (Z.gtb_spec b (delay_based_bitrate_bps_ s));
          [specialize (Hd ltac:(lia)); lia |].
        destruct (Z.gtb_spec b (max_bitrate_configured_ s)); [lia |].
        destruct (Z.ltb_spec b (min_bitrate_configured_ s)); [lia | reflexivity].
      * destruct (Z.gtb_spec b (max_bitrate_configured_ s)); [lia |].
        destruct (Z.ltb_spec b (min_bitrate_configured_ s)); [lia | reflexivity].
Qed.

Lemma CapBitrateToThresholds_monotone_witness :
  let s := SetMinMaxBitrate default_trials 10000 1000000 default_state in
  fst (CapBitrateToThresholds 0 5000 s) <= fst (CapBitrateToThresholds 7 500000 s) /\
  CapBitrateToThresholds 0 500000 s = (500000, s).
Proof.
  cbv zeta.
  split.
  - exact (proj1 (CapBitrateToThresholds_monotone 0 7 5000 500000
                    (SetMinMaxBitrate default_trials 10000 1000000 default_state)
                    ltac:(lia))).
  - exact (proj2 (CapBitrateToThresholds_monotone 0 0 500000 500000
                    (SetMinMaxBitrate default_trials 10000 1000000 default_state)
                    ltac:(lia))
             ltac:(vm_compute; split; discriminate)
             ltac:(vm_compute; discriminate)
             ltac:(vm_compute; discriminate)).
Defined.

(** The low-bitrate warnings of a list of events. *)
Definition low_bitrate_warnings (l : list Event) : list (Z * Z) :=
  flat_map (fun e => match e with
                     | LowBitrateWarning kbps min_kbps => [(kbps, min_kbps)]
                     | _ => []
                     end) l.

(** What capping does to the state: the warning is issued exactly when the
    bitrate, after the three ceilings, is below the configured minimum and
    no warning was issued before or the last one is more than
    [kLowBitrateLogPeriodMs] old. *)
Lemma Cap_snd now b s :
  snd (CapBitrateToThresholds now b s) =
    if (Z.min (ceiling (delay_based_bitrate_bps_ s) (ceiling (bwe_incoming_ s) b))
              (max_bitrate_configured_ s) <? min_bitrate_configured_ s) &&
       ((last_low_bitrate_log_ms_ s =? -1) ||
        (now - last_low_bitrate_log_ms_ s >? kLowBitrateLogPeriodMs))
    then
      set_last_low_bitrate_log_ms_ now
        (emit (LowBitrateWarning
                 (Z.min (ceiling (delay_based_bitrate_bps_ s)
                           (ceiling (bwe_incoming_ s) b))
                        (max_bitrate_configured_ s) / 1000)
                 (min_bitrate_configured_ s / 1000)) s)
    else s.
Proof.
  unfold CapBitrateToThresholds, ceiling.
  set (w := (_ =? -1) || _). clearbody w.
  destruct (bwe_incoming_ s >? 0), (delay_based_bitrate_bps_ s >? 0);
    cbn [andb]; zcases; destruct w; cbn [snd andb];
    repeat match goal with
           | |- context [Z.min ?a ?b] =>
               first [ rewrite (Z.min_l a b) by lia
                     | rewrite (Z.min_r a b) by lia ]
           end; try reflexivity; try lia.
Qed.

(** X3.  The low-bitrate warning is rate-limited.  A capping at [now_ms] warns
    exactly when the bitrate after the three ceilings is below the
    configured minimum and no warning was issued before or the last one is
    more than [kLowBitrateLogPeriodMs] old; it then adds one warning to the
    sink.  After a capping that warned, any capping within the next
    [kLowBitrateLogPeriodMs] milliseconds, whatever bitrate it is offered,
    leaves the state untouched. *)
Theorem CapBitrateToThresholds_warning_rate_limited :
  forall (now_ms now_ms' b b' : Z) (s : SendSideBandwidthEstimation),
    let s1 := snd (CapBitrateToThresholds now_ms b s) in
    let below :=
      Z.min (ceiling (delay_based_bitrate_bps_ s) (ceiling (bwe_incoming_ s) b))
            (max_bitrate_configured_ s) in
    let warns :=
      (below <? min_bitrate_configured_ s) &&
      ((last_low_bitrate_log_ms_ s =? -1) ||
       (now_ms - last_low_bitrate_log_ms_ s >? kLowBitrateLogPeriodMs)) in
    low_bitrate_warnings (sink_ s1) =
      low_bitrate_warnings (sink_ s) ++
      (if warns then [(below / 1000, min_bitrate_configured_ s / 1000)] else []) /\
    (warns = true -> now_ms <> -1 ->
     now_ms' - now_ms <= kLowBitrateLogPeriodMs ->
     snd (CapBitrateToThresholds now_ms' b' s1) = s1).
Proof.
  intros now now' b b' s s1 below warns. subst s1 below warns.
  rewrite (Cap_snd now b s).
  set (below := Z.min _ _). set (warns := _ && _).
  destruct warns.
  - split.
    + destruct s; sbe_simpl. unfold low_bitrate_warnings.
      rewrite flat_map_app. reflexivity.
    + intros _ Hn Hd. rewrite Cap_snd.
      replace (last_low_bitrate_log_ms_ (set_last_low_bitrate_log_ms_ now _))
        with now by (destruct s; reflexivity).
      destruct (Z.eqb_spec now (-1)); [contradiction |].
      destruct (Z.gtb_spec (now' - now) kLowBitrateLogPeriodMs); [lia |].
      cbn [orb]. now rewrite andb_false_r.
  - split; [now rewrite app_nil_r | discriminate].
Qed.

Lemma CapBitrateToThresholds_warning_rate_limited_witness :
  let s := set_bitrate_ 5000 default_state in
  let s1 := snd (CapBitrateToThresholds 100 5000 s) in
  low_bitrate_warnings (sink_ s1) = [(5, 10)] /\
  snd (CapBitrateToThresholds 10100 4000 s1) = s1.
Proof.
  cbv zeta.
  destruct (CapBitrateToThresholds_warning_rate_limited 100 10100 5000 4000
              (set_bitrate_ 5000 default_state)) as [H1 H2].
  split; [exact H1 |].
  exact (H2 eq_refl ltac:(discriminate) ltac:(vm_compute; discriminate)).
Defined.

(** ** Receiver blocks: the loss accumulators *)

Lemma without_metrics_fields s s' :
  without_metrics s' = without_metrics s ->
  lost_packets_since_last_loss_update_Q8_ s' =
    lost_packets_since_last_loss_update_Q8_ s /\
  expected_packets_since_last_loss_update_ s' =
    expected_packets_since_last_loss_update_ s /\
  bitrate_ s' = bitrate_ s /\
  last_fraction_loss_ s' = last_fraction_loss_ s /\
  last_packet_report_ms_ s' = last_packet_report_ms_ s /\
  last_feedback_ms_ s' = last_feedback_ms_ s /\
  last_round_trip_time_ms_ s' = last_round_trip_time_ms_ s /\
  first_report_time_ms_ s' = first_report_time_ms_ s /\
  last_timeout_ms_ s' = last_timeout_ms_ s /\
  min_bitrate_history_ s' = min_bitrate_history_ s /\
  same_thresholds s s' /\
  in_timeout_experiment_ s' = in_timeout_experiment_ s /\
  low_loss_threshold_ s' = low_loss_threshold_ s /\
  high_loss_threshold_ s' = high_loss_threshold_ s /\
  bitrate_threshold_bps_ s' = bitrate_threshold_bps_ s /\
  has_decreased_since_last_fraction_loss_ s' =
    has_decreased_since_last_fraction_loss_ s /\
  time_last_decrease_ms_ s' = time_last_decrease_ms_ s.
Proof.
  intros H. destruct s, s'. unfold without_metrics in H. cbn in H.
  injection H; intros; subst. unfold same_thresholds. repeat split; reflexivity.
Qed.

(** The control loop leaves the accumulators alone, or zeroes both (the
    feedback timeout, lines 352-353). *)
Lemma LossBasedControl_accumulators now s :
  (lost_packets_since_last_loss_update_Q8_ (LossBasedControl now s) =
     lost_packets_since_last_loss_update_Q8_ s /\
   expected_packets_since_last_loss_update_ (LossBasedControl now s) =
     expected_packets_since_last_loss_update_ s) \/
  (lost_packets_since_last_loss_update_Q8_ (LossBasedControl now s) = 0 /\
   expected_packets_since_last_loss_update_ (LossBasedControl now s) = 0).
Proof.
  unfold LossBasedControl.
  split_ifs; destruct s; sbe_simpl; auto.
Qed.

Lemma UpdateEstimate_accumulators now s :
  (lost_packets_since_last_loss_update_Q8_ (UpdateEstimate now s) =
     lost_packets_since_last_loss_update_Q8_ s /\
   expected_packets_since_last_loss_update_ (UpdateEstimate now s) =
     expected_packets_since_last_loss_update_ s) \/
  (lost_packets_since_last_loss_update_Q8_ (UpdateEstimate now s) = 0 /\
   expected_packets_since_last_loss_update_ (UpdateEstimate now s) = 0).
Proof.
  destruct (StartupAdopts now s) eqn:A.
  - left. unfold StartupAdopts in A. unfold UpdateEstimate.
    apply andb_prop in A. destruct A as [A1 A2]. rewrite A1, A2.
    destruct (StartupTrust_shape now s) as (l & k & ->).
    destruct s; sbe_simpl. split; reflexivity.
  - destruct (UpdateEstimate_regular now s A) as (l & k & ->).
    unfold RegularUpdate, UpdateMinHistory.
    set (s0 := set_min_bitrate_history_ _ _).
    assert (E : lost_packets_since_last_loss_update_Q8_ s0 =
                  lost_packets_since_last_loss_update_Q8_ s /\
                expected_packets_since_last_loss_update_ s0 =
                  expected_packets_since_last_loss_update_ s)
      by (subst s0; destruct s; split; reflexivity).
    clearbody s0. destruct E as [E1 E2]. rewrite <- E1, <- E2.
    destruct (_ =? -1).
    + left. destruct (Cap_then_store_shape now (bitrate_ s0) s0) as (l' & k' & ->).
      destruct s0; split; reflexivity.
    + destruct (CapAndLog_shape now (LossBasedControl now s0))
        as (l' & k' & g & r & ->).
      destruct (LossBasedControl_accumulators now s0) as [[H1 H2] | [H1 H2]];
        [left | right]; rewrite <- H1, <- H2 || (split; [rewrite <- H1 | rewrite <- H2]);
        destruct (LossBasedControl now s0); sbe_simpl; try split; reflexivity.
Qed.

(** What a sample in progress looks like: fewer than [kLimitNumPackets]
    packets, and a Q8 loss sum that is at most 255 per packet. *)
Definition accumulators_ok (s : SendSideBandwidthEstimation) : Prop :=
  0 <= expected_packets_since_last_loss_update_ s < kLimitNumPackets /\
  0 <= lost_packets_since_last_loss_update_Q8_ s
    <= 255 * expected_packets_since_last_loss_update_ s.

(** [fraction_loss] is a [uint8_t], and [number_of_packets] is small enough
    for the Q8 loss sum of a sample, at most 255 per packet, to fit the
    [int] it is accumulated in (up to 8421484 packets per block). *)
Definition block_in_range (c : Call) : Prop :=
  match c with
  | CallUpdateReceiverBlock fraction_loss _ number_of_packets _ =>
      0 <= fraction_loss <= 255 /\
      255 * (number_of_packets + kLimitNumPackets) <= INT_MAX
  | _ => True
  end.

(** When 255 times the accumulated packet count fits an [int], so do the
    product and the two sums of lines 217-220: nothing wraps. *)
Lemma block_no_overflow fl n s :
  0 <= fl <= 255 -> 0 < n -> accumulators_ok s ->
  255 * (expected_packets_since_last_loss_update_ s + n) <= INT_MAX ->
  to_int (fl * n) = fl * n /\
  to_int (lost_packets_since_last_loss_update_Q8_ s + to_int (fl * n)) =
    lost_packets_since_last_loss_update_Q8_ s + fl * n /\
  to_int (expected_packets_since_last_loss_update_ s + n) =
    expected_packets_since_last_loss_update_ s + n.
Proof.
  intros Hfl Hn [He Hl] Hb. unfold INT_MAX in Hb.
  assert (O1 : to_int (fl * n) = fl * n)
    by (apply to_int_id; unfold INT_MAX; nia).
  rewrite O1. repeat split; apply to_int_id; unfold INT_MAX; nia.
Qed.

Lemma SampleState_accumulators fl rtt n now s :
  lost_packets_since_last_loss_update_Q8_ (SampleState fl rtt n now s) = 0 /\
  expected_packets_since_last_loss_update_ (SampleState fl rtt n now s) = 0.
Proof.
  unfold SampleState. rewrite ReceiverBlockHeader_eq.
  destruct s; split; reflexivity.
Qed.

Lemma SampleState_fields fl rtt n now s :
  last_fraction_loss_ (SampleState fl rtt n now s) =
    to_uint8 (Z.quot
                (to_int (lost_packets_since_last_loss_update_Q8_ s +
                         to_int (fl * n)))
                (to_int (expected_packets_since_last_loss_update_ s + n))) /\
  has_decreased_since_last_fraction_loss_ (SampleState fl rtt n now s) = false /\
  last_packet_report_ms_ (SampleState fl rtt n now s) = now /\
  last_feedback_ms_ (SampleState fl rtt n now s) = now /\
  last_round_trip_time_ms_ (SampleState fl rtt n now s) = rtt.
Proof.
  unfold SampleState. rewrite ReceiverBlockHeader_eq.
  destruct s; repeat split; reflexivity.
Qed.

(** Every call keeps the sample in progress well-formed. *)
Lemma step_accumulators_ok ft c s :
  block_in_range c -> accumulators_ok s -> accumulators_ok (step ft c s).
Proof.
  unfold accumulators_ok. intros Hc [He Hl].
  destruct c as [b mn mx | b | mn mx | now bw | now b | fl rtt n now | now];
    cbn [step block_in_range] in *.
  - unfold SetBitrates, SetMinMaxBitrate, SetSendBitrate.
    split_ifs; destruct s; sbe_simpl; sbe_simpl_all; split; assumption.
  - unfold SetSendBitrate. destruct s; sbe_simpl; sbe_simpl_all; split; assumption.
  - unfold SetMinMaxBitrate.
    split_ifs; destruct s; sbe_simpl; sbe_simpl_all; split; assumption.
  - unfold UpdateReceiverEstimate.
    destruct (Cap_then_store_shape now (bitrate_ (set_bwe_incoming_ bw s))
                (set_bwe_incoming_ bw s)) as (l & k & ->).
    destruct s; sbe_simpl; sbe_simpl_all; split; assumption.
  - unfold UpdateDelayBasedEstimate.
    destruct (Cap_then_store_shape now
                (bitrate_ (set_delay_based_bitrate_bps_ b s))
                (set_delay_based_bitrate_bps_ b s)) as (l & k & ->).
    destruct s; sbe_simpl; sbe_simpl_all; split; assumption.
  - destruct Hc as [Hfl Hb].
    assert (Hh : expected_packets_since_last_loss_update_
                   (ReceiverBlockHeader rtt now s) =
                 expected_packets_since_last_loss_update_ s /\
                 lost_packets_since_last_loss_update_Q8_
                   (ReceiverBlockHeader rtt now s) =
                 lost_packets_since_last_loss_update_Q8_ s)
      by (rewrite ReceiverBlockHeader_eq; destruct s; split; reflexivity).
    destruct Hh as [Hh1 Hh2].
    destruct (Z.ltb_spec 0 n) as [Hn | Hn].
    + destruct (block_no_overflow fl n s Hfl Hn (conj He Hl)) as (O1 & O2 & O3);
        [unfold kLimitNumPackets in *; lia |].
      destruct (Z.ltb_spec (expected_packets_since_last_loss_update_ s + n)
                  kLimitNumPackets) as [Hs | Hs].
      * rewrite UpdateReceiverBlock_pending by (rewrite ?O3; lia).
        rewrite O2, O3.
        set (h := ReceiverBlockHeader rtt now s). clearbody h.
        destruct h; sbe_simpl. unfold kLimitNumPackets in *. nia.
      * rewrite UpdateReceiverBlock_sample by (rewrite ?O3; lia).
        destruct (UpdateUmaStats_frame now rtt (Z.shiftr (to_int (fl * n)) 8)
                    (UpdateEstimate now (SampleState fl rtt n now s)))
          as [F _].
        apply without_metrics_fields in F. destruct F as (F1 & F2 & _).
        rewrite F1, F2.
        destruct (SampleState_accumulators fl rtt n now s) as [Z1 Z2].
        destruct (UpdateEstimate_accumulators now (SampleState fl rtt n now s))
          as [[A1 A2] | [A1 A2]];
          rewrite A1, A2, ?Z1, ?Z2; unfold kLimitNumPackets; lia.
    + rewrite (UpdateReceiverBlock_no_packets _ _ _ _ _ Hn).
      destruct (UpdateUmaStats_frame now rtt (Z.shiftr (to_int (fl * n)) 8)
                  (ReceiverBlockHeader rtt now s)) as [F _].
      apply without_metrics_fields in F. destruct F as (F1 & F2 & _).
      rewrite F1, F2, Hh1, Hh2. split; assumption.
  - destruct (UpdateEstimate_accumulators now s) as [[A1 A2] | [A1 A2]];
      rewrite A1, A2; [split; assumption | unfold kLimitNumPackets; lia].
Qed.

(** X4.  As long as every receiver block carries a [uint8_t] loss fraction
    and a packet count for which the [int] arithmetic of lines 217-220
    cannot wrap (255 times the count plus [kLimitNumPackets] is at most
    [INT_MAX]), the loss sample in progress never reaches [kLimitNumPackets]
    packets between two calls, and its Q8 loss sum never exceeds 255 per
    packet: the invariant holds after construction and every operation
    keeps it, so the division of line 228 is by at least [kLimitNumPackets]
    and its quotient fits in the [uint8_t] it is stored in. *)
Theorem run_accumulators_ok :
  forall (ft : FieldTrials) (cs : list Call) (s : SendSideBandwidthEstimation),
    Forall block_in_range cs ->
    accumulators_ok s ->
    accumulators_ok (run ft cs s).
Proof.
  intros ft cs. unfold run.
  induction cs as [|c cs IH]; intros s Hcs Hs; cbn [fold_left]; [exact Hs |].
  apply Forall_cons_iff in Hcs. destruct Hcs as [Hc Hcs].
  apply IH; [exact Hcs |]. now apply step_accumulators_ok.
Qed.

Lemma run_accumulators_ok_witness :
  accumulators_ok
    (run default_trials
       [CallSetBitrates 300000 10000 2000000;
        CallUpdateReceiverBlock 255 100 15 0;
        CallUpdateReceiverBlock 0 100 4 10;
        CallUpdateEstimate 20] default_state) /\
  expected_packets_since_last_loss_update_
    (run default_trials
       [CallSetBitrates 300000 10000 2000000;
        CallUpdateReceiverBlock 255 100 15 0;
        CallUpdateReceiverBlock 0 100 4 10;
        CallUpdateEstimate 20] default_state) = 19.
Proof.
  split; [| reflexivity].
  apply (run_accumulators_ok default_trials
           [CallSetBitrates 300000 10000 2000000;
            CallUpdateReceiverBlock 255 100 15 0;
            CallUpdateReceiverBlock 0 100 4 10;
            CallUpdateEstimate 20] default_state).
  - repeat apply Forall_cons; try apply Forall_nil; cbn;
      try exact I; vm_compute; repeat split; discriminate.
  - vm_compute. repeat split; discriminate.
Defined.

(** X5.  A receiver block that completes a sample ([number_of_packets > 0] and at
    least [kLimitNumPackets] packets accumulated with it), with a packet
    count for which the [int] arithmetic of lines 217-220 cannot wrap (255
    times the accumulated count is at most [INT_MAX]), stores as
    [last_fraction_loss_] the packet-weighted mean of the loss fractions
    accumulated, [(lost_Q8 + fraction_loss * n) / (expected + n)], which is
    at most 255; it empties both accumulators and stamps
    [last_packet_report_ms_], [last_feedback_ms_] and
    [last_round_trip_time_ms_].  A single block of at least
    [kLimitNumPackets] packets on empty accumulators stores its own
    [fraction_loss]. *)
Theorem UpdateReceiverBlock_loss_fraction :
  forall (fraction_loss rtt number_of_packets now_ms : Z)
         (s : SendSideBandwidthEstimation),
    0 <= fraction_loss <= 255 ->
    accumulators_ok s ->
    0 < number_of_packets ->
    kLimitNumPackets <=
      expected_packets_since_last_loss_update_ s + number_of_packets ->
    255 * (expected_packets_since_last_loss_update_ s + number_of_packets)
      <= INT_MAX ->
    let s' := UpdateReceiverBlock fraction_loss rtt number_of_packets now_ms s in
    last_fraction_loss_ s' =
      (lost_packets_since_last_loss_update_Q8_ s +
       fraction_loss * number_of_packets) /
      (expected_packets_since_last_loss_update_ s + number_of_packets) /\
    0 <= last_fraction_loss_ s' <= 255 /\
    lost_packets_since_last_loss_update_Q8_ s' = 0 /\
    expected_packets_since_last_loss_update_ s' = 0 /\
    last_packet_report_ms_ s' = now_ms /\
    last_feedback_ms_ s' = now_ms /\
    last_round_trip_time_ms_ s' = rtt /\
    (expected_packets_since_last_loss_update_ s = 0 ->
     last_fraction_loss_ s' = fraction_loss).
Proof.
  intros fl rtt n now s Hfl [He Hl] Hn Hs Hb s'. subst s'.
  destruct (block_no_overflow fl n s Hfl Hn (conj He Hl) Hb) as (O1 & O2 & O3).
  rewrite UpdateReceiverBlock_sample by (rewrite ?O3; lia).
  destruct (SampleState_fields fl rtt n now s) as (P1 & _ & P4 & P5 & P6).
  destruct (SampleState_accumulators fl rtt n now s) as (P2 & P3).
  rewrite O2, O3 in P1.
  set (s0 := SampleState fl rtt n now s) in *. clearbody s0.
  revert P1.
  set (L := lost_packets_since_last_loss_update_Q8_ s + fl * n).
  set (E := expected_packets_since_last_loss_update_ s + n).
  assert (HE : 0 < E) by (unfold kLimitNumPackets in *; lia).
  assert (HL : 0 <= L <= 255 * E) by (subst L E; nia).
  assert (Hq : 0 <= L / E <= 255).
  { split; [apply Z.div_pos; lia |].
    apply Z.div_le_upper_bound; lia. }
  assert (Hu : to_uint8 (Z.quot L E) = L / E).
  { rewrite Z.quot_div_nonneg by lia. unfold to_uint8.
    apply Z.mod_small. lia. }
  rewrite Hu. intros P1.
  destruct (UpdateUmaStats_frame now rtt (Z.shiftr (to_int (fl * n)) 8)
              (UpdateEstimate now s0)) as [F _].
  apply without_metrics_fields in F.
  destruct F as (F1 & F2 & _ & F4 & F5 & F6 & F7 & _).
  rewrite F1, F2, F4, F5, F6, F7.
  pose proof (UpdateEstimate_same_inputs now s0) as I.
  apply same_inputs_fields in I.
  destruct I as (_ & I1 & I2 & I3 & _ & I5 & _).
  rewrite I1, I2, I3, I5, P1, P4, P5, P6.
  assert (A : lost_packets_since_last_loss_update_Q8_ (UpdateEstimate now s0) = 0 /\
              expected_packets_since_last_loss_update_ (UpdateEstimate now s0) = 0).
  { destruct (UpdateEstimate_accumulators now s0) as [[A1 A2] | [A1 A2]];
      rewrite A1, A2; split; assumption || reflexivity. }
  destruct A as [A1 A2]. rewrite A1, A2.
  repeat split; try lia.
  intros Hz. subst L E.
  assert (lost_packets_since_last_loss_update_Q8_ s = 0) by lia.
  replace (lost_packets_since_last_loss_update_Q8_ s + fl * n) with (fl * n) by lia.
  rewrite Hz, Z.add_0_l. apply Z.div_mul. lia.
Qed.

Lemma UpdateReceiverBlock_loss_fraction_witness :
  let s := run default_trials
             [CallSetBitrates 300000 10000 2000000;
              CallUpdateReceiverBlock 64 100 10 0] default_state in
  last_fraction_loss_ (UpdateReceiverBlock 0 120 30 50 s) = 16 /\
  CurrentEstimate (UpdateReceiverBlock 64 120 30 50 default_state)
    = (10000, 64, 120) /\
  last_fraction_loss_ (UpdateReceiverBlock 64 120 30 50 default_state) = 64.
Proof.
  cbv zeta. split; [| split; [reflexivity |]].
  - exact (proj1 (UpdateReceiverBlock_loss_fraction 0 120 30 50
                    (run default_trials
                       [CallSetBitrates 300000 10000 2000000;
                        CallUpdateReceiverBlock 64 100 10 0] default_state)
                    ltac:(lia)
                    ltac:(vm_compute; repeat split; discriminate)
                    ltac:(lia) ltac:(vm_compute; discriminate)
                    ltac:(vm_compute; discriminate))).
  - destruct (UpdateReceiverBlock_loss_fraction 64 120 30 50 default_state
                ltac:(lia)
                ltac:(vm_compute; repeat split; discriminate)
                ltac:(lia) ltac:(vm_compute; discriminate)
                ltac:(vm_compute; discriminate))
      as (_ & _ & _ & _ & _ & _ & _ & H).
    exact (H eq_refl).
Defined.

(** ** Ticks that only cap *)

(** X6.  Between the loss thresholds the estimate is held (line 322, "Loss
    between 2% - 10%: Do nothing"): in the feedback-fresh branch, with the
    loss above [low_loss_threshold_], a bitrate equal to
    [bitrate_threshold_bps_], or above it with the loss at most
    [high_loss_threshold_], is only capped; the decrease latch, the time of
    the last decrease, the accumulators and [last_timeout_ms_] keep their
    values. *)
Theorem UpdateEstimate_hold :
  forall (now_ms : Z) (s : SendSideBandwidthEstimation),
    StartupAdopts now_ms s = false ->
    last_packet_report_ms_ s <> -1 ->
    now_ms - last_packet_report_ms_ s < 1800 ->
    F32.leb (LossOf s) (low_loss_threshold_ s) = false ->
    bitrate_ s = bitrate_threshold_bps_ s \/
      (bitrate_ s > bitrate_threshold_bps_ s /\
       F32.leb (LossOf s) (high_loss_threshold_ s) = true) ->
    let s' := UpdateEstimate now_ms s in
    bitrate_ s' = fst (CapBitrateToThresholds now_ms (bitrate_ s) s) /\
    has_decreased_since_last_fraction_loss_ s' =
      has_decreased_since_last_fraction_loss_ s /\
    time_last_decrease_ms_ s' = time_last_decrease_ms_ s /\
    lost_packets_since_last_loss_update_Q8_ s' =
      lost_packets_since_last_loss_update_Q8_ s /\
    expected_packets_since_last_loss_update_ s' =
      expected_packets_since_last_loss_update_ s /\
    last_timeout_ms_ s' = last_timeout_ms_ s.
Proof.
  intros now s Hs Hp Hfresh Hlow Hzone s'. subst s'.
  destruct (UpdateEstimate_regular now s Hs) as (l & k & ->).
  rewrite !Cap_fst.
  unfold RegularUpdate, UpdateMinHistory. unfold LossOf in *.
  destruct s as [lq ex br mn mx ll hd fb pr tmo fl lg rt bi db td fr il b2 us ru
                 re te lo hi bt mh sk]. sbe_simpl. sbe_simpl_all.
  destruct (Z.eqb_spec pr (-1)); [contradiction |].
  unfold LossBasedControl, LossOf. sbe_simpl.
  rewrite FeedbackIsFresh_eq.
  destruct (Z.ltb_spec (now - pr) 1800); [| lia].
  unfold F32.leb in *. rewrite Hlow.
  destruct Hzone as [-> | [Hgt Hhigh]].
  - rewrite Z.ltb_irrefl. cbn [orb].
    destruct (Z.gtb_spec bt bt); [lia |].
    match goal with
    | |- context [CapAndLog now ?x] =>
        destruct (CapAndLog_shape now x) as (l' & k' & g' & r' & ->)
    end; sbe_simpl; repeat split.
  - destruct (Z.ltb_spec br bt); [lia |]. cbn [orb].
    destruct (Z.gtb_spec br bt); [| lia]. rewrite Hhigh.
    match goal with
    | |- context [CapAndLog now ?x] =>
        destruct (CapAndLog_shape now x) as (l' & k' & g' & r' & ->)
    end; sbe_simpl; repeat split.
Qed.

(** 500 kbps, a loss fraction of 13/256 (about 5%) computed at t = 5000. *)
Definition moderate_loss_state : SendSideBandwidthEstimation :=
  set_last_fraction_loss_ 13
    (set_last_packet_report_ms_ 5000
       (set_last_feedback_ms_ 5000
          (set_first_report_time_ms_ 0
             (SetBitrates default_trials 500000 10000 2000000 default_state)))).

Lemma UpdateEstimate_hold_witness :
  bitrate_ (UpdateEstimate 5100 moderate_loss_state) = 500000.
Proof.
  exact (proj1 (UpdateEstimate_hold 5100 moderate_loss_state
                  eq_refl ltac:(vm_compute; discriminate)
                  ltac:(vm_compute; reflexivity) eq_refl
                  (or_intror (conj eq_refl eq_refl)))).
Defined.

(** X7.  Without a packet report ([last_packet_report_ms_ = -1], line 290), or
    with one that is at least 1800 ms old while the last feedback is at
    most 4500 ms old, a tick that adopts no start-up hint changes the
    bitrate by capping only, and leaves the decrease latch, the time of the
    last decrease, the accumulators and [last_timeout_ms_] as they were. *)
Theorem UpdateEstimate_without_fresh_feedback :
  forall (now_ms : Z) (s : SendSideBandwidthEstimation),
    StartupAdopts now_ms s = false ->
    last_packet_report_ms_ s = -1 \/
      (now_ms - last_packet_report_ms_ s >= 1800 /\
       now_ms - last_feedback_ms_ s <= 4500) ->
    let s' := UpdateEstimate now_ms s in
    bitrate_ s' = fst (CapBitrateToThresholds now_ms (bitrate_ s) s) /\
    has_decreased_since_last_fraction_loss_ s' =
      has_decreased_since_last_fraction_loss_ s /\
    time_last_decrease_ms_ s' = time_last_decrease_ms_ s /\
    lost_packets_since_last_loss_update_Q8_ s' =
      lost_packets_since_last_loss_update_Q8_ s /\
    expected_packets_since_last_loss_update_ s' =
      expected_packets_since_last_loss_update_ s /\
    last_timeout_ms_ s' = last_timeout_ms_ s.
Proof.
  intros now s Hs Hcase s'. subst s'.
  destruct (UpdateEstimate_regular now s Hs) as (l & k & ->).
  rewrite !Cap_fst.
  unfold RegularUpdate, UpdateMinHistory.
  destruct s as [lq ex br mn mx ll hd fb pr tmo fl lg rt bi db td fr il b2 us ru
                 re te lo hi bt mh sk]. sbe_simpl. sbe_simpl_all.
  destruct Hcase as [-> | [Hpkt Hfb]].
  - cbn [Z.eqb Pos.eqb].
    match goal with
    | |- context [CapBitrateToThresholds now ?b ?x] =>
        destruct (Cap_then_store_shape now b x) as (l' & k' & ->)
    end. sbe_simpl. repeat split.
  - destruct (Z.eqb_spec pr (-1)).
    + match goal with
      | |- context [CapBitrateToThresholds now ?b ?x] =>
          destruct (Cap_then_store_shape now b x) as (l' & k' & ->)
      end. sbe_simpl. repeat split.
    + unfold LossBasedControl. sbe_simpl.
      rewrite FeedbackIsFresh_eq.
      destruct (Z.ltb_spec (now - pr) 1800); [lia |].
      change (kFeedbackTimeoutIntervals * kFeedbackIntervalMs) with 4500.
      destruct (Z.gtb_spec (now - fb) 4500); [lia |]. cbn [andb].
      match goal with
      | |- context [CapAndLog now ?x] =>
          destruct (CapAndLog_shape now x) as (l' & k' & g' & r' & ->)
      end; sbe_simpl; repeat split.
Qed.

Lemma UpdateEstimate_without_fresh_feedback_witness :
  let s := SetBitrates default_trials 2500000 10000 2000000 default_state in
  bitrate_ (UpdateEstimate 100 s) = 2000000 /\
  bitrate_ (UpdateEstimate 200 (UpdateEstimate 100 s)) = 2000000.
Proof.
  cbv zeta. split.
  - exact (proj1 (UpdateEstimate_without_fresh_feedback 100
                    (SetBitrates default_trials 2500000 10000 2000000 default_state)
                    eq_refl (or_introl eq_refl))).
  - exact (proj1 (UpdateEstimate_without_fresh_feedback 200
                    (UpdateEstimate 100
                       (SetBitrates default_trials 2500000 10000 2000000
                          default_state))
                    eq_refl (or_introl eq_refl))).
Defined.

(** ** The event log *)

(** The entries handed to [event_log_->LogLossBasedBweUpdate]. *)
Definition bwe_updates (l : list Event) : list (Z * Z * Z) :=
  flat_map (fun e => match e with
                     | LogLossBasedBweUpdate b f t => [(b, f, t)]
                     | _ => []
                     end) l.

Lemma bwe_updates_app l l' : bwe_updates (l ++ l') = bwe_updates l ++ bwe_updates l'.
Proof. apply flat_map_app. Qed.

(** [s'] is [s] with events added, none of them for the event log, and
    with the same event-log bookkeeping. *)
Definition no_log_entry (s s' : SendSideBandwidthEstimation) : Prop :=
  (exists evs, sink_ s' = sink_ s ++ evs /\ bwe_updates evs = []) /\
  last_rtc_event_log_ms_ s' = last_rtc_event_log_ms_ s /\
  last_logged_fraction_loss_ s' = last_logged_fraction_loss_ s.

Lemma no_log_entry_refl s : no_log_entry s s.
Proof.
  split; [exists []; now rewrite app_nil_r | split; reflexivity].
Qed.

Lemma no_log_entry_trans s1 s2 s3 :
  no_log_entry s1 s2 -> no_log_entry s2 s3 -> no_log_entry s1 s3.
Proof.
  intros [(e1 & S1 & B1) [R1 L1]] [(e2 & S2 & B2) [R2 L2]].
  split; [| split; congruence].
  exists (e1 ++ e2). rewrite S2, S1, app_assoc, bwe_updates_app, B1, B2.
  split; reflexivity.
Qed.

Lemma Cap_no_log_entry now b s :
  no_log_entry s (snd (CapBitrateToThresholds now b s)).
Proof.
  rewrite Cap_snd. destruct (_ && _); [| apply no_log_entry_refl].
  destruct s; sbe_simpl. split; [| split; reflexivity].
  eexists. split; reflexivity.
Qed.

Lemma set_bitrate_no_log_entry b s : no_log_entry s (set_bitrate_ b s).
Proof.
  destruct s. split; [exists []; now rewrite app_nil_r | split; reflexivity].
Qed.

Lemma Cap_then_store_no_log_entry now b s :
  no_log_entry s (let '(b', s') := CapBitrateToThresholds now b s in
                  set_bitrate_ b' s').
Proof.
  pose proof (Cap_no_log_entry now b s) as H.
  destruct (CapBitrateToThresholds now b s) as [b' s']. cbn [snd] in H.
  eapply no_log_entry_trans; [exact H | apply set_bitrate_no_log_entry].
Qed.

Lemma StartupTrust_no_log_entry now s : no_log_entry s (StartupTrust now s).
Proof.
  unfold StartupTrust.
  set (s1 := if bwe_incoming_ s >? bitrate_ s then _ else s).
  assert (H1 : no_log_entry s s1).
  { subst s1. destruct (_ >? _);
      [apply Cap_then_store_no_log_entry | apply no_log_entry_refl]. }
  clearbody s1.
  eapply no_log_entry_trans; [exact H1 |].
  destruct (_ >? _); [apply Cap_then_store_no_log_entry | apply no_log_entry_refl].
Qed.

Lemma LossBasedControl_no_log_entry now s :
  no_log_entry s (LossBasedControl now s).
Proof.
  unfold LossBasedControl.
  split_ifs; try apply no_log_entry_refl; destruct s; sbe_simpl;
    (split; [| split; reflexivity]);
    first [ exists []; now rewrite app_nil_r | eexists; split; reflexivity ].
Qed.

(** The decision of lines 358-361. *)
Definition event_log_due (now_ms capped_bitrate : Z)
  (s : SendSideBandwidthEstimation) : bool :=
  negb (capped_bitrate =? bitrate_ s) ||
  negb (last_fraction_loss_ s =? last_logged_fraction_loss_ s) ||
  (last_rtc_event_log_ms_ s =? -1) ||
  (now_ms - last_rtc_event_log_ms_ s >? kRtcEventLogPeriodMs).

Lemma CapAndLog_event_log now s :
  let s' := CapAndLog now s in
  exists evs,
    sink_ s' = sink_ s ++ evs /\
    if event_log_due now (cap_value s (bitrate_ s)) s then
      bwe_updates evs =
        [(bitrate_ s', last_fraction_loss_ s',
          expected_packets_since_last_loss_update_ s')] /\
      last_rtc_event_log_ms_ s' = now /\
      last_logged_fraction_loss_ s' = last_fraction_loss_ s'
    else
      bwe_updates evs = [] /\
      last_rtc_event_log_ms_ s' = last_rtc_event_log_ms_ s /\
      last_logged_fraction_loss_ s' = last_logged_fraction_loss_ s.
Proof.
  cbv zeta. unfold CapAndLog, event_log_due.
  rewrite <- (Cap_fst now (bitrate_ s) s).
  pose proof (Cap_snd now (bitrate_ s) s) as H.
  destruct (CapBitrateToThresholds now (bitrate_ s) s) as [b' s1].
  cbn [fst snd] in *. subst s1.
  destruct (_ && _).
  - destruct s; sbe_simpl.
    destruct (_ || _); sbe_simpl; eexists;
      (split; [rewrite <- ?app_assoc; reflexivity |]); repeat split.
  - destruct s; sbe_simpl.
    destruct (_ || _); sbe_simpl;
      first [ exists []; rewrite app_nil_r; repeat split; reflexivity
            | eexists; split; [reflexivity | repeat split] ].
Qed.

Lemma UpdateMinHistory_no_log_entry now s : no_log_entry s (UpdateMinHistory now s).
Proof.
  unfold UpdateMinHistory. destruct s.
  split; [exists []; now rewrite app_nil_r | split; reflexivity].
Qed.

(** What a tick does to the event log, stated for the regular update. *)
Definition event_log_effect (now : Z) (s s' : SendSideBandwidthEstimation)
  (evs : list Event) : Prop :=
  (bwe_updates evs = [] /\
   last_rtc_event_log_ms_ s' = last_rtc_event_log_ms_ s /\
   last_logged_fraction_loss_ s' = last_logged_fraction_loss_ s) \/
  (bwe_updates evs =
     [(bitrate_ s', last_fraction_loss_ s',
       expected_packets_since_last_loss_update_ s')] /\
   last_rtc_event_log_ms_ s' = now /\
   last_logged_fraction_loss_ s' = last_fraction_loss_ s').

Lemma RegularUpdate_event_log now s :
  exists evs,
    sink_ (RegularUpdate now s) = sink_ s ++ evs /\
    event_log_effect now s (RegularUpdate now s) evs /\
    (last_packet_report_ms_ s = -1 -> bwe_updates evs = []) /\
    (last_packet_report_ms_ s <> -1 ->
     last_rtc_event_log_ms_ s = -1 \/
     now - last_rtc_event_log_ms_ s > kRtcEventLogPeriodMs \/
     last_fraction_loss_ s <> last_logged_fraction_loss_ s ->
     bwe_updates evs <> []).
Proof.
  unfold RegularUpdate.
  pose proof (UpdateMinHistory_no_log_entry now s) as M.
  pose proof (UpdateMinHistory_same_inputs now s) as MI.
  apply same_inputs_fields in MI. destruct MI as (_ & Mf & Mp & _).
  set (m := UpdateMinHistory now s) in *. clearbody m.
  rewrite Mp. destruct (Z.eqb_spec (last_packet_report_ms_ s) (-1)) as [Hp | Hp].
  - pose proof (Cap_then_store_no_log_entry now (bitrate_ m) m) as C.
    destruct (no_log_entry_trans _ _ _ M C) as [(evs & S & B) [R L]].
    exists evs. split; [exact S |]. split; [left; auto |].
    split; [auto | intros; contradiction].
  - pose proof (LossBasedControl_no_log_entry now m) as C.
    pose proof (LossBasedControl_same_inputs now m) as CI.
    apply same_inputs_fields in CI. destruct CI as (_ & Cf & _).
    destruct (no_log_entry_trans _ _ _ M C) as [(evs0 & S0 & B0) [R0 L0]].
    set (c := LossBasedControl now m) in *. clearbody c.
    destruct (CapAndLog_event_log now c) as (evs & S & E).
    exists (evs0 ++ evs). unfold event_log_effect.
    rewrite S, S0, app_assoc, bwe_updates_app, B0.
    cbn [app]. split; [reflexivity |].
    unfold event_log_due in E. rewrite R0, L0, Cf, Mf in E.
    destruct (negb (cap_value c (bitrate_ c) =? bitrate_ c)); cbn [orb] in E.
    + destruct E as (E1 & E2 & E3).
      split; [right; auto |]. split; [intros; contradiction |].
      intros _ _. rewrite E1. discriminate.
    + destruct (Z.eqb_spec (last_fraction_loss_ s) (last_logged_fraction_loss_ s))
        as [Hf | Hf]; cbn [negb orb] in E.
      * destruct (Z.eqb_spec (last_rtc_event_log_ms_ s) (-1)) as [Hr | Hr];
          cbn [orb] in E.
        -- destruct E as (E1 & E2 & E3).
           split; [right; auto |]. split; [intros; contradiction |].
           intros _ _. rewrite E1. discriminate.
        -- destruct (Z.gtb_spec (now - last_rtc_event_log_ms_ s)
                       kRtcEventLogPeriodMs) as [Hg | Hg].
           ++ destruct E as (E1 & E2 & E3).
              split; [right; auto |]. split; [intros; contradiction |].
              intros _ _. rewrite E1. discriminate.
           ++ destruct E as (E1 & E2 & E3).
              split; [left; auto |]. split; [intros; contradiction |].
              intros _ [H | [H | H]]; [contradiction | lia | contradiction].
      * destruct E as (E1 & E2 & E3).
        split; [right; auto |]. split; [intros; contradiction |].
        intros _ _. rewrite E1. discriminate.
Qed.

(** X8.  A tick appends events to the sink and makes at most one entry in the
    event log.  The entry carries the bitrate, the loss fraction and the
    accumulated packet count the tick leaves in the state, and stamps
    [last_rtc_event_log_ms_] and [last_logged_fraction_loss_]; a tick
    without entry leaves both.  A tick that ends with a start-up adoption,
    or runs without any packet report, makes no entry.  Any other tick
    makes one when no entry was made before, when the last one is more than
    [kRtcEventLogPeriodMs] old, or when the loss fraction differs from the
    one last logged. *)
Theorem UpdateEstimate_event_log :
  forall (now_ms : Z) (s : SendSideBandwidthEstimation),
    let s' := UpdateEstimate now_ms s in
    exists evs,
      sink_ s' = sink_ s ++ evs /\
      ((bwe_updates evs = [] /\
        last_rtc_event_log_ms_ s' = last_rtc_event_log_ms_ s /\
        last_logged_fraction_loss_ s' = last_logged_fraction_loss_ s) \/
       (bwe_updates evs =
          [(bitrate_ s', last_fraction_loss_ s',
            expected_packets_since_last_loss_update_ s')] /\
        last_rtc_event_log_ms_ s' = now_ms /\
        last_logged_fraction_loss_ s' = last_fraction_loss_ s')) /\
      (StartupAdopts now_ms s = true \/ last_packet_report_ms_ s = -1 ->
       bwe_updates evs = []) /\
      (StartupAdopts now_ms s = false ->
       last_packet_report_ms_ s <> -1 ->
       last_rtc_event_log_ms_ s = -1 \/
       now_ms - last_rtc_event_log_ms_ s > kRtcEventLogPeriodMs \/
       last_fraction_loss_ s <> last_logged_fraction_loss_ s ->
       bwe_updates evs <> []).
Proof.
  intros now s s'. subst s'.
  assert (Reg : forall st,
             no_log_entry s st -> same_inputs s st ->
             UpdateEstimate now s = RegularUpdate now st ->
             StartupAdopts now s = false ->
             exists evs,
               sink_ (UpdateEstimate now s) = sink_ s ++ evs /\
               event_log_effect now s (UpdateEstimate now s) evs /\
               (StartupAdopts now s = true \/ last_packet_report_ms_ s = -1 ->
                bwe_updates evs = []) /\
               (StartupAdopts now s = false ->
                last_packet_report_ms_ s <> -1 ->
                last_rtc_event_log_ms_ s = -1 \/
                now - last_rtc_event_log_ms_ s > kRtcEventLogPeriodMs \/
                last_fraction_loss_ s <> last_logged_fraction_loss_ s ->
                bwe_updates evs <> [])).
  { intros st [(evs0 & S0 & B0) [R0 L0]] I -> A.
    apply same_inputs_fields in I. destruct I as (_ & If & Ip & _).
    destruct (RegularUpdate_event_log now st) as (evs & S & E & N & Y).
    exists (evs0 ++ evs). unfold event_log_effect in *.
    rewrite S, S0, app_assoc, bwe_updates_app, B0.
    cbn [app]. split; [reflexivity |]. rewrite R0, L0 in E. split; [exact E |].
    rewrite Ip, R0, L0, If in *. split.
    - intros [H | H]; [congruence | auto].
    - intros _. exact Y. }
  unfold UpdateEstimate in *. unfold StartupAdopts in *.
  destruct ((last_fraction_loss_ s =? 0) && IsInStartPhase now s);
    cbn [andb] in *.
  - destruct (negb (bitrate_ (StartupTrust now s) =? bitrate_ s)) eqn:Ch.
    + destruct (StartupTrust_no_log_entry now s) as [(evs & S & B) [R L]].
      exists evs. destruct (StartupTrust now s); sbe_simpl; sbe_simpl_all.
      split; [exact S |]. split; [left; auto |].
      split; [auto | discriminate].
    + apply (Reg (StartupTrust now s));
        [apply StartupTrust_no_log_entry | apply StartupTrust_same_inputs
        | reflexivity | reflexivity].
  - apply (Reg s);
      [apply no_log_entry_refl | apply same_inputs_refl
      | reflexivity | reflexivity].
Qed.

Lemma UpdateEstimate_event_log_witness :
  exists evs,
    sink_ (UpdateEstimate 5100 moderate_loss_state) =
      sink_ moderate_loss_state ++ evs /\
    bwe_updates evs <> [].
Proof.
  destruct (UpdateEstimate_event_log 5100 moderate_loss_state)
    as (evs & S & _ & _ & Y).
  exists evs. split; [exact S |].
  apply Y; [reflexivity | vm_compute; discriminate | left; reflexivity].
Defined.

(** ** One-shot metrics *)

(** The names of the histogram samples in a list of events. *)
Definition histogram_names (l : list Event) : list string :=
  flat_map (fun e => match e with
                     | Histogram name _ => [name]
                     | _ => []
                     end) l.

(** How many samples of the histogram [name] a list of events holds. *)
Definition reports (name : string) (l : list Event) : nat :=
  count_occ string_dec (histogram_names l) name.

Lemma histogram_names_app l l' :
  histogram_names (l ++ l') = histogram_names l ++ histogram_names l'.
Proof. apply flat_map_app. Qed.

Lemma reports_app name l l' :
  reports name (l ++ l') = (reports name l + reports name l')%nat.
Proof. unfold reports. now rewrite histogram_names_app, count_occ_app. Qed.

Lemma reports_same name n v : n = name -> reports name [Histogram n v] = 1%nat.
Proof.
  intros ->. unfold reports. cbn. destruct (string_dec name name); congruence.
Qed.

Lemma reports_other name n v : n <> name -> reports name [Histogram n v] = 0%nat.
Proof.
  intros H. unfold reports. cbn. destruct (string_dec n name); congruence.
Qed.

(** The state of the metrics: the ramp-up flags, the state of the
    initial/converged pair, and the histogram samples in the sink. *)
Definition same_histograms (s s' : SendSideBandwidthEstimation) : Prop :=
  rampup_uma_stats_updated_ s' = rampup_uma_stats_updated_ s /\
  uma_update_state_ s' = uma_update_state_ s /\
  histogram_names (sink_ s') = histogram_names (sink_ s).

Lemma same_histograms_refl s : same_histograms s s.
Proof. repeat split. Qed.

Lemma same_histograms_trans s1 s2 s3 :
  same_histograms s1 s2 -> same_histograms s2 s3 -> same_histograms s1 s3.
Proof. intros (A & B & C) (D & E & F). repeat split; congruence. Qed.

(** Closes [same_histograms s (f s)] when [f s] is [s] with field updates
    and events that are not samples. *)
Ltac same_histograms_by_computation :=
  repeat split; cbn; rewrite ?histogram_names_app; cbn;
  rewrite ?app_nil_r; reflexivity.

Lemma Cap_same_histograms now b s :
  same_histograms s (snd (CapBitrateToThresholds now b s)).
Proof.
  rewrite Cap_snd. destruct (_ && _); [| apply same_histograms_refl].
  destruct s. same_histograms_by_computation.
Qed.

Lemma Cap_then_store_same_histograms now b s :
  same_histograms s (let '(b', s') := CapBitrateToThresholds now b s in
                     set_bitrate_ b' s').
Proof.
  pose proof (Cap_same_histograms now b s) as H.
  destruct (CapBitrateToThresholds now b s) as [b' s']. cbn [snd] in H.
  eapply same_histograms_trans; [exact H |].
  destruct s'. same_histograms_by_computation.
Qed.

Lemma StartupTrust_same_histograms now s : same_histograms s (StartupTrust now s).
Proof.
  unfold StartupTrust.
  set (s1 := if bwe_incoming_ s >? bitrate_ s then _ else s).
  assert (H1 : same_histograms s s1).
  { subst s1. destruct (_ >? _);
      [apply Cap_then_store_same_histograms | apply same_histograms_refl]. }
  clearbody s1.
  eapply same_histograms_trans; [exact H1 |].
  destruct (_ >? _);
    [apply Cap_then_store_same_histograms | apply same_histograms_refl].
Qed.

Lemma LossBasedControl_same_histograms now s :
  same_histograms s (LossBasedControl now s).
Proof.
  unfold LossBasedControl.
  split_ifs; try apply same_histograms_refl; destruct s;
    same_histograms_by_computation.
Qed.

Lemma CapAndLog_same_histograms now s : same_histograms s (CapAndLog now s).
Proof.
  unfold CapAndLog.
  pose proof (Cap_same_histograms now (bitrate_ s) s) as H.
  destruct (CapBitrateToThresholds now (bitrate_ s) s) as [b' s']. cbn [snd] in H.
  eapply same_histograms_trans; [exact H |].
  destruct (_ || _); destruct s'; same_histograms_by_computation.
Qed.

Lemma UpdateEstimate_same_histograms now s :
  same_histograms s (UpdateEstimate now s).
Proof.
  assert (R : forall st, same_histograms st (RegularUpdate now st)).
  { intros st. unfold RegularUpdate.
    eapply same_histograms_trans with (s2 := UpdateMinHistory now st);
      [unfold UpdateMinHistory; destruct st; same_histograms_by_computation |].
    destruct (_ =? -1).
    - apply Cap_then_store_same_histograms.
    - eapply same_histograms_trans;
        [apply LossBasedControl_same_histograms | apply CapAndLog_same_histograms]. }
  unfold UpdateEstimate.
  destruct (_ && _); [| apply R].
  eapply same_histograms_trans; [apply (StartupTrust_same_histograms now) |].
  destruct (negb _); [| apply R].
  destruct (StartupTrust now s). same_histograms_by_computation.
Qed.

Lemma set_nth_length {A} i (v : A) l : List.length (set_nth i v l) = List.length l.
Proof.
  revert i. induction l as [|x l IH]; intros [|i]; cbn; congruence.
Qed.

Lemma nth_set_nth_eq {A} i (v d : A) l :
  (i < List.length l)%nat -> nth i (set_nth i v l) d = v.
Proof.
  revert i. induction l as [|x l IH]; intros [|i] H; cbn in *;
    try lia; [reflexivity | apply IH; lia].
Qed.

Lemma nth_set_nth_neq {A} i j (v d : A) l :
  i <> j -> nth j (set_nth i v l) d = nth j l d.
Proof.
  revert i j. induction l as [|x l IH]; intros [|i] [|j] H; cbn;
    try reflexivity; try congruence.
  apply IH. congruence.
Qed.

(** The seven histograms of the file. *)
Definition metric_name (i : nat) : string :=
  fst (nth i kUmaRampupMetrics (EmptyString, 0)).

Definition initial_histograms : list string :=
  ["WebRTC.BWE.InitiallyLostPackets"%string;
   "WebRTC.BWE.InitialRtt"%string;
   "WebRTC.BWE.InitialBandwidthEstimate"%string].

Definition converged_histogram : string :=
  "WebRTC.BWE.InitialVsConvergedDiff"%string.

Definition all_histograms : list string :=
  map fst kUmaRampupMetrics ++ initial_histograms ++ [converged_histogram].

Lemma all_histograms_NoDup : NoDup all_histograms.
Proof.
  apply (NoDup_count_occ' string_dec). intros x Hx.
  repeat (destruct Hx as [<- | Hx]; [vm_compute; reflexivity |]).
  destruct Hx.
Qed.

Lemma metric_name_in i :
  (i < kNumUmaRampupMetrics)%nat -> In (metric_name i) (map fst kUmaRampupMetrics).
Proof.
  intros H. unfold metric_name. rewrite <- (map_nth fst).
  apply nth_In. now rewrite length_map.
Qed.

Lemma metric_name_inj i j :
  (i < kNumUmaRampupMetrics)%nat -> (j < kNumUmaRampupMetrics)%nat ->
  metric_name i = metric_name j -> i = j.
Proof.
  pose proof all_histograms_NoDup as N. unfold all_histograms in N.
  apply NoDup_app_remove_r in N.
  intros Hi Hj E. unfold metric_name in E.
  rewrite <- !(map_nth fst) in E.
  rewrite NoDup_nth in N. apply N; [now rewrite length_map .. | exact E].
Qed.

Lemma metric_name_not_initial i name :
  (i < kNumUmaRampupMetrics)%nat ->
  In name (initial_histograms ++ [converged_histogram]) ->
  metric_name i <> name.
Proof.
  intros Hi Hn E. unfold kNumUmaRampupMetrics in Hi. cbn in Hi.
  destruct i as [|[|[|i]]]; [| | | lia];
    repeat (destruct Hn as [<- | Hn]; [discriminate E |]); destruct Hn.
Qed.

(** Every histogram has been reported exactly as often as the state says:
    a ramp-up histogram once if its flag is set, the three initial
    histograms once after [kNoUpdate], the converged one once in
    [kDone]. *)
Definition one_shot (s : SendSideBandwidthEstimation) : Prop :=
  List.length (rampup_uma_stats_updated_ s) = kNumUmaRampupMetrics /\
  (forall i, (i < kNumUmaRampupMetrics)%nat ->
     reports (metric_name i) (sink_ s) =
     Nat.b2n (nth i (rampup_uma_stats_updated_ s) false)) /\
  (forall name, In name initial_histograms ->
     reports name (sink_ s) =
     match uma_update_state_ s with kNoUpdate => 0 | _ => 1 end%nat) /\
  reports converged_histogram (sink_ s) =
    match uma_update_state_ s with kDone => 1 | _ => 0 end%nat.

Lemma one_shot_same_histograms s s' :
  same_histograms s s' -> one_shot s -> one_shot s'.
Proof.
  unfold one_shot, reports. intros (F & U & H) (L & R & I & C).
  rewrite F, U, H. auto.
Qed.

Lemma RampupStep_one_shot now kbps s j :
  (j < kNumUmaRampupMetrics)%nat -> one_shot s ->
  one_shot (RampupStep now kbps s (j, nth j kUmaRampupMetrics (EmptyString, 0))) /\
  uma_update_state_
    (RampupStep now kbps s (j, nth j kUmaRampupMetrics (EmptyString, 0))) =
  uma_update_state_ s.
Proof.
  intros Hj (L & R & I & C).
  assert (Hn : fst (nth j kUmaRampupMetrics (EmptyString, 0)) = metric_name j)
    by reflexivity.
  destruct (nth j kUmaRampupMetrics (EmptyString, 0)) as [nm k]. cbn [fst] in Hn.
  subst nm. unfold RampupStep.
  destruct (nth j (rampup_uma_stats_updated_ s) false) eqn:Fj; cbn [negb andb];
    [split; [repeat split; assumption | reflexivity] |].
  destruct (kbps >=? k); [| split; [repeat split; assumption | reflexivity]].
  unfold one_shot.
  replace (rampup_uma_stats_updated_ (set_rampup_uma_stats_updated_ _ _))
    with (set_nth j true (rampup_uma_stats_updated_ s)) by (destruct s; reflexivity).
  replace (sink_ (set_rampup_uma_stats_updated_ _ _))
    with (sink_ s ++ [Histogram (metric_name j) (now - first_report_time_ms_ s)])
    by (destruct s; reflexivity).
  replace (uma_update_state_ (set_rampup_uma_stats_updated_ _ _))
    with (uma_update_state_ s) by (destruct s; reflexivity).
  split; [| reflexivity].
  split; [now rewrite set_nth_length |].
  split; [| split].
  - intros i Hi. rewrite reports_app, (R i Hi).
    destruct (Nat.eq_dec j i) as [<- | Hne].
    + rewrite reports_same by reflexivity.
      rewrite Fj, nth_set_nth_eq by (rewrite L; exact Hj). reflexivity.
    + rewrite reports_other, nth_set_nth_neq by
        (try exact Hne; intros E; apply Hne; now apply metric_name_inj).
      apply Nat.add_0_r.
  - intros name Hin. rewrite reports_app, (I name Hin), reports_other;
      [apply Nat.add_0_r |].
    apply metric_name_not_initial; [exact Hj |]. apply in_or_app. now left.
  - rewrite reports_app, C, reports_other; [apply Nat.add_0_r |].
    apply metric_name_not_initial; [exact Hj |]. apply in_or_app.
    right. now left.
Qed.

Lemma RampupLoop_one_shot now kbps l : forall s,
  Forall (fun im => (fst im < kNumUmaRampupMetrics)%nat /\
                    snd im = nth (fst im) kUmaRampupMetrics (EmptyString, 0)) l ->
  one_shot s ->
  one_shot (fold_left (RampupStep now kbps) l s) /\
  uma_update_state_ (fold_left (RampupStep now kbps) l s) = uma_update_state_ s.
Proof.
  induction l as [|[j m] l IH]; intros s Hl Hs; cbn [fold_left].
  - split; [exact Hs | reflexivity].
  - apply Forall_cons_iff in Hl. destruct Hl as [[Hj Hm] Hl].
    cbn [fst snd] in Hj, Hm. subst m.
    destruct (RampupStep_one_shot now kbps s j Hj Hs) as [H1 U1].
    destruct (IH _ Hl H1) as [H2 U2]. split; [exact H2 | congruence].
Qed.

Lemma UpdateUmaStats_one_shot now rtt lost s :
  one_shot s -> one_shot (UpdateUmaStats now rtt lost s).
Proof.
  intros Hs. unfold UpdateUmaStats.
  set (s0 := emit (EnterUpdateUmaStats now rtt lost) s).
  assert (H0 : one_shot s0).
  { apply (one_shot_same_histograms s); [| exact Hs].
    subst s0. destruct s. same_histograms_by_computation. }
  assert (U0 : uma_update_state_ s0 = uma_update_state_ s)
    by (subst s0; destruct s; reflexivity).
  clearbody s0. set (kbps := to_int _). clearbody kbps.
  destruct (RampupLoop_one_shot now kbps
              (combine (seq 0 kNumUmaRampupMetrics) kUmaRampupMetrics) s0)
    as [H1 U1]; [| exact H0 |].
  { repeat constructor. }
  set (s1 := fold_left _ _ s0) in *. clearbody s1. clear H0 U0 U1 Hs s0 s.
  destruct (IsInStartPhase now s1).
  { apply (one_shot_same_histograms s1); [| exact H1].
    destruct s1. same_histograms_by_computation. }
  destruct H1 as (L & R & I & C).
  destruct (uma_update_state_ s1) eqn:U.
  - unfold one_shot.
    set (evs := [Histogram "WebRTC.BWE.InitiallyLostPackets"
                   (initially_lost_packets_ s1);
                 Histogram "WebRTC.BWE.InitialRtt" (to_int rtt);
                 Histogram "WebRTC.BWE.InitialBandwidthEstimate" kbps]).
    match goal with
    | |- context [rampup_uma_stats_updated_ ?x] =>
        replace (rampup_uma_stats_updated_ x) with (rampup_uma_stats_updated_ s1)
          by (destruct s1; reflexivity);
        replace (uma_update_state_ x) with kFirstDone
          by (destruct s1; reflexivity);
        replace (sink_ x) with (sink_ s1 ++ evs)
          by (destruct s1; sbe_simpl; rewrite <- !app_assoc; reflexivity)
    end.
    split; [exact L |]. split; [| split].
    + intros i Hi. rewrite reports_app, (R i Hi).
      replace (reports (metric_name i) evs) with 0%nat; [apply Nat.add_0_r |].
      unfold kNumUmaRampupMetrics in Hi. cbn in Hi.
      destruct i as [|[|[|i]]]; [reflexivity .. | lia].
    + intros name Hin. rewrite reports_app, (I name Hin).
      repeat (destruct Hin as [<- | Hin]; [reflexivity |]). destruct Hin.
    + rewrite reports_app, C. reflexivity.
  - destruct (_ >=? kBweConverganceTimeMs).
    + unfold one_shot.
      match goal with
      | |- context [emit ?e _] => set (ev := e)
      end.
      match goal with
      | |- context [rampup_uma_stats_updated_ ?x] =>
          replace (rampup_uma_stats_updated_ x) with (rampup_uma_stats_updated_ s1)
            by (destruct s1; reflexivity);
          replace (uma_update_state_ x) with kDone
            by (destruct s1; reflexivity);
          replace (sink_ x) with (sink_ s1 ++ [ev])
            by (destruct s1; reflexivity)
      end.
      split; [exact L |]. split; [| split].
      * intros i Hi. rewrite reports_app, (R i Hi).
        replace (reports (metric_name i) [ev]) with 0%nat; [apply Nat.add_0_r |].
        unfold kNumUmaRampupMetrics in Hi. cbn in Hi.
        destruct i as [|[|[|i]]]; [reflexivity .. | lia].
      * intros name Hin. rewrite reports_app, (I name Hin).
        repeat (destruct Hin as [<- | Hin]; [reflexivity |]). destruct Hin.
      * rewrite reports_app, C. reflexivity.
    + unfold one_shot. rewrite U. repeat split; assumption.
  - unfold one_shot. rewrite U. repeat split; assumption.
Qed.

Lemma step_one_shot ft c s : one_shot s -> one_shot (step ft c s).
Proof.
  intros Hs.
  destruct c as [b mn mx | b | mn mx | now bw | now b | fl rtt n now | now];
    cbn [step].
  - apply (one_shot_same_histograms s); [| exact Hs].
    unfold SetBitrates, SetMinMaxBitrate, SetSendBitrate.
    split_ifs; destruct s; same_histograms_by_computation.
  - apply (one_shot_same_histograms s); [| exact Hs].
    unfold SetSendBitrate. destruct s; same_histograms_by_computation.
  - apply (one_shot_same_histograms s); [| exact Hs].
    unfold SetMinMaxBitrate.
    split_ifs; destruct s; same_histograms_by_computation.
  - apply (one_shot_same_histograms s); [| exact Hs].
    unfold UpdateReceiverEstimate.
    eapply same_histograms_trans with (s2 := set_bwe_incoming_ bw s);
      [destruct s; same_histograms_by_computation
      | apply Cap_then_store_same_histograms].
  - apply (one_shot_same_histograms s); [| exact Hs].
    unfold UpdateDelayBasedEstimate.
    eapply same_histograms_trans with (s2 := set_delay_based_bitrate_bps_ b s);
      [destruct s; same_histograms_by_computation
      | apply Cap_then_store_same_histograms].
  - assert (Hh : same_histograms s (ReceiverBlockHeader rtt now s))
      by (rewrite ReceiverBlockHeader_eq; destruct s;
          same_histograms_by_computation).
    destruct (Z.ltb_spec 0 n) as [Hn | Hn].
    + destruct (Z.ltb_spec
                  (to_int (expected_packets_since_last_loss_update_ s + n))
                  kLimitNumPackets) as [Hp | Hp].
      * rewrite (UpdateReceiverBlock_pending _ _ _ _ _ Hn Hp).
        apply (one_shot_same_histograms s); [| exact Hs].
        eapply same_histograms_trans; [exact Hh |].
        destruct (ReceiverBlockHeader rtt now s); same_histograms_by_computation.
      * rewrite (UpdateReceiverBlock_sample _ _ _ _ _ Hn Hp).
        apply UpdateUmaStats_one_shot.
        apply (one_shot_same_histograms s); [| exact Hs].
        eapply same_histograms_trans; [exact Hh |].
        eapply same_histograms_trans; [| apply UpdateEstimate_same_histograms].
        unfold SampleState.
        destruct (ReceiverBlockHeader rtt now s); same_histograms_by_computation.
    + rewrite (UpdateReceiverBlock_no_packets _ _ _ _ _ Hn).
      apply UpdateUmaStats_one_shot.
      now apply (one_shot_same_histograms s).
  - apply (one_shot_same_histograms s); [| exact Hs].
    apply UpdateEstimate_same_histograms.
Qed.

Lemma one_shot_at_most_once s name :
  one_shot s -> In name all_histograms -> (reports name (sink_ s) <= 1)%nat.
Proof.
  intros (L & R & I & C) H. unfold all_histograms in H.
  apply in_app_or in H. destruct H as [H | H].
  - apply (In_nth _ _ EmptyString) in H. destruct H as (i & Hi & <-).
    rewrite length_map in Hi.
    pose proof (map_nth fst kUmaRampupMetrics (EmptyString, 0) i) as E.
    cbn [fst] in E. rewrite E. fold (metric_name i).
    rewrite (R i Hi). destruct (nth i _ false); cbn; lia.
  - apply in_app_or in H. destruct H as [H | [<- | []]].
    + rewrite (I name H). destruct (uma_update_state_ s); lia.
    + rewrite C. destruct (uma_update_state_ s); lia.
Qed.

(** X9.  The metrics are one-shot.  Over any sequence of calls on an estimator
    whose metrics state is consistent (as it is after construction), each
    of the seven histograms of the file is reported at most once: a
    ramp-up histogram exactly when its flag in [rampup_uma_stats_updated_]
    is set, the three initial histograms exactly when [uma_update_state_]
    has left [kNoUpdate], and the converged one exactly when it is
    [kDone]. *)
Theorem histograms_reported_once :
  forall (ft : FieldTrials) (cs : list Call) (s : SendSideBandwidthEstimation),
    one_shot s ->
    one_shot (run ft cs s) /\
    forall name, In name all_histograms ->
                 (reports name (sink_ (run ft cs s)) <= 1)%nat.
Proof.
  intros ft cs s Hs.
  assert (H : one_shot (run ft cs s)).
  { unfold run. revert s Hs.
    induction cs as [|c cs IH]; intros s Hs; cbn [fold_left]; [exact Hs |].
    apply IH. now apply step_one_shot. }
  split; [exact H |]. intros name. now apply one_shot_at_most_once.
Qed.

Lemma InitialState_one_shot ft low high threshold_bps :
  one_shot (InitialState ft low high threshold_bps).
Proof.
  unfold one_shot. cbn. repeat split. intros i Hi.
  destruct i as [|[|[|i]]]; [reflexivity .. | lia].
Qed.

Lemma histograms_reported_once_witness :
  let cs := [CallSetBitrates 600000 10000 2000000;
             CallUpdateReceiverBlock 0 100 30 0;
             CallUpdateReceiverBlock 0 100 30 2500;
             CallUpdateReceiverBlock 0 100 30 3000;
             CallUpdateReceiverBlock 0 100 30 21000;
             CallUpdateReceiverBlock 0 100 30 22000] in
  reports "WebRTC.BWE.InitialRtt" (sink_ (run default_trials cs default_state)) = 1%nat /\
  reports "WebRTC.BWE.RampUpTimeTo500kbpsInMs"
    (sink_ (run default_trials cs default_state)) = 1%nat /\
  forall name, In name all_histograms ->
               (reports name (sink_ (run default_trials cs default_state)) <= 1)%nat.
Proof.
  cbv zeta. split; [vm_compute; reflexivity |]. split; [vm_compute; reflexivity |].
  exact (proj2 (histograms_reported_once default_trials
                  [CallSetBitrates 600000 10000 2000000;
                   CallUpdateReceiverBlock 0 100 30 0;
                   CallUpdateReceiverBlock 0 100 30 2500;
                   CallUpdateReceiverBlock 0 100 30 3000;
                   CallUpdateReceiverBlock 0 100 30 21000;
                   CallUpdateReceiverBlock 0 100 30 22000]
                  default_state
                  (InitialState_one_shot default_trials kDefaultLowLossThreshold
                     kDefaultHighLossThreshold 0))).
Defined.

(** ** What is fixed at construction, and the start phase *)

Lemma UpdateEstimate_last_timeout now s :
  in_timeout_experiment_ s = false ->
  last_timeout_ms_ (UpdateEstimate now s) = last_timeout_ms_ s.
Proof.
  intros Ht. destruct (StartupAdopts now s) eqn:A.
  - unfold StartupAdopts in A. unfold UpdateEstimate.
    apply andb_prop in A. destruct A as [A1 A2]. rewrite A1, A2.
    destruct (StartupTrust_shape now s) as (l & k & ->).
    destruct s; reflexivity.
  - destruct (UpdateEstimate_regular now s A) as (l & k & ->).
    unfold RegularUpdate, UpdateMinHistory.
    set (s0 := set_min_bitrate_history_ _ _).
    assert (E : last_timeout_ms_ s0 = last_timeout_ms_ s /\
                in_timeout_experiment_ s0 = false)
      by (subst s0; destruct s; split; [reflexivity | exact Ht]).
    clearbody s0. destruct E as [E1 E2]. rewrite <- E1.
    destruct (_ =? -1).
    + destruct (Cap_then_store_shape now (bitrate_ s0) s0) as (l' & k' & ->).
      destruct s0; reflexivity.
    + destruct (CapAndLog_shape now (LossBasedControl now s0))
        as (l' & k' & g & r & ->).
      assert (E : last_timeout_ms_ (LossBasedControl now s0) = last_timeout_ms_ s0).
      { unfold LossBasedControl. rewrite E2.
        split_ifs; destruct s0; reflexivity. }
      rewrite <- E. destruct (LossBasedControl now s0); reflexivity.
Qed.

(** [s'] has the configuration of [s], its first report time if [s] had
    one, and its [last_timeout_ms_] if the timeout experiment is off. *)
Definition latched (s s' : SendSideBandwidthEstimation) : Prop :=
  in_timeout_experiment_ s' = in_timeout_experiment_ s /\
  low_loss_threshold_ s' = low_loss_threshold_ s /\
  high_loss_threshold_ s' = high_loss_threshold_ s /\
  bitrate_threshold_bps_ s' = bitrate_threshold_bps_ s /\
  (first_report_time_ms_ s <> -1 ->
   first_report_time_ms_ s' = first_report_time_ms_ s) /\
  (in_timeout_experiment_ s = false ->
   last_timeout_ms_ s' = last_timeout_ms_ s).

Lemma latched_refl s : latched s s.
Proof. repeat split. Qed.

Lemma latched_trans s1 s2 s3 : latched s1 s2 -> latched s2 s3 -> latched s1 s3.
Proof.
  intros (A1 & A2 & A3 & A4 & A5 & A6) (B1 & B2 & B3 & B4 & B5 & B6).
  repeat split; try congruence.
  - intros H. rewrite B5, A5; [reflexivity | exact H |].
    rewrite A5; exact H.
  - intros H. rewrite B6, A6; [reflexivity | exact H | congruence].
Qed.

(** Closes [latched s (f s)] when [f s] is [s] with updates of other
    fields. *)
Ltac latched_by_computation :=
  unfold latched; cbn; repeat split; intros; reflexivity.

Lemma UpdateEstimate_latched now s : latched s (UpdateEstimate now s).
Proof.
  pose proof (UpdateEstimate_same_inputs now s) as I.
  apply same_inputs_fields in I.
  destruct I as (_ & _ & _ & _ & I4 & _ & I6 & I7 & I8 & I9).
  repeat split; try assumption;
    [intros _; exact I4 | apply UpdateEstimate_last_timeout].
Qed.

Lemma UpdateUmaStats_latched now rtt lost s :
  latched s (UpdateUmaStats now rtt lost s).
Proof.
  destruct (UpdateUmaStats_frame now rtt lost s) as [F _].
  apply without_metrics_fields in F.
  destruct F as (_ & _ & _ & _ & _ & _ & _ & F8 & F9 & _ & _ & G1 & G2 & G3 & G4 & _).
  repeat split; intros; assumption.
Qed.

Lemma ReceiverBlockHeader_latched rtt now s :
  latched s (ReceiverBlockHeader rtt now s).
Proof.
  rewrite ReceiverBlockHeader_eq. destruct s; sbe_simpl.
  repeat split. sbe_simpl. intros H.
  match goal with
  | |- context [?a =? -1] =>
      destruct (Z.eqb_spec a (-1)); [contradiction | reflexivity]
  end.
Qed.

Lemma step_latched ft c s : latched s (step ft c s).
Proof.
  destruct c as [b mn mx | b | mn mx | now bw | now b | fl rtt n now | now];
    cbn [step].
  - unfold SetBitrates, SetMinMaxBitrate, SetSendBitrate.
    split_ifs; destruct s; latched_by_computation.
  - unfold SetSendBitrate. destruct s; latched_by_computation.
  - unfold SetMinMaxBitrate. split_ifs; destruct s; latched_by_computation.
  - unfold UpdateReceiverEstimate.
    destruct (Cap_then_store_shape now (bitrate_ (set_bwe_incoming_ bw s))
                (set_bwe_incoming_ bw s)) as (l & k & ->).
    destruct s; latched_by_computation.
  - unfold UpdateDelayBasedEstimate.
    destruct (Cap_then_store_shape now
                (bitrate_ (set_delay_based_bitrate_bps_ b s))
                (set_delay_based_bitrate_bps_ b s)) as (l & k & ->).
    destruct s; latched_by_computation.
  - pose proof (ReceiverBlockHeader_latched rtt now s) as Hh.
    destruct (Z.ltb_spec 0 n) as [Hn | Hn].
    + destruct (Z.ltb_spec
                  (to_int (expected_packets_since_last_loss_update_ s + n))
                  kLimitNumPackets) as [Hp | Hp].
      * rewrite (UpdateReceiverBlock_pending _ _ _ _ _ Hn Hp).
        eapply latched_trans; [exact Hh |].
        destruct (ReceiverBlockHeader rtt now s); latched_by_computation.
      * rewrite (UpdateReceiverBlock_sample _ _ _ _ _ Hn Hp).
        eapply latched_trans; [exact Hh |].
        eapply latched_trans; [| apply UpdateUmaStats_latched].
        eapply latched_trans; [| apply UpdateEstimate_latched].
        unfold SampleState.
        destruct (ReceiverBlockHeader rtt now s); latched_by_computation.
    + rewrite (UpdateReceiverBlock_no_packets _ _ _ _ _ Hn).
      eapply latched_trans; [exact Hh | apply UpdateUmaStats_latched].
  - apply UpdateEstimate_latched.
Qed.

Lemma run_latched ft cs : forall s, latched s (run ft cs s).
Proof.
  unfold run. induction cs as [|c cs IH]; intros s; cbn [fold_left].
  - apply latched_refl.
  - eapply latched_trans; [apply (step_latched ft c) | apply IH].
Qed.

(** X10.  What the constructor reads from the field trials stays as constructed:
    no operation changes [in_timeout_experiment_], the two loss thresholds
    or [bitrate_threshold_bps_]; and with the timeout experiment off,
    [last_timeout_ms_] never changes either. *)
Theorem run_keeps_configuration :
  forall (ft : FieldTrials) (cs : list Call) (s : SendSideBandwidthEstimation),
    let s' := run ft cs s in
    in_timeout_experiment_ s' = in_timeout_experiment_ s /\
    low_loss_threshold_ s' = low_loss_threshold_ s /\
    high_loss_threshold_ s' = high_loss_threshold_ s /\
    bitrate_threshold_bps_ s' = bitrate_threshold_bps_ s /\
    (in_timeout_experiment_ s = false ->
     last_timeout_ms_ s' = last_timeout_ms_ s).
Proof.
  intros ft cs s s'. subst s'.
  destruct (run_latched ft cs s) as (A1 & A2 & A3 & A4 & _ & A6).
  repeat split; assumption.
Qed.

Lemma run_keeps_configuration_witness :
  last_timeout_ms_
    (run default_trials
       [CallSetBitrates 1000000 10000 2000000;
        CallUpdateReceiverBlock 0 100 30 0;
        CallUpdateEstimate 5000; CallUpdateEstimate 7000] default_state) = -1.
Proof.
  exact (proj2 (proj2 (proj2 (proj2
           (run_keeps_configuration default_trials
              [CallSetBitrates 1000000 10000 2000000;
               CallUpdateReceiverBlock 0 100 30 0;
               CallUpdateEstimate 5000; CallUpdateEstimate 7000]
              default_state)))) eq_refl).
Defined.

(** X11.  The start phase ends for good.  [first_report_time_ms_] is written
    once, by the first receiver block; so once [IsInStartPhase] is false at
    some time, it is false at every later time, whatever calls are made in
    between. *)
Theorem start_phase_ends_for_good :
  forall (ft : FieldTrials) (cs : list Call) (s : SendSideBandwidthEstimation)
         (now_ms now_ms' : Z),
    IsInStartPhase now_ms s = false ->
    now_ms <= now_ms' ->
    first_report_time_ms_ (run ft cs s) = first_report_time_ms_ s /\
    IsInStartPhase now_ms' (run ft cs s) = false.
Proof.
  intros ft cs s now now' H Hle. unfold IsInStartPhase in *.
  apply orb_false_elim in H. destruct H as [H1 H2].
  apply Z.eqb_neq in H1. apply Z.ltb_ge in H2.
  destruct (run_latched ft cs s) as (_ & _ & _ & _ & A5 & _).
  rewrite (A5 H1). split; [reflexivity |].
  apply orb_false_intro; [now apply Z.eqb_neq | apply Z.ltb_ge; lia].
Qed.

Lemma start_phase_ends_for_good_witness :
  let s := UpdateReceiverBlock 0 100 30 0 default_state in
  IsInStartPhase 1999 s = true /\
  IsInStartPhase 2500
    (run default_trials
       [CallUpdateReceiverBlock 0 100 30 2100; CallUpdateEstimate 2200] s) = false.
Proof.
  cbv zeta. split; [reflexivity |].
  exact (proj2 (start_phase_ends_for_good default_trials
                  [CallUpdateReceiverBlock 0 100 30 2100; CallUpdateEstimate 2200]
                  (UpdateReceiverBlock 0 100 30 0 default_state) 2000 2500
                  eq_refl ltac:(lia))).
Defined.

(** ** The floating-point steps as integer arithmetic *)

(** X12.  The freshness test of line 297 compares in binary64; for every
    [int64_t] difference it decides exactly as the rational comparison
    [t < 1.2 * kFeedbackIntervalMs] does, that is [t < 1800]: neither the
    rounding of the literal 1.2 nor that of the product moves the
    threshold. *)
Theorem FeedbackIsFresh_exact :
  forall t : Z,
    (FeedbackIsFresh t = true <-> 10 * t < 12 * kFeedbackIntervalMs) /\
    (FeedbackIsFresh t = false <-> 1800 <= t).
Proof.
  intros t. rewrite FeedbackIsFresh_eq. unfold kFeedbackIntervalMs.
  destruct (Z.ltb_spec t 1800); split; split; intros; lia || congruence.
Qed.

(** The loss fraction [n]/256 compares with the thresholds [low] and
    [high], in binary32 as the source computes it, as [n] compares with
    [lo] and [hi]. *)
Definition loss_compares_as (low high : float32) (lo hi : Z) (n : nat) : bool :=
  let loss := F32.div (F32.of_Z (Z.of_nat n)) f256 in
  Bool.eqb (F32.leb loss low) (Z.of_nat n <=? lo) &&
  Bool.eqb (F32.leb loss high) (Z.of_nat n <=? hi).

Lemma default_loss_classes :
  forallb (loss_compares_as kDefaultLowLossThreshold kDefaultHighLossThreshold 5 25)
          (seq 0 256) = true.
Proof. vm_compute. reflexivity. Qed.

(** X13.  With the default thresholds 0.02f and 0.1f, the loss
    [last_fraction_loss_ / 256.0f] is at most the low threshold exactly
    when [last_fraction_loss_ <= 5], and at most the high threshold exactly
    when [last_fraction_loss_ <= 25]: the increase rule applies up to 5/256,
    the decrease rule from 26/256 on. *)
Theorem default_loss_thresholds_in_Q8 :
  forall s : SendSideBandwidthEstimation,
    0 <= last_fraction_loss_ s <= 255 ->
    low_loss_threshold_ s = kDefaultLowLossThreshold ->
    high_loss_threshold_ s = kDefaultHighLossThreshold ->
    F32.leb (LossOf s) (low_loss_threshold_ s) = (last_fraction_loss_ s <=? 5) /\
    F32.leb (LossOf s) (high_loss_threshold_ s) = (last_fraction_loss_ s <=? 25).
Proof.
  intros s Hr -> ->. unfold LossOf.
  set (fl := last_fraction_loss_ s) in *. clearbody fl.
  pose proof default_loss_classes as E. rewrite forallb_forall in E.
  specialize (E (Z.to_nat fl)). unfold loss_compares_as in E.
  rewrite Z2Nat.id in E by lia.
  assert (Hin : In (Z.to_nat fl) (seq 0 256)) by (apply in_seq; lia).
  apply E in Hin. apply andb_prop in Hin. destruct Hin as [E1 E2].
  apply eqb_prop in E1, E2. split; assumption.
Qed.

Lemma default_loss_thresholds_in_Q8_witness :
  F32.leb (LossOf (set_last_fraction_loss_ 5 default_state))
    kDefaultLowLossThreshold = true /\
  F32.leb (LossOf (set_last_fraction_loss_ 26 default_state))
    kDefaultHighLossThreshold = false.
Proof.
  split.
  - exact (proj1 (default_loss_thresholds_in_Q8
                    (set_last_fraction_loss_ 5 default_state)
                    ltac:(cbn; lia) eq_refl eq_refl)).
  - exact (proj2 (default_loss_thresholds_in_Q8
                    (set_last_fraction_loss_ 26 default_state)
                    ltac:(cbn; lia) eq_refl eq_refl)).
Defined.

(** X14.  The increase of lines 314-320 never stalls and never jumps: for a front
    bitrate within [int] range the new bitrate exceeds it by at least 1000
    bps (the "1 kbps extra" of the source) and by at most 8% plus 1001
    bps; no wrap-around of [uint32_t] occurs. *)
Theorem IncreasedBitrate_gain :
  forall front : Z,
    0 <= front <= INT_MAX ->
    front + 1000 <= IncreasedBitrate front <= front + 8 * front / 100 + 1001.
Proof.
  intros front H. rewrite (IncreasedBitrate_round front H).
  assert (A : front <= (108 * front + 50) / 100)
    by (apply Z.div_le_lower_bound; lia).
  assert (B : (108 * front + 50) / 100 <= front + 8 * front / 100 + 1).
  { replace (108 * front + 50) with (front * 100 + (8 * front + 50)) by ring.
    rewrite Z.div_add_l by lia.
    assert ((8 * front + 50) / 100 <= 8 * front / 100 + 1); [| lia].
    replace (8 * front / 100 + 1) with ((8 * front + 1 * 100) / 100)
      by (rewrite Z.div_add; lia).
    apply Z.div_le_mono; lia. }
  lia.
Qed.

Lemma IncreasedBitrate_gain_witness :
  100000 + 1000 <= IncreasedBitrate 100000 <= 100000 + 8 * 100000 / 100 + 1001.
Proof.
  apply (IncreasedBitrate_gain 100000). unfold INT_MAX. lia.
Defined.

(** X15.  The decrease of lines 335-337 never raises the bitrate and never cuts
    it by more than half: a loss fraction of [f]/256 removes [f]/512 of the
    bitrate, rounded toward zero.  A loss fraction of zero changes
    nothing. *)
Theorem DecreasedBitrate_bounds :
  forall bitrate fraction_loss : Z,
    0 <= bitrate < 2 ^ 32 ->
    0 <= fraction_loss <= 255 ->
    bitrate / 2 <= DecreasedBitrate bitrate fraction_loss <= bitrate /\
    bitrate - (bitrate * fraction_loss + 511) / 512
      <= DecreasedBitrate bitrate fraction_loss /\
    DecreasedBitrate bitrate 0 = bitrate.
Proof.
  intros b fl Hb Hfl.
  rewrite !DecreasedBitrate_eq by lia.
  repeat split.
  - apply Z.div_le_lower_bound; [lia |].
    assert (2 * (b / 2) <= b) by (apply Z.mul_div_le; lia). nia.
  - apply Z.div_le_upper_bound; nia.
  - replace (b * (512 - fl)) with (b * 512 - b * fl) by ring.
    assert (H1 : b * fl + 511 < 512 * ((b * fl + 511) / 512) + 512).
    { pose proof (Z.mod_pos_bound (b * fl + 511) 512 ltac:(lia)).
      pose proof (Z.div_mod (b * fl + 511) 512 ltac:(lia)). lia. }
    apply Z.div_le_lower_bound; lia.
  - replace (b * (512 - 0)) with (b * 512) by ring. apply Z.div_mul. lia.
Qed.

Lemma DecreasedBitrate_bounds_witness :
  500000 / 2 <= DecreasedBitrate 500000 64 <= 500000 /\
  DecreasedBitrate 500000 64 = 437500.
Proof.
  split; [| vm_compute; reflexivity].
  apply (DecreasedBitrate_bounds 500000 64); lia.
Defined.

(** ** The front of the history *)

Lemma min_history_push_last now b d :
  exists d', min_history_push now b d = d' ++ [(now, b)].
Proof. unfold min_history_push. eexists. reflexivity. Qed.

Lemma StronglySorted_front_least (d : list (Z * Z)) :
  StronglySorted bitrate_lt d ->
  forall x, In x d -> front_bitrate d <= snd x.
Proof.
  intros H x Hx. destruct d as [|f r]; [destruct Hx |].
  cbn [front_bitrate]. destruct Hx as [<- | Hx]; [lia |].
  apply StronglySorted_inv in H. destruct H as [_ F].
  rewrite Forall_forall in F. apply F in Hx. unfold bitrate_lt in Hx. lia.
Qed.

(** X16.  The read of [min_bitrate_history_.front()] at line 315 is safe and
    never above the current bitrate.  [UpdateMinHistory] leaves the history
    non-empty, with the pair of the current time and bitrate at the back;
    and so does every tick.  When the bitrates of the history were strictly
    increasing (as every sequence of calls keeps them), the front is its
    least bitrate and is at most the bitrate just pushed. *)
Theorem min_bitrate_history_front_defined :
  forall (now_ms : Z) (s : SendSideBandwidthEstimation),
    let d := min_bitrate_history_ (UpdateMinHistory now_ms s) in
    (exists d', d = d' ++ [(now_ms, bitrate_ s)]) /\
    (exists b d', min_bitrate_history_ (UpdateEstimate now_ms s) =
                  d' ++ [(now_ms, b)]) /\
    (StronglySorted bitrate_lt (min_bitrate_history_ s) ->
     (forall x, In x d -> front_bitrate d <= snd x) /\
     front_bitrate d <= bitrate_ s).
Proof.
  intros now s d.
  assert (Hd : d = min_history_push now (bitrate_ s) (min_bitrate_history_ s))
    by (subst d; unfold UpdateMinHistory; destruct s; reflexivity).
  split; [rewrite Hd; apply min_history_push_last |].
  split.
  - destruct (UpdateEstimate_history now s) as (b & d0 & _ & ->).
    exists b. apply min_history_push_last.
  - intros Hs.
    assert (Hs' : StronglySorted bitrate_lt d)
      by (rewrite Hd; now apply min_history_push_bitrate_sorted).
    pose proof (StronglySorted_front_least d Hs') as F.
    split; [exact F |].
    destruct (min_history_push_last now (bitrate_ s) (min_bitrate_history_ s))
      as [d' E].
    rewrite <- Hd in E.
    apply (F (now, bitrate_ s)). rewrite E. apply in_or_app. right. now left.
Qed.

Lemma min_bitrate_history_front_defined_witness :
  let s := set_min_bitrate_history_ [(2500, 90000); (2800, 120000)]
             (SetBitrates default_trials 100000 10000 2000000 default_state) in
  min_bitrate_history_ (UpdateMinHistory 3000 s) = [(2500, 90000); (3000, 100000)] /\
  front_bitrate (min_bitrate_history_ (UpdateMinHistory 3000 s)) <= bitrate_ s.
Proof.
  cbv zeta. split; [reflexivity |].
  destruct (min_bitrate_history_front_defined 3000
              (set_min_bitrate_history_ [(2500, 90000); (2800, 120000)]
                 (SetBitrates default_trials 100000 10000 2000000 default_state)))
    as (_ & _ & H).
  apply H. repeat constructor.
Defined.

(** ** Construction and configuration *)

(** X17.  Every estimator the constructor returns starts from a consistent
    state: the loss thresholds are ordered, [bitrate_threshold_bps_] is
    1000 times the configured kbps value without wrap-around, the estimate
    is zero with no loss and no round-trip time, the history is empty, the
    bounds are the system minimum and [kDefaultMaxBitrateBps], and the
    accumulators and the metrics are in their initial, consistent state.
    The constructor fails (an [RTC_CHECK] aborts) only on experiment
    parameters that violate the checks of lines 77-92. *)
Theorem NewSendSideBandwidthEstimation_initial :
  forall ft : FieldTrials,
    match NewSendSideBandwidthEstimation ft with
    | Some s =>
        F32.leb (low_loss_threshold_ s) (high_loss_threshold_ s) = true /\
        bitrate_threshold_bps_ s =
          match BweLossExperiment ft with
          | Some (_, _, kbps) => kbps * 1000
          | None => 0
          end /\
        0 <= bitrate_threshold_bps_ s <= INT_MAX /\
        CurrentEstimate s = (0, 0, 0) /\
        min_bitrate_history_ s = [] /\
        min_bitrate_configured_ s = to_uint32 (GetMinBitrateBps ft) /\
        max_bitrate_configured_ s = kDefaultMaxBitrateBps /\
        in_timeout_experiment_ s = FeedbackTimeout_IsEnabled ft /\
        accumulators_ok s /\ one_shot s
    | None =>
        exists low high kbps,
          BweLossExperiment ft = Some (low, high, kbps) /\
          BweLossExperimentParametersOk low high kbps = false
    end.
Proof.
  intros ft. unfold NewSendSideBandwidthEstimation.
  destruct (BweLossExperiment ft) as [[[low high] kbps] |].
  - destruct (BweLossExperimentParametersOk low high kbps) eqn:Ok;
      [| exists low, high, kbps; split; reflexivity || exact Ok].
    unfold BweLossExperimentParametersOk in Ok.
    repeat (apply andb_prop in Ok; destruct Ok as [Ok ?]).
    assert (Hk : 0 <= kbps * 1000 <= INT_MAX).
    { unfold INT_MAX in *.
      match goal with H : (0 <=? kbps) = true |- _ => apply Z.leb_le in H end.
      match goal with H : (kbps <? _) = true |- _ => apply Z.ltb_lt in H end.
      change ((2 ^ 31 - 1) / 1000) with 2147483 in *. lia. }
    assert (Hu : to_uint32 (kbps * 1000) = kbps * 1000)
      by (apply to_uint32_small; unfold INT_MAX in Hk; lia).
    cbn [InitialState low_loss_threshold_ high_loss_threshold_
         bitrate_threshold_bps_ min_bitrate_history_ min_bitrate_configured_
         max_bitrate_configured_ in_timeout_experiment_].
    rewrite Hu.
    repeat split; try assumption; try apply Hk;
      try (unfold accumulators_ok, kLimitNumPackets; cbn; lia).
    apply InitialState_one_shot.
  - cbn [InitialState low_loss_threshold_ high_loss_threshold_
         bitrate_threshold_bps_ min_bitrate_history_ min_bitrate_configured_
         max_bitrate_configured_ in_timeout_experiment_].
    repeat split; try (vm_compute; congruence);
      try (unfold accumulators_ok, kLimitNumPackets; cbn; lia).
    apply InitialState_one_shot.
Qed.

(** X18.  [SetMinMaxBitrate] followed by [GetMinBitrate]: the configured minimum
    is the larger of the argument and the system minimum, so never below
    the latter.  A positive maximum is raised to the minimum if it is below
    it; a non-positive one selects [kDefaultMaxBitrateBps].  The estimate
    itself is not touched: it is capped to the new bounds by the next
    capping operation only. *)
Theorem SetMinMaxBitrate_GetMinBitrate :
  forall (ft : FieldTrials) (min_bitrate max_bitrate : Z)
         (s : SendSideBandwidthEstimation),
    0 <= min_bitrate <= INT_MAX ->
    0 <= GetMinBitrateBps ft <= INT_MAX ->
    let s' := SetMinMaxBitrate ft min_bitrate max_bitrate s in
    GetMinBitrate s' = Z.max min_bitrate (GetMinBitrateBps ft) /\
    (0 < max_bitrate <= INT_MAX ->
     max_bitrate_configured_ s' = Z.max (GetMinBitrate s') max_bitrate /\
     min_bitrate_configured_ s' <= max_bitrate_configured_ s') /\
    (max_bitrate <= 0 -> max_bitrate_configured_ s' = kDefaultMaxBitrateBps) /\
    CurrentEstimate s' = CurrentEstimate s /\
    min_bitrate_history_ s' = min_bitrate_history_ s.
Proof.
  intros ft mn mx s Hmn Hsys s'. subst s'.
  unfold SetMinMaxBitrate, GetMinBitrate, CurrentEstimate.
  assert (Hm : to_uint32 (Z.max mn (GetMinBitrateBps ft)) =
               Z.max mn (GetMinBitrateBps ft))
    by (apply to_uint32_small; unfold INT_MAX in *; lia).
  rewrite Hm.
  destruct (Z.gtb_spec mx 0); destruct s; sbe_simpl;
    rewrite to_int_small by lia;
    (split; [reflexivity |]); (split; [| split; [| split; reflexivity]]);
    intros Hx; try lia; try reflexivity.
  rewrite to_uint32_small by (unfold INT_MAX in *; lia). split; [reflexivity | lia].
Qed.

Lemma SetMinMaxBitrate_GetMinBitrate_witness :
  GetMinBitrate (SetMinMaxBitrate default_trials 5000 3000 default_state) = 10000 /\
  max_bitrate_configured_
    (SetMinMaxBitrate default_trials 5000 3000 default_state) = 10000.
Proof.
  destruct (SetMinMaxBitrate_GetMinBitrate default_trials 5000 3000 default_state
              ltac:(unfold INT_MAX; lia)
              ltac:(vm_compute; split; discriminate)) as (H1 & H2 & _).
  split; [exact H1 |].
  exact (proj1 (H2 ltac:(unfold INT_MAX; lia))).
Defined.

(** X19.  An external estimate never raises the bitrate.  [UpdateReceiverEstimate]
    and [UpdateDelayBasedEstimate] store the value and re-cap the current
    bitrate: afterwards it is at least the configured minimum, at most the
    larger of the configured minimum and its value before, and, for a
    positive estimate, at most the larger of the configured minimum and the
    estimate.  (Only a tick in the start phase adopts an estimate as the
    bitrate.) *)
Theorem external_estimates_only_cap :
  forall (now_ms v : Z) (s : SendSideBandwidthEstimation),
    let bounded (s' : SendSideBandwidthEstimation) :=
      min_bitrate_configured_ s <= bitrate_ s' /\
      bitrate_ s' <= Z.max (min_bitrate_configured_ s) (bitrate_ s) /\
      (0 < v -> bitrate_ s' <= Z.max (min_bitrate_configured_ s) v) in
    (bwe_incoming_ (UpdateReceiverEstimate now_ms v s) = v /\
     bounded (UpdateReceiverEstimate now_ms v s)) /\
    (delay_based_bitrate_bps_ (UpdateDelayBasedEstimate now_ms v s) = v /\
     bounded (UpdateDelayBasedEstimate now_ms v s)).
Proof.
  intros now v s bounded. subst bounded. cbv beta.
  unfold UpdateReceiverEstimate, UpdateDelayBasedEstimate. split.
  - destruct (Cap_then_store_shape now (bitrate_ (set_bwe_incoming_ v s))
                (set_bwe_incoming_ v s)) as (l & k & ->).
    unfold cap_value, ceiling. destruct s; sbe_simpl.
    repeat split; intros; zcases; lia.
  - destruct (Cap_then_store_shape now
                (bitrate_ (set_delay_based_bitrate_bps_ v s))
                (set_delay_based_bitrate_bps_ v s)) as (l & k & ->).
    unfold cap_value, ceiling. destruct s; sbe_simpl.
    repeat split; intros; zcases; lia.
Qed.

Lemma external_estimates_only_cap_witness :
  let s := SetBitrates default_trials 500000 10000 2000000 default_state in
  bitrate_ (UpdateReceiverEstimate 0 300000 s) <= 300000 /\
  bitrate_ (UpdateDelayBasedEstimate 0 800000 s) <= 500000.
Proof.
  cbv zeta.
  destruct (external_estimates_only_cap 0 300000
              (SetBitrates default_trials 500000 10000 2000000 default_state))
    as [(_ & _ & _ & H) _].
  destruct (external_estimates_only_cap 0 800000
              (SetBitrates default_trials 500000 10000 2000000 default_state))
    as [_ (_ & _ & H' & _)].
  split; [exact (H ltac:(lia)) | exact H'].
Defined.

(** ** The unsigned fields stay in range *)

Definition uint32_range (z : Z) : Prop := 0 <= z < 2 ^ 32.

(** The values of the [uint32_t] and [uint8_t] members that the control
    loop computes with are those of their C++ types. *)
Definition in_range (s : SendSideBandwidthEstimation) : Prop :=
  uint32_range (bitrate_ s) /\
  uint32_range (min_bitrate_configured_ s) /\
  uint32_range (max_bitrate_configured_ s) /\
  uint32_range (bwe_incoming_ s) /\
  uint32_range (delay_based_bitrate_bps_ s) /\
  0 <= last_fraction_loss_ s <= 255 /\
  Forall (fun x => uint32_range (snd x)) (min_bitrate_history_ s).

(** The [uint32_t] arguments of the calls. *)
Definition call_in_range (c : Call) : Prop :=
  match c with
  | CallUpdateReceiverEstimate _ bandwidth => uint32_range bandwidth
  | CallUpdateDelayBasedEstimate _ bitrate_bps => uint32_range bitrate_bps
  | _ => True
  end.

Lemma to_uint32_range z : uint32_range (to_uint32 z).
Proof. unfold uint32_range, to_uint32. apply Z.mod_pos_bound. lia. Qed.

Lemma cap_value_range s b :
  uint32_range (min_bitrate_configured_ s) ->
  uint32_range (max_bitrate_configured_ s) ->
  uint32_range (cap_value s b).
Proof. unfold uint32_range, cap_value. lia. Qed.

Lemma min_history_push_entries now b d x :
  In x (min_history_push now b d) -> In x d \/ x = (now, b).
Proof.
  unfold min_history_push. intros H. apply in_app_or in H.
  destruct H as [H | [<- | []]]; [left | now right].
  now apply pop_back_while_incl, pop_front_while_incl in H.
Qed.

Lemma UpdateEstimate_history_entries now s x :
  In x (min_bitrate_history_ (UpdateEstimate now s)) ->
  In x (min_bitrate_history_ s) \/ x = (now, bitrate_ s) \/
  x = (now, bitrate_ (StartupTrust now s)).
Proof.
  unfold UpdateEstimate.
  destruct (_ && _).
  - destruct (negb _).
    + destruct (StartupTrust now s); sbe_simpl.
      intros [<- | []]. right; right; reflexivity.
    + rewrite RegularUpdate_history, StartupTrust_history. intros H.
      apply min_history_push_entries in H. destruct H as [H | H]; auto.
  - rewrite RegularUpdate_history. intros H.
    apply min_history_push_entries in H. destruct H as [H | H]; auto.
Qed.

Lemma UpdateEstimate_in_range now s : in_range s -> in_range (UpdateEstimate now s).
Proof.
  intros (Hb & Hn & Hx & Hr & Hd & Hf & Hh).
  pose proof (UpdateEstimate_same_inputs now s) as I.
  apply same_inputs_fields in I.
  destruct I as ((T1 & T2 & T3 & T4) & If & _).
  unfold in_range. rewrite T1, T2, T3, T4, If.
  assert (Hc : forall s', holds_capped s s' -> uint32_range (bitrate_ s'))
    by (intros s' [b ->]; now apply cap_value_range).
  repeat split; try apply Hn; try apply Hx; try apply Hr; try apply Hd;
    try apply Hf; try (apply (Hc _ (UpdateEstimate_capped now s))).
  apply Forall_forall. intros x Hin.
  apply UpdateEstimate_history_entries in Hin.
  destruct Hin as [Hin | [-> | ->]]; cbn [snd].
  - rewrite Forall_forall in Hh. now apply Hh.
  - exact Hb.
  - destruct (StartupTrust_bitrate now s) as [-> | C]; [exact Hb | now apply Hc].
Qed.

Lemma UpdateUmaStats_in_range now rtt lost s :
  in_range s -> in_range (UpdateUmaStats now rtt lost s).
Proof.
  destruct (UpdateUmaStats_frame now rtt lost s) as [F _].
  apply without_metrics_fields in F.
  destruct F as (_ & _ & F3 & F4 & _ & _ & _ & _ & _ & F10 & (T1 & T2 & T3 & T4) & _).
  unfold in_range. now rewrite F3, F4, F10, T1, T2, T3, T4.
Qed.

Lemma Cap_then_store_in_range now s :
  in_range s ->
  in_range (let '(b', s') := CapBitrateToThresholds now (bitrate_ s) s in
            set_bitrate_ b' s').
Proof.
  intros (Hb & Hn & Hx & Hr & Hd & Hf & Hh).
  destruct (Cap_then_store_shape now (bitrate_ s) s) as (l & k & ->).
  pose proof (cap_value_range s (bitrate_ s) Hn Hx) as Hc.
  destruct s; unfold in_range in *; sbe_simpl; sbe_simpl_all.
  repeat split; try apply Hc; try apply Hn; try apply Hx; try apply Hr;
    try apply Hd; try apply Hf; exact Hh.
Qed.

Lemma step_in_range ft c s :
  call_in_range c -> in_range s -> in_range (step ft c s).
Proof.
  intros Hc Hs.
  destruct c as [b mn mx | b | mn mx | now bw | now b | fl rtt n now | now];
    cbn [step call_in_range] in *.
  - destruct Hs as (Hb & Hn & Hx & Hr & Hd & Hf & Hh).
    pose proof (to_uint32_range b). pose proof (to_uint32_range mx).
    pose proof (to_uint32_range (Z.max mn (GetMinBitrateBps ft))).
    unfold SetBitrates, SetMinMaxBitrate, SetSendBitrate, in_range, uint32_range in *.
    split_ifs; destruct s; sbe_simpl; sbe_simpl_all;
      unfold kDefaultMaxBitrateBps;
      repeat split; try lia; try assumption; try constructor.
  - destruct Hs as (Hb & Hn & Hx & Hr & Hd & Hf & Hh).
    pose proof (to_uint32_range b).
    unfold SetSendBitrate, in_range, uint32_range in *.
    destruct s; sbe_simpl; sbe_simpl_all.
    repeat split; try lia; try assumption; try constructor.
  - destruct Hs as (Hb & Hn & Hx & Hr & Hd & Hf & Hh).
    pose proof (to_uint32_range mx).
    pose proof (to_uint32_range (Z.max mn (GetMinBitrateBps ft))).
    unfold SetMinMaxBitrate, in_range, uint32_range in *.
    split_ifs; destruct s; sbe_simpl; sbe_simpl_all;
      unfold kDefaultMaxBitrateBps;
      repeat split; try lia; try assumption.
  - unfold UpdateReceiverEstimate. apply Cap_then_store_in_range.
    destruct Hs as (Hb & Hn & Hx & Hr & Hd & Hf & Hh).
    unfold in_range. destruct s; sbe_simpl; sbe_simpl_all.
    repeat split; try apply Hb; try apply Hn; try apply Hx; try apply Hc;
      try apply Hd; try apply Hf; exact Hh.
  - unfold UpdateDelayBasedEstimate. apply Cap_then_store_in_range.
    destruct Hs as (Hb & Hn & Hx & Hr & Hd & Hf & Hh).
    unfold in_range. destruct s; sbe_simpl; sbe_simpl_all.
    repeat split; try apply Hb; try apply Hn; try apply Hx; try apply Hc;
      try apply Hr; try apply Hf; exact Hh.
  - assert (Hh : in_range (ReceiverBlockHeader rtt now s)).
    { rewrite ReceiverBlockHeader_eq. unfold in_range in *.
      destruct s; sbe_simpl; sbe_simpl_all. exact Hs. }
    destruct (Z.ltb_spec 0 n) as [Hn | Hn].
    + destruct (Z.ltb_spec
                  (to_int (expected_packets_since_last_loss_update_ s + n))
                  kLimitNumPackets) as [Hp | Hp].
      * rewrite (UpdateReceiverBlock_pending _ _ _ _ _ Hn Hp).
        unfold in_range in *.
        destruct (ReceiverBlockHeader rtt now s); sbe_simpl; sbe_simpl_all.
        exact Hh.
      * rewrite (UpdateReceiverBlock_sample _ _ _ _ _ Hn Hp).
        apply UpdateUmaStats_in_range, UpdateEstimate_in_range.
        unfold SampleState. cbv zeta.
        set (q := to_uint8 _).
        assert (Hq : 0 <= q <= 255).
        { subst q. unfold to_uint8.
          match goal with
          | |- 0 <= ?a mod ?m <= 255 =>
              pose proof (Z.mod_pos_bound a m ltac:(lia)); lia
          end. }
        clearbody q. unfold in_range in *.
        destruct (ReceiverBlockHeader rtt now s); sbe_simpl; sbe_simpl_all.
        destruct Hh as (Hb & Hmn & Hx & Hr & Hd & Hf & Hh).
        repeat split; try apply Hb; try apply Hmn; try apply Hx; try apply Hr;
          try apply Hd; try apply Hq; exact Hh.
    + rewrite (UpdateReceiverBlock_no_packets _ _ _ _ _ Hn).
      now apply UpdateUmaStats_in_range.
  - now apply UpdateEstimate_in_range.
Qed.

(** X20.  No operation takes an unsigned member out of the range of its type:
    when the [uint32_t] arguments of the calls are in range, the bitrate,
    the configured bounds, the two external estimates and the bitrates of
    the history stay within [0, 2^32), and the loss fraction within
    [0, 255], along every sequence of calls.  In particular the estimate is
    never negative. *)
Theorem run_in_range :
  forall (ft : FieldTrials) (cs : list Call) (s : SendSideBandwidthEstimation),
    Forall call_in_range cs ->
    in_range s ->
    in_range (run ft cs s).
Proof.
  intros ft cs. unfold run.
  induction cs as [|c cs IH]; intros s Hcs Hs; cbn [fold_left]; [exact Hs |].
  apply Forall_cons_iff in Hcs. destruct Hcs as [Hc Hcs].
  apply IH; [exact Hcs |]. now apply step_in_range.
Qed.

Lemma run_in_range_witness :
  in_range
    (run default_trials
       [CallSetBitrates 300000 10000 2000000;
        CallUpdateReceiverEstimate 0 4000000000;
        CallUpdateReceiverBlock 200 100 30 0;
        CallUpdateEstimate 500] default_state).
Proof.
  apply (run_in_range default_trials
           [CallSetBitrates 300000 10000 2000000;
            CallUpdateReceiverEstimate 0 4000000000;
            CallUpdateReceiverBlock 200 100 30 0;
            CallUpdateEstimate 500] default_state).
  - repeat apply Forall_cons; try exact I;
      [cbn [call_in_range]; unfold uint32_range; lia | apply Forall_nil].
  - unfold in_range, uint32_range.
    repeat (split; [vm_compute; split; (discriminate || reflexivity) |]).
    constructor.
Defined.

(** ** The increase rule and the current bitrate *)

(** The tick in the feedback-fresh branch with low loss or low bitrate, in
    the arithmetic of the source. *)
Lemma UpdateEstimate_increase now s :
  StartupAdopts now s = false ->
  last_packet_report_ms_ s <> -1 ->
  now - last_packet_report_ms_ s < 1800 ->
  bitrate_ s < bitrate_threshold_bps_ s \/
    F32.leb (LossOf s) (low_loss_threshold_ s) = true ->
  bitrate_ (UpdateEstimate now s) =
  cap_value s
    (IncreasedBitrate
       (front_bitrate
          (min_history_push now (bitrate_ s) (min_bitrate_history_ s)))).
Proof.
  intros Hs Hp Hfresh Hlow.
  destruct (UpdateEstimate_regular now s Hs) as (l & k & ->).
  unfold RegularUpdate, UpdateMinHistory. unfold LossOf in *.
  destruct s as [lq ex br mn mx ll hd fb pr tmo fl lg rt bi db td fr il b2 us ru
                 re te lo hi bt mh sk]. sbe_simpl. sbe_simpl_all.
  destruct (Z.eqb_spec pr (-1)); [contradiction |].
  unfold LossBasedControl, LossOf. sbe_simpl.
  rewrite FeedbackIsFresh_eq.
  destruct (Z.ltb_spec (now - pr) 1800); [| lia].
  assert (C : (br <? bt) || F32.leb (F32.div (F32.of_Z fl) f256) lo = true).
  { destruct Hlow as [Hc | Hc]; [apply Z.ltb_lt in Hc | ]; rewrite Hc;
      [reflexivity | apply orb_true_r]. }
  rewrite C.
  match goal with
  | |- context [CapAndLog now ?x] =>
      destruct (CapAndLog_shape now x) as (l' & k' & g' & r' & ->)
  end. reflexivity.
Qed.

(** X21.  [SetSendBitrate] restarts the ramp-up from the value it is given (it
    clears the history "so the new value can be used directly").  Whatever
    the history held, the next tick that takes the increase rule computes
    from the new bitrate [b] alone: it stores
    [round(1.08 * b) + 1000], capped. *)
Theorem SetSendBitrate_restarts_increase :
  forall (now_ms b : Z) (s : SendSideBandwidthEstimation),
    0 < b <= INT_MAX ->
    let s1 := SetSendBitrate b s in
    StartupAdopts now_ms s1 = false ->
    last_packet_report_ms_ s <> -1 ->
    now_ms - last_packet_report_ms_ s < 1800 ->
    b < bitrate_threshold_bps_ s \/
      F32.leb (LossOf s) (low_loss_threshold_ s) = true ->
    min_bitrate_history_ (UpdateMinHistory now_ms s1) = [(now_ms, b)] /\
    bitrate_ (UpdateEstimate now_ms s1) =
      fst (CapBitrateToThresholds now_ms ((108 * b + 50) / 100 + 1000) s).
Proof.
  intros now b s Hb s1 Hs Hp Hfresh Hlow.
  assert (Hu : to_uint32 b = b)
    by (apply to_uint32_small; unfold INT_MAX in Hb; lia).
  assert (E : bitrate_ s1 = b /\ min_bitrate_history_ s1 = [] /\
              last_packet_report_ms_ s1 = last_packet_report_ms_ s /\
              bitrate_threshold_bps_ s1 = bitrate_threshold_bps_ s /\
              LossOf s1 = LossOf s /\
              low_loss_threshold_ s1 = low_loss_threshold_ s /\
              same_thresholds s s1).
  { subst s1. unfold SetSendBitrate, LossOf, same_thresholds.
    destruct s; sbe_simpl. rewrite Hu. repeat split. }
  destruct E as (E1 & E2 & E3 & E4 & E5 & E6 & T).
  split.
  - unfold UpdateMinHistory. rewrite E1, E2. destruct s1; reflexivity.
  - rewrite UpdateEstimate_increase;
      [| exact Hs | now rewrite E3 | now rewrite E3
       | now rewrite E1, E4, E5, E6].
    rewrite E1, E2, Cap_fst, (cap_value_same_thresholds _ _ _ T).
    change (front_bitrate (min_history_push now b [])) with b.
    rewrite IncreasedBitrate_round by lia. reflexivity.
Qed.

Lemma SetSendBitrate_restarts_increase_witness :
  bitrate_ (UpdateEstimate 3000 (SetSendBitrate 300000 low_loss_state)) = 325000.
Proof.
  exact (proj2 (SetSendBitrate_restarts_increase 3000 300000 low_loss_state
                  ltac:(unfold INT_MAX; lia) eq_refl
                  ltac:(vm_compute; discriminate)
                  ltac:(vm_compute; reflexivity)
                  (or_intror eq_refl))).
Defined.

(** X22.  An increase step is bounded by the current bitrate: with the bitrates
    of the history strictly increasing (as every sequence of calls keeps
    them) and within [int] range, the base of the increase, the front of
    the history, is at most the current bitrate, so the tick stores at most
    the capped [round(1.08 * bitrate_) + 1000]. *)
Theorem UpdateEstimate_increase_bounded :
  forall (now_ms : Z) (s : SendSideBandwidthEstimation),
    StartupAdopts now_ms s = false ->
    last_packet_report_ms_ s <> -1 ->
    now_ms - last_packet_report_ms_ s < 1800 ->
    bitrate_ s < bitrate_threshold_bps_ s \/
      F32.leb (LossOf s) (low_loss_threshold_ s) = true ->
    0 <= bitrate_ s <= INT_MAX ->
    Forall (fun x => 0 <= snd x <= INT_MAX) (min_bitrate_history_ s) ->
    StronglySorted bitrate_lt (min_bitrate_history_ s) ->
    bitrate_ (UpdateEstimate now_ms s) <=
      fst (CapBitrateToThresholds now_ms
             ((108 * bitrate_ s + 50) / 100 + 1000) s).
Proof.
  intros now s Hs Hp Hfresh Hlow Hb Hh Hsorted.
  rewrite (UpdateEstimate_increase now s Hs Hp Hfresh Hlow), Cap_fst.
  apply cap_value_mono.
  set (d := min_history_push now (bitrate_ s) (min_bitrate_history_ s)).
  assert (Hf : 0 <= front_bitrate d <= INT_MAX)
    by (subst d; now apply front_bitrate_push).
  assert (Hle : front_bitrate d <= bitrate_ s).
  { assert (Hd : StronglySorted bitrate_lt d)
      by (subst d; now apply min_history_push_bitrate_sorted).
    apply (StronglySorted_front_least d Hd (now, bitrate_ s)).
    subst d. unfold min_history_push. apply in_or_app. right. now left. }
  rewrite IncreasedBitrate_round by exact Hf.
  assert ((108 * front_bitrate d + 50) / 100 <= (108 * bitrate_ s + 50) / 100)
    by (apply Z.div_le_mono; lia).
  lia.
Qed.

Lemma UpdateEstimate_increase_bounded_witness :
  bitrate_ (UpdateEstimate 3000 low_loss_state) <= 109000.
Proof.
  exact (UpdateEstimate_increase_bounded 3000 low_loss_state
           eq_refl ltac:(vm_compute; discriminate)
           ltac:(vm_compute; reflexivity) (or_intror eq_refl)
           ltac:(vm_compute; split; discriminate)
           ltac:(repeat constructor; vm_compute; discriminate)
           ltac:(repeat constructor)).
Defined.

(** ** Start-up adoption *)

(** X23.  A tick that ends in the start-up block (lines 276-288) stores one of
    the two external estimates, capped, restarts the history from that
    single value, and touches nothing else of the loss-based control: the
    decrease latch, the time of the last decrease, the accumulators, the
    timeout stamp and the event-log bookkeeping keep their values.  It
    happens only with no loss reported and in the start phase. *)
Theorem UpdateEstimate_startup_adoption :
  forall (now_ms : Z) (s : SendSideBandwidthEstimation),
    StartupAdopts now_ms s = true ->
    let s' := UpdateEstimate now_ms s in
    (last_fraction_loss_ s = 0 /\ IsInStartPhase now_ms s = true) /\
    min_bitrate_history_ s' = [(now_ms, bitrate_ s')] /\
    (bitrate_ s' = fst (CapBitrateToThresholds now_ms (bwe_incoming_ s) s) \/
     bitrate_ s' =
       fst (CapBitrateToThresholds now_ms (delay_based_bitrate_bps_ s) s)) /\
    has_decreased_since_last_fraction_loss_ s' =
      has_decreased_since_last_fraction_loss_ s /\
    time_last_decrease_ms_ s' = time_last_decrease_ms_ s /\
    lost_packets_since_last_loss_update_Q8_ s' =
      lost_packets_since_last_loss_update_Q8_ s /\
    expected_packets_since_last_loss_update_ s' =
      expected_packets_since_last_loss_update_ s /\
    last_timeout_ms_ s' = last_timeout_ms_ s /\
    last_rtc_event_log_ms_ s' = last_rtc_event_log_ms_ s.
Proof.
  intros now s A s'. subst s'.
  unfold StartupAdopts in A.
  apply andb_prop in A. destruct A as [A Hch].
  apply andb_prop in A. destruct A as [Hl Hp].
  split; [split; [now apply Z.eqb_eq | exact Hp] |].
  unfold UpdateEstimate. rewrite Hl, Hp, Hch. cbn [andb].
  assert (Hb : bitrate_ (StartupTrust now s) = cap_value s (bwe_incoming_ s) \/
               bitrate_ (StartupTrust now s) =
                 cap_value s (delay_based_bitrate_bps_ s)).
  { apply negb_true_iff, Z.eqb_neq in Hch. revert Hch. unfold StartupTrust.
    set (s1 := if bwe_incoming_ s >? bitrate_ s then _ else s).
    assert (H1 : same_inputs s s1 /\
                 (bitrate_ s1 = bitrate_ s \/
                  bitrate_ s1 = cap_value s (bwe_incoming_ s))).
    { subst s1. destruct (_ >? _).
      - split; [apply Cap_then_store_same_inputs |].
        right. apply Cap_then_store_bitrate.
      - split; [apply same_inputs_refl | now left]. }
    clearbody s1. destruct H1 as [I1 H1].
    apply same_inputs_fields in I1. destruct I1 as [T I1].
    destruct T as (T1 & T2 & T3 & T4).
    destruct (_ >? _).
    - intros _. right. rewrite Cap_then_store_bitrate, T2.
      apply cap_value_same_thresholds. repeat split; assumption.
    - intros Hne. destruct H1 as [H1 | H1]; [contradiction | now left]. }
  rewrite !Cap_fst.
  destruct (StartupTrust_shape now s) as (l & k & E).
  rewrite E in *. clear E.
  destruct s; sbe_simpl; sbe_simpl_all. repeat split. exact Hb.
Qed.

Lemma UpdateEstimate_startup_adoption_witness :
  let s := run default_trials
             [CallSetBitrates 100000 10000 2000000;
              CallUpdateDelayBasedEstimate 0 500000] default_state in
  min_bitrate_history_ (UpdateEstimate 10 s) = [(10, 500000)].
Proof.
  cbv zeta.
  destruct (UpdateEstimate_startup_adoption 10
              (run default_trials
                 [CallSetBitrates 100000 10000 2000000;
                  CallUpdateDelayBasedEstimate 0 500000] default_state)
              eq_refl) as (_ & H & _).
  exact H.
Defined.

(** ** From a receiver block to the bitrate *)

(** The tick in the feedback-fresh branch with high loss and the decrease
    due, in the arithmetic of the source. *)
Lemma UpdateEstimate_decrease now s :
  StartupAdopts now s = false ->
  last_packet_report_ms_ s <> -1 ->
  now - last_packet_report_ms_ s < 1800 ->
  bitrate_ s > bitrate_threshold_bps_ s ->
  F32.leb (low_loss_threshold_ s) (high_loss_threshold_ s) = true ->
  F32.ltb (high_loss_threshold_ s) (LossOf s) = true ->
  has_decreased_since_last_fraction_loss_ s = false ->
  now - time_last_decrease_ms_ s >=
    kBweDecreaseIntervalMs + last_round_trip_time_ms_ s ->
  bitrate_ (UpdateEstimate now s) =
    cap_value s (DecreasedBitrate (bitrate_ s) (last_fraction_loss_ s)) /\
  has_decreased_since_last_fraction_loss_ (UpdateEstimate now s) = true /\
  time_last_decrease_ms_ (UpdateEstimate now s) = now.
Proof.
  intros Hs Hp Hfresh Hthr Hlh Hhigh Hlatch Hint.
  pose proof (SFltb_not_leb _ _ Hhigh) as Hnh.
  assert (Hnl : F32.leb (LossOf s) (low_loss_threshold_ s) = false).
  { destruct (F32.leb (LossOf s) (low_loss_threshold_ s)) eqn:E; [| reflexivity].
    unfold F32.leb in *. rewrite (SFleb_trans _ _ _ E Hlh) in Hnh. discriminate. }
  destruct (UpdateEstimate_regular now s Hs) as (l & k & ->).
  unfold RegularUpdate, UpdateMinHistory. unfold LossOf in *.
  destruct s as [lq ex br mn mx ll hd fb pr tmo fl lg rt bi db td fr il b2 us ru
                 re te lo hi bt mh sk]. sbe_simpl. sbe_simpl_all.
  destruct (Z.eqb_spec pr (-1)); [contradiction |].
  unfold LossBasedControl, LossOf. sbe_simpl.
  rewrite FeedbackIsFresh_eq.
  destruct (Z.ltb_spec (now - pr) 1800); [| lia].
  destruct (Z.ltb_spec br bt); [lia |].
  destruct (Z.gtb_spec br bt); [| lia].
  unfold F32.leb in *. rewrite Hnl, Hnh. cbn [orb]. subst hd. cbn [negb andb].
  destruct (Z.geb_spec (now - td) (kBweDecreaseIntervalMs + rt)); [| lia].
  match goal with
  | |- context [CapAndLog now ?x] =>
      destruct (CapAndLog_shape now x) as (l' & k' & g' & r' & ->)
  end; sbe_simpl; repeat split.
Qed.

(** X24.  A receiver block that completes a sample with high loss cuts the
    bitrate at once, when its packet count is one for which the [int]
    arithmetic of lines 217-220 cannot wrap (255 times the accumulated
    count is at most [INT_MAX]).  The block stores the new loss fraction
    [q], the packet-weighted mean of the loss fractions accumulated, clears
    the decrease latch, stamps [last_packet_report_ms_] and runs a tick;
    that tick finds the feedback fresh and, a non-zero loss ruling out the
    start-up adoption, takes the loss-based rule: with the bitrate above
    [bitrate_threshold_bps_], the loss [q]/256 above [high_loss_threshold_]
    and at least [kBweDecreaseIntervalMs] plus the reported round-trip time
    since the last decrease, the block leaves the bitrate at
    [bitrate * (512 - q) / 512], capped, with the latch set. *)
Theorem UpdateReceiverBlock_high_loss_decrease :
  forall (fraction_loss rtt number_of_packets now_ms : Z)
         (s : SendSideBandwidthEstimation),
    0 <= fraction_loss <= 255 ->
    0 <= now_ms ->
    accumulators_ok s ->
    0 < number_of_packets ->
    kLimitNumPackets <=
      expected_packets_since_last_loss_update_ s + number_of_packets ->
    255 * (expected_packets_since_last_loss_update_ s + number_of_packets)
      <= INT_MAX ->
    let q := (lost_packets_since_last_loss_update_Q8_ s +
              fraction_loss * number_of_packets) /
             (expected_packets_since_last_loss_update_ s + number_of_packets) in
    0 <= bitrate_ s < 2 ^ 32 ->
    bitrate_ s > bitrate_threshold_bps_ s ->
    F32.leb (low_loss_threshold_ s) (high_loss_threshold_ s) = true ->
    F32.ltb f32_zero (high_loss_threshold_ s) = true ->
    F32.ltb (high_loss_threshold_ s) (F32.div (F32.of_Z q) f256) = true ->
    now_ms - time_last_decrease_ms_ s >= kBweDecreaseIntervalMs + rtt ->
    let s' := UpdateReceiverBlock fraction_loss rtt number_of_packets now_ms s in
    last_fraction_loss_ s' = q /\
    bitrate_ s' =
      fst (CapBitrateToThresholds now_ms (bitrate_ s * (512 - q) / 512) s) /\
    has_decreased_since_last_fraction_loss_ s' = true /\
    time_last_decrease_ms_ s' = now_ms.
Proof.
  intros fl rtt n now s Hfl Hnow [He Hl] Hn Hs Hov q Hb Hthr Hlh Hpos Hhigh
         Hint s'.
  subst s'.
  destruct (block_no_overflow fl n s Hfl Hn (conj He Hl) Hov) as (O1 & O2 & O3).
  rewrite UpdateReceiverBlock_sample by (rewrite ?O3; lia).
  assert (HE : 0 < expected_packets_since_last_loss_update_ s + n)
    by (unfold kLimitNumPackets in *; lia).
  assert (Hq : 0 <= q <= 255).
  { subst q. split; [apply Z.div_pos; nia |].
    apply Z.div_le_upper_bound; nia. }
  assert (Hu : to_uint8 (Z.quot (lost_packets_since_last_loss_update_Q8_ s + fl * n)
                                (expected_packets_since_last_loss_update_ s + n)) = q).
  { rewrite Z.quot_div_nonneg by nia. unfold to_uint8.
    apply Z.mod_small. fold q. lia. }
  assert (Hq0 : q <> 0).
  { intros E. rewrite E in Hhigh.
    destruct (high_loss_threshold_ s) as [[] | [] | | [] m e];
      vm_compute in Hhigh, Hpos; discriminate. }
  set (s0 := SampleState fl rtt n now s).
  assert (H0 : last_fraction_loss_ s0 = q /\
               last_packet_report_ms_ s0 = now /\
               bitrate_ s0 = bitrate_ s /\
               bitrate_threshold_bps_ s0 = bitrate_threshold_bps_ s /\
               low_loss_threshold_ s0 = low_loss_threshold_ s /\
               high_loss_threshold_ s0 = high_loss_threshold_ s /\
               has_decreased_since_last_fraction_loss_ s0 = false /\
               time_last_decrease_ms_ s0 = time_last_decrease_ms_ s /\
               last_round_trip_time_ms_ s0 = rtt /\
               same_thresholds s s0).
  { subst s0. unfold SampleState. cbv zeta.
    rewrite O2, O3, Hu, ReceiverBlockHeader_eq. unfold same_thresholds.
    destruct s. repeat split. }
  clearbody s0.
  destruct H0 as (P1 & P2 & P3 & P4 & P5 & P6 & P7 & P8 & P9 & T).
  destruct (UpdateUmaStats_frame now rtt (Z.shiftr (to_int (fl * n)) 8)
              (UpdateEstimate now s0)) as [F _].
  apply without_metrics_fields in F.
  destruct F as (_ & _ & F3 & F4 & _ & _ & _ & _ & _ & _ & _ & _ & _ & _ & _
                 & F16 & F17).
  rewrite F3, F4, F16, F17.
  pose proof (UpdateEstimate_same_inputs now s0) as I.
  apply same_inputs_fields in I. destruct I as (_ & I1 & _).
  rewrite I1, P1.
  assert (A : StartupAdopts now s0 = false).
  { unfold StartupAdopts. rewrite P1.
    destruct (Z.eqb_spec q 0); [contradiction | reflexivity]. }
  destruct (UpdateEstimate_decrease now s0 A) as (D1 & D2 & D3).
  - rewrite P2. lia.
  - rewrite P2. lia.
  - rewrite P3, P4. exact Hthr.
  - rewrite P5, P6. exact Hlh.
  - unfold LossOf. rewrite P6, P1. exact Hhigh.
  - exact P7.
  - rewrite P8, P9. exact Hint.
  - rewrite D1, D2, D3, P1, P3, Cap_fst.
    rewrite (cap_value_same_thresholds _ _ _ T).
    rewrite DecreasedBitrate_eq by lia. repeat split.
Qed.

Lemma UpdateReceiverBlock_high_loss_decrease_witness :
  let s := set_first_report_time_ms_ 0
             (SetBitrates default_trials 500000 10000 2000000 default_state) in
  bitrate_ (UpdateReceiverBlock 64 100 30 5000 s) = 437500 /\
  has_decreased_since_last_fraction_loss_
    (UpdateReceiverBlock 64 100 30 5000 s) = true.
Proof.
  cbv zeta.
  destruct (UpdateReceiverBlock_high_loss_decrease 64 100 30 5000
              (set_first_report_time_ms_ 0
                 (SetBitrates default_trials 500000 10000 2000000 default_state))
              ltac:(lia) ltac:(lia)
              ltac:(vm_compute; repeat split; discriminate)
              ltac:(lia) ltac:(vm_compute; discriminate)
              ltac:(vm_compute; discriminate)
              ltac:(vm_compute; split; [discriminate | reflexivity])
              ltac:(vm_compute; reflexivity)
              eq_refl eq_refl eq_refl
              ltac:(vm_compute; discriminate))
    as (_ & H2 & H3 & _).
  split; [exact H2 | exact H3].
Defined.

(** ** Ticks without any input *)

(** A tick with no packet report and no external estimate clamps the
    bitrate between the configured bounds, and changes none of what the
    next such tick reads. *)
Lemma UpdateEstimate_idle now s :
  last_packet_report_ms_ s = -1 ->
  bwe_incoming_ s = 0 ->
  delay_based_bitrate_bps_ s = 0 ->
  0 <= bitrate_ s ->
  let s' := UpdateEstimate now s in
  bitrate_ s' = Z.max (min_bitrate_configured_ s)
                  (Z.min (bitrate_ s) (max_bitrate_configured_ s)) /\
  last_packet_report_ms_ s' = -1 /\
  bwe_incoming_ s' = 0 /\
  delay_based_bitrate_bps_ s' = 0 /\
  min_bitrate_configured_ s' = min_bitrate_configured_ s /\
  max_bitrate_configured_ s' = max_bitrate_configured_ s.
Proof.
  intros Hp Hr Hd Hb s'. subst s'.
  pose proof (UpdateEstimate_same_inputs now s) as I.
  apply same_inputs_fields in I.
  destruct I as ((T1 & T2 & T3 & T4) & _ & Ip & _).
  rewrite T1, T2, T3, T4, Ip.
  repeat split; try assumption.
  assert (A : StartupAdopts now s = false).
  { unfold StartupAdopts, StartupTrust. rewrite Hr.
    destruct (Z.gtb_spec 0 (bitrate_ s)); [lia |]. rewrite Hd.
    destruct (Z.gtb_spec 0 (bitrate_ s)); [lia |].
    rewrite Z.eqb_refl. now rewrite andb_false_r. }
  destruct (UpdateEstimate_regular now s A) as (l & k & ->).
  unfold RegularUpdate, UpdateMinHistory.
  destruct s as [lq ex br mn mx ll hd fb pr tmo fl lg rt bi db td fr il b2 us ru
                 re te lo hi bt mh sk]. sbe_simpl. sbe_simpl_all. subst pr bi db.
  cbn [Z.eqb Pos.eqb].
  match goal with
  | |- context [CapBitrateToThresholds now ?b ?x] =>
      destruct (Cap_then_store_shape now b x) as (l' & k' & ->)
  end. sbe_simpl. unfold cap_value, ceiling. sbe_simpl. reflexivity.
Qed.

(** X25.  Without any input the estimate is stable: with no packet report ever
    received and no external estimate, any number of ticks, at any times,
    leaves the bitrate where the first one put it, clamped between the
    configured bounds (the bounds in the order configured minimum last, as
    in [CapBitrateToThresholds]). *)
Theorem ticks_without_input_are_stable :
  forall (ft : FieldTrials) (now_ms : Z) (ticks : list Z)
         (s : SendSideBandwidthEstimation),
    last_packet_report_ms_ s = -1 ->
    bwe_incoming_ s = 0 ->
    delay_based_bitrate_bps_ s = 0 ->
    0 <= bitrate_ s ->
    0 <= min_bitrate_configured_ s ->
    bitrate_ (run ft (map CallUpdateEstimate (now_ms :: ticks)) s) =
      Z.max (min_bitrate_configured_ s)
        (Z.min (bitrate_ s) (max_bitrate_configured_ s)) /\
    bitrate_ (run ft (map CallUpdateEstimate (now_ms :: ticks)) s) =
      bitrate_ (UpdateEstimate now_ms s).
Proof.
  intros ft now ticks s Hp Hr Hd Hb Hn.
  assert (G : forall ticks s,
             last_packet_report_ms_ s = -1 -> bwe_incoming_ s = 0 ->
             delay_based_bitrate_bps_ s = 0 -> 0 <= min_bitrate_configured_ s ->
             bitrate_ s = Z.max (min_bitrate_configured_ s)
                            (Z.min (bitrate_ s) (max_bitrate_configured_ s)) ->
             bitrate_ (run ft (map CallUpdateEstimate ticks) s) = bitrate_ s).
  { clear. intros ticks. unfold run.
    induction ticks as [|t ticks IH]; intros s Hp Hr Hd Hn Hfix;
      cbn [map fold_left step]; [reflexivity |].
    destruct (UpdateEstimate_idle t s Hp Hr Hd ltac:(lia))
      as (E1 & E2 & E3 & E4 & E5 & E6).
    rewrite IH; try assumption; [| now rewrite E5 | rewrite E1, E5, E6; lia].
    rewrite E1. now symmetry. }
  destruct (UpdateEstimate_idle now s Hp Hr Hd Hb)
    as (E1 & E2 & E3 & E4 & E5 & E6).
  cbn [map]. unfold run in *. cbn [fold_left step].
  rewrite G; try assumption; [| now rewrite E5 | rewrite E1, E5, E6; lia].
  split; [exact E1 | reflexivity].
Qed.

Lemma ticks_without_input_are_stable_witness :
  bitrate_
    (run default_trials (map CallUpdateEstimate [100; 200; 30000])
       (SetBitrates default_trials 2500000 10000 2000000 default_state))
  = 2000000.
Proof.
  exact (proj1 (ticks_without_input_are_stable default_trials 100 [200; 30000]
                  (SetBitrates default_trials 2500000 10000 2000000 default_state)
                  eq_refl eq_refl eq_refl
                  ltac:(vm_compute; discriminate)
                  ltac:(vm_compute; discriminate))).
Defined.

(** * RTP sources *)

(** The precondition of [update_timestamp_ms], checked along a sequence of
    updates: each time stamp is at least the one it replaces. *)
Fixpoint updates_allowed (current : Z) (updates : list Z) : Prop :=
  match updates with
  | [] => True
  | t :: rest => current <= t /\ updates_allowed t rest
  end.

Lemma last_cons_default {A} (l : list A) : forall x d, last (x :: l) d = last l x.
Proof.
  induction l as [|y l IH]; intros x d; [reflexivity |].
  change (last (x :: y :: l) d) with (last (y :: l) d).
  now rewrite !IH.
Qed.

Lemma update_timestamp_ms_fold (updates : list Z) : forall r : RtpSource.t,
  let r' := fold_left (fun r t => RtpSource.update_timestamp_ms t r) updates r in
  RtpSource.source_id r' = RtpSource.source_id r /\
  RtpSource.source_type r' = RtpSource.source_type r /\
  RtpSource.timestamp_ms r' = last updates (RtpSource.timestamp_ms r) /\
  (updates_allowed (RtpSource.timestamp_ms r) updates ->
   RtpSource.timestamp_ms r <= RtpSource.timestamp_ms r').
Proof.
  induction updates as [|t rest IH]; intros r; cbn [fold_left].
  - repeat split. intros _. lia.
  - destruct (IH (RtpSource.update_timestamp_ms t r)) as (I1 & I2 & I3 & I4).
    cbv zeta. rewrite I1, I2, I3. repeat split.
    + symmetry. apply last_cons_default.
    + intros [Hle Hrest]. specialize (I4 Hrest).
      rewrite I3 in I4.
      change (RtpSource.timestamp_ms (RtpSource.update_timestamp_ms t r))
        with t in I4.
      change (RtpSource.timestamp_ms (RtpSource.update_timestamp_ms t r)) with t.
      lia.
Qed.

(** X26.  An RTP source keeps its identity: whatever time stamps it is updated
    with, its identifier (the constructor's argument as a [uint32_t]) and
    its kind stay those of construction, its time stamp is the last one
    given, and its audio level is never present.  When every update
    satisfies the precondition of [update_timestamp_ms], the time stamp
    never goes back. *)
Theorem RtpSource_updates :
  forall (timestamp_ms source_id : Z) (source_type : RtpSource.RtpSourceType)
         (updates : list Z),
    let r := fold_left (fun r t => RtpSource.update_timestamp_ms t r) updates
               (RtpSource.new timestamp_ms source_id source_type) in
    RtpSource.source_id r = source_id mod 2 ^ 32 /\
    RtpSource.source_type r = source_type /\
    RtpSource.timestamp_ms r = last updates timestamp_ms /\
    RtpSource.audio_level r = None /\
    (updates_allowed timestamp_ms updates ->
     timestamp_ms <= RtpSource.timestamp_ms r).
Proof.
  intros ts id ty updates r. subst r.
  destruct (update_timestamp_ms_fold updates (RtpSource.new ts id ty))
    as (H1 & H2 & H3 & H4).
  repeat split; assumption.
Qed.

Lemma RtpSource_updates_witness :
  RtpSource.timestamp_ms
    (fold_left (fun r t => RtpSource.update_timestamp_ms t r) [120; 120; 300]
       (RtpSource.new 100 7 RtpSource.CSRC)) = 300 /\
  100 <= RtpSource.timestamp_ms
           (fold_left (fun r t => RtpSource.update_timestamp_ms t r) [120; 120; 300]
              (RtpSource.new 100 7 RtpSource.CSRC)).
Proof.
  destruct (RtpSource_updates 100 7 RtpSource.CSRC [120; 120; 300])
    as (_ & _ & H3 & _ & H5).
  split; [exact H3 |]. apply H5. cbn. lia.
Defined.
